(** * The ACLU FOIA harvesting pipeline: crawl, download, index

    A shallow embedding of the three scripts of the repository

      - [scrape_nsa2.py]           crawl the listing site into a SQLite table,
      - [download_scrape_nsa2.py]  fetch the recorded PDFs into year folders,
      - [generate_local_index.py]  build a static index of the fetched files,

    followed by the properties their specification states about them and
    by further properties of the code: the invariants of the store, the
    steps of a crawl, the names and the directories of the downloads, the
    sections of the index, and how one stage feeds the next.

    Conventions of the embedding.

      - A Python [str] is a [string]: the bytes of its UTF-8 form, and for
        the name of a file the bytes of the name on disk.  Where the scripts
        strip, lower, cut or compare a text, and where the crawler reads a
        page number, the embedding works on these bytes, with the ASCII
        classes.  Where the index generator searches a year in a name and
        quotes a path, the name is read as characters ([PyStr.chars]: UTF-8
        with [surrogateescape]); the regular expression and [int] follow
        the Unicode classes, which are given by a function from the
        characters beyond ASCII to their class, so that every theorem about
        them holds whatever the Unicode tables say.
      - Library calls that can raise are partial: [urljoin] is a function
        to [result] (it raises [ValueError] on some addresses), and so is
        [quote] (it raises [UnicodeEncodeError] on a name that is no
        UTF-8).
      - Python integers are unbounded: they are [Z].
      - Code that talks to the outside (HTTP, SQLite, the file system, the
        clock) is written in a state-and-exception monad [M] over a [World].
        What the outside answers is given by oracles indexed by the number of
        requests made so far, so that every theorem holds for every behaviour
        of the remote site and of the database engine.
      - [try: ... except Exception] is the combinator [try_except].
      - The calls the orchestrator makes to its collaborators are recorded in
        the world's [trace]; claims about "performs an upsert" or "continues
        with the next entry" are statements about that trace. *)

From Stdlib Require Import ZArith List String Ascii Bool Lia PeanoNat.
From Stdlib Require Import Permutation Sorted.
From Stdlib Require Import DecimalString DecimalPos DecimalZ.
Import ListNotations.

Set Implicit Arguments.

Infix "+++" := String.append (at level 60, right associativity).

(* ================================================================== *)
(** * The record store: one SQLite table                               *)
(* ================================================================== *)

Module Store.

(** A row of the table [ACLU] (scrape_nsa2.py, [init_db]):
<<
    Page TEXT PRIMARY KEY, Document_Date TEXT, DirectPDF_Link TEXT,
    Duplicate TEXT DEFAULT 'No', Year_From_URL INTEGER
>>
    with SQLite's implicit [rowid].  Every column but the key is
    nullable; a Python [None] is stored as NULL. *)
Record row : Type := mkRow {
  rowid          : Z;
  Page           : string;
  Document_Date  : option string;
  DirectPDF_Link : option string;
  Duplicate      : option string;
  Year_From_URL  : option Z
}.

(** The table, in the order of a table scan (ascending [rowid]). *)
Definition table := list row.

(** [SELECT 1 FROM ACLU WHERE Page = ?] followed by [fetchone()]:
    is there a row with this key. *)
Definition select_exists (page_url : string) (t : table) : bool :=
  existsb (fun r => String.eqb (Page r) page_url) t.

(** The rows stored under a key. *)
Definition rows_for (page_url : string) (t : table) : list row :=
  filter (fun r => String.eqb (Page r) page_url) t.

(** The rows stored under every other key. *)
Definition rows_except (page_url : string) (t : table) : list row :=
  filter (fun r => negb (String.eqb (Page r) page_url)) t.

(** SQLite gives a new row of a rowid table one more than the largest
    rowid in use (1 in an empty table). *)
Definition next_rowid (t : table) : Z :=
  (1 + fold_right Z.max 0 (map rowid t))%Z.

(** [INSERT OR REPLACE INTO ACLU (...) VALUES (?, ?, ?, ?, ?)]: the rows
    in conflict on the primary key are deleted and the new row is
    appended under a fresh rowid. *)
Definition insert_or_replace
    (page_url : string) (doc_date pdf_url duplicate : option string)
    (year : option Z) (t : table) : table :=
  rows_except page_url t ++
  [ mkRow (next_rowid t) page_url doc_date pdf_url duplicate year ].

(** The payload of a row: the three columns an upsert call supplies
    besides the key. *)
Definition payload (r : row) : option string * option string * option Z :=
  (Document_Date r, DirectPDF_Link r, Year_From_URL r).

End Store.

(* ================================================================== *)
(** * The world and the monad of effects                               *)
(* ================================================================== *)

(** A Python exception (an instance of [Exception]) with its message. *)
Inductive exn : Type := Exception (msg : string).

(** What the scripts print when something fails or ends, and the
    confirmation of a store write. *)
Inductive log_line : Type :=
| LogDbSaved (year : option Z) (duplicate : string)  (* "DB -> Saved (...)" *)
| LogDbInsertFailed (e : exn)                        (* "DB INSERT FAILED: ..." *)
| LogPdfExtractionFailed (e : exn)                   (* "PDF extraction failed: ..." *)
| LogNoPdf                                           (* "No PDF (likely redacted/withheld)" *)
| LogFailedToLoadPage (e : exn)                      (* "Failed to load page: ..." *)
| LogNoMoreDocuments                                 (* "No more documents -> end of year" *)
| LogNoNextPage (year : Z).                          (* "No next page -> finished year" *)

(** The observable steps of a crawl. *)
Inductive event : Type :=
| EvRequest (url : string)            (* requests.get(url, ...) *)
| EvResolved (detail_url : string) (pdf : option string)
                                      (* get_direct_pdf_url(detail_url) returned pdf *)
| EvUpsert (page_url doc_date pdf_url : string) (year : Z)
                                      (* insert_into_db(conn, ...) was called *)
| EvSleep                             (* time.sleep(...) *)
| EvPrint (line : log_line).

(** The state a run threads: the two request counters the oracles are
    indexed by, the table as the connection sees it ([view], with the
    changes of an open transaction), the table as committed to the file
    ([durable]), and the trace. *)
Record World : Type := mkWorld {
  net_clock : nat;
  db_clock  : nat;
  view      : Store.table;
  durable   : Store.table;
  trace     : list event
}.

Inductive result (A : Type) : Type :=
| Ok (a : A)
| Raise (e : exn).

Arguments Ok {A} a.
Arguments Raise {A} e.

Definition M (A : Type) : Type := World -> result A * World.

Definition ret {A} (a : A) : M A := fun w => (Ok a, w).

Definition bind {A B} (m : M A) (k : A -> M B) : M B :=
  fun w =>
    match m w with
    | (Ok a, w1) => k a w1
    | (Raise e, w1) => (Raise e, w1)
    end.

Definition raise {A} (e : exn) : M A := fun w => (Raise e, w).

(** A computation without effects: its value, or the exception it
    raises. *)
Definition lift {A} (r : result A) : M A := fun w => (r, w).

(** [try: body except Exception as e: handler(e)]. *)
Definition try_except {A} (body : M A) (handler : exn -> M A) : M A :=
  fun w =>
    match body w with
    | (Ok a, w1) => (Ok a, w1)
    | (Raise e, w1) => handler e w1
    end.

Declare Scope monad_scope.
Delimit Scope monad_scope with monad.
Notation "x <- m ;; k" := (bind m (fun x => k))
  (at level 61, m at next level, right associativity) : monad_scope.
Notation "m ;; k" := (bind m (fun _ => k))
  (at level 61, right associativity) : monad_scope.
Local Open Scope monad_scope.

Definition emit (e : event) : M unit :=
  fun w => (Ok tt, mkWorld (net_clock w) (db_clock w) (view w) (durable w)
                           (trace w ++ [e])).

Definition print (l : log_line) : M unit := emit (EvPrint l).

Definition sleep : M unit := emit EvSleep.

(* ================================================================== *)
(** * The SQLite connection                                            *)
(* ================================================================== *)

Module Sqlite.

Section Connection.

(** Whether the [n]-th database operation of the run fails (a locked
    or read-only file, a full disk, ...).  A failed statement changes
    nothing; a failed commit leaves the transaction open. *)
Variable db_fails : nat -> bool.

Definition operational_error : exn := Exception "sqlite3.OperationalError".

Definition tick_db (w : World) (v d : Store.table) : World :=
  mkWorld (net_clock w) (S (db_clock w)) v d (trace w).

(** [c.execute("SELECT 1 FROM ACLU WHERE Page = ?", (page_url,))]
    and [c.fetchone()]. *)
Definition execute_select (page_url : string) : M bool :=
  fun w =>
    if db_fails (db_clock w)
    then (Raise operational_error, tick_db w (view w) (durable w))
    else (Ok (Store.select_exists page_url (view w)),
          tick_db w (view w) (durable w)).

(** [c.execute("INSERT OR REPLACE INTO ACLU ...", (...))]. *)
Definition execute_insert_or_replace
    (page_url : string) (doc_date pdf_url duplicate : option string)
    (year : option Z) : M unit :=
  fun w =>
    if db_fails (db_clock w)
    then (Raise operational_error, tick_db w (view w) (durable w))
    else (Ok tt,
          tick_db w (Store.insert_or_replace page_url doc_date pdf_url
                                             duplicate year (view w))
                    (durable w)).

(** [conn.commit()]. *)
Definition commit : M unit :=
  fun w =>
    if db_fails (db_clock w)
    then (Raise operational_error, tick_db w (view w) (durable w))
    else (Ok tt, tick_db w (view w) (view w)).

(** scrape_nsa2.py, [insert_into_db] (lines 91-108). *)
Definition insert_into_db
    (page_url : string) (doc_date pdf_url : option string)
    (year_from_url : option Z) : M unit :=
  try_except
    ( exists_ <- execute_select page_url ;;
      let duplicate := if exists_ then "Yes"%string else "No"%string in
      execute_insert_or_replace page_url doc_date pdf_url
                                (Some duplicate) year_from_url ;;
      commit ;;
      print (LogDbSaved year_from_url duplicate) )
    (fun e => print (LogDbInsertFailed e)).

End Connection.

(** The engine that never fails. *)
Definition no_faults : nat -> bool := fun _ => false.

End Sqlite.


(* ================================================================== *)
(** * Python strings                                                   *)
(* ================================================================== *)

Module PyStr.

(** [str.isspace] on the ASCII range: TAB, LF, VT, FF, CR, the four
    separators FS, GS, RS, US, and the space. *)
Definition is_space (c : ascii) : bool :=
  let n := nat_of_ascii c in
  ((9 <=? n) && (n <=? 13)) || ((28 <=? n) && (n <=? 32)).

Fixpoint lstrip_by (p : ascii -> bool) (s : string) : string :=
  match s with
  | EmptyString => EmptyString
  | String c r => if p c then lstrip_by p r else s
  end.

Fixpoint rstrip_by (p : ascii -> bool) (s : string) : string :=
  match s with
  | EmptyString => EmptyString
  | String c r =>
      match rstrip_by p r with
      | EmptyString => if p c then EmptyString else String c EmptyString
      | r' => String c r'
      end
  end.

(** [s.strip()]. *)
Definition strip (s : string) : string :=
  lstrip_by is_space (rstrip_by is_space s).

(** [s.rstrip(c)] for a one-character argument. *)
Definition rstrip_char (c : ascii) (s : string) : string :=
  rstrip_by (Ascii.eqb c) s.

(** [sub in s]. *)
Fixpoint contains (sub s : string) : bool :=
  String.prefix sub s ||
  match s with
  | EmptyString => false
  | String _ r => contains sub r
  end.

(** [s.replace(old, new)] for a non-empty [old]: the occurrences are
    found from the left and do not overlap.  [skip] counts the
    characters of the occurrence being replaced that are still to be
    dropped. *)
Fixpoint replace_from (old new : string) (skip : nat) (s : string) : string :=
  match s with
  | EmptyString => EmptyString
  | String c r =>
      match skip with
      | S k => replace_from old new k r
      | O =>
          if String.prefix old s
          then new +++ replace_from old new (String.length old - 1) r
          else String c (replace_from old new 0 r)
      end
  end.

Definition replace (old new s : string) : string := replace_from old new 0 s.

(** [s.split(c, 1)]: the text before the first [c], and the text after
    it when there is one. *)
Fixpoint split_once (c : ascii) (s : string) : string * option string :=
  match s with
  | EmptyString => (EmptyString, None)
  | String a r =>
      if Ascii.eqb a c then (EmptyString, Some r)
      else let (before, after) := split_once c r in (String a before, after)
  end.

(** [s.split(c)]. *)
Fixpoint split (c : ascii) (s : string) : list string :=
  match s with
  | EmptyString => [EmptyString]
  | String a r =>
      if Ascii.eqb a c then EmptyString :: split c r
      else match split c r with
           | [] => [String a EmptyString]
           | first :: others => String a first :: others
           end
  end.

(** [s[n:]]. *)
Fixpoint drop (n : nat) (s : string) : string :=
  match n, s with
  | O, _ => s
  | S k, String _ r => drop k r
  | S _, EmptyString => EmptyString
  end.

(** [sep.join(parts)]. *)
Fixpoint join (sep : string) (parts : list string) : string :=
  match parts with
  | [] => EmptyString
  | [p] => p
  | p :: rest => p +++ sep +++ join sep rest
  end.

(** [str(n)] for an integer. *)
Definition of_Z (n : Z) : string := NilEmpty.string_of_int (Z.to_int n).

Definition is_digit (c : ascii) : bool :=
  let n := nat_of_ascii c in (48 <=? n) && (n <=? 57).

Definition is_alpha (c : ascii) : bool :=
  let n := nat_of_ascii c in
  ((65 <=? n) && (n <=? 90)) || ((97 <=? n) && (n <=? 122)).

Definition digit_value (c : ascii) : Z := Z.of_nat (nat_of_ascii c - 48).

(** The digits of an integer literal: single underscores may separate
    digits. *)
Fixpoint parse_digits (acc : Z) (after_digit : bool) (s : string) : option Z :=
  match s with
  | EmptyString => if after_digit then Some acc else None
  | String c r =>
      if Ascii.eqb c "_"%char
      then if after_digit then parse_digits acc false r else None
      else if is_digit c
           then parse_digits (10 * acc + digit_value c)%Z true r
           else None
  end.

(** The blanks [int] skips around a literal: TAB, LF, VT, FF, CR and
    the space (the separators FS to US are not among them). *)
Definition is_blank (c : ascii) : bool :=
  let n := nat_of_ascii c in ((9 <=? n) && (n <=? 13)) || (n =? 32).

(** [int(s)]: [None] stands for [ValueError]. *)
Definition to_int (s : string) : option Z :=
  match lstrip_by is_blank (rstrip_by is_blank s) with
  | String "-"%char r => option_map Z.opp (parse_digits 0 false r)
  | String "+"%char r => parse_digits 0 false r
  | t => parse_digits 0 false t
  end.

(** [s.lower()] on the ASCII range. *)
Definition lower_char (c : ascii) : ascii :=
  let n := nat_of_ascii c in
  if (65 <=? n) && (n <=? 90) then ascii_of_nat (n + 32) else c.

Fixpoint lower (s : string) : string :=
  match s with
  | EmptyString => EmptyString
  | String c r => String (lower_char c) (lower r)
  end.

Fixpoint forallb_str (p : ascii -> bool) (s : string) : bool :=
  match s with
  | EmptyString => true
  | String c r => p c && forallb_str p r
  end.

(** Truthiness of a string: [if s:]. *)
Definition truthy (s : string) : bool :=
  match s with EmptyString => false | _ => true end.

(** Truthiness of a value that may be [None]: [if x:]. *)
Definition truthy_opt (x : option string) : bool :=
  match x with Some s => truthy s | None => false end.

(** ** Characters

    A [str] is a sequence of characters, not of bytes.  The embedding
    keeps the text of a [str] as the bytes of its UTF-8 form, and for
    the name of a file as the bytes of the name on disk; [chars] reads
    them as Python does ([os.fsdecode]: UTF-8 with [surrogateescape]).
    A character is then an ASCII character, a character beyond ASCII,
    given by the two to four bytes of its UTF-8 form, or the lone
    surrogate that stands for a byte which is part of no well-formed
    UTF-8 sequence. *)
Inductive uchar : Type :=
| Plain (c : ascii)
| Wide (bytes : string)
| Stray (c : ascii).

Definition in_range (lo hi : nat) (c : ascii) : bool :=
  let n := nat_of_ascii c in (lo <=? n) && (n <=? hi).

Definition is_continuation (c : ascii) : bool := in_range 128 191 c.

(** The length of the well-formed UTF-8 sequence of two to four bytes
    that starts [s], and 0 when [s] starts with none (the table of the
    well-formed byte sequences: no overlong form, no surrogate, nothing
    above U+10FFFF). *)
Definition well_formed_head (s : string) : nat :=
  match s with
  | String b1 (String b2 r) =>
      if in_range 194 223 b1
      then if is_continuation b2 then 2 else 0
      else
        match r with
        | String b3 r' =>
            if ((in_range 224 224 b1 && in_range 160 191 b2) ||
                (in_range 225 236 b1 && is_continuation b2) ||
                (in_range 237 237 b1 && in_range 128 159 b2) ||
                (in_range 238 239 b1 && is_continuation b2))
               && is_continuation b3
            then 3
            else
              match r' with
              | String b4 _ =>
                  if ((in_range 240 240 b1 && in_range 144 191 b2) ||
                      (in_range 241 243 b1 && is_continuation b2) ||
                      (in_range 244 244 b1 && in_range 128 143 b2))
                     && is_continuation b3 && is_continuation b4
                  then 4 else 0
              | EmptyString => 0
              end
        | EmptyString => 0
        end
  | _ => 0
  end.

(** The characters of a text.  [skip] counts the bytes of the character
    being read that are still to be passed. *)
Fixpoint chars_from (skip : nat) (s : string) : list uchar :=
  match s with
  | EmptyString => []
  | String c r =>
      match skip with
      | S k => chars_from k r
      | O =>
          if nat_of_ascii c <? 128 then Plain c :: chars_from 0 r
          else match well_formed_head s with
               | O => Stray c :: chars_from 0 r
               | S k => Wide (String.substring 0 (S k) s) :: chars_from k r
               end
      end
  end.

Definition chars (s : string) : list uchar := chars_from 0 s.

Definition is_stray (u : uchar) : bool :=
  match u with Stray _ => true | _ => false end.

(** [s.encode("utf-8")] succeeds: the text holds no lone surrogate. *)
Definition encodable (s : string) : bool := negb (existsb is_stray (chars s)).

(** The value of a decimal digit. *)
Inductive digit : Type := D0 | D1 | D2 | D3 | D4 | D5 | D6 | D7 | D8 | D9.

Definition digit_char (d : digit) : ascii :=
  match d with
  | D0 => "0" | D1 => "1" | D2 => "2" | D3 => "3" | D4 => "4"
  | D5 => "5" | D6 => "6" | D7 => "7" | D8 => "8" | D9 => "9"
  end%char.

Definition digit_number (d : digit) : Z :=
  match d with
  | D0 => 0 | D1 => 1 | D2 => 2 | D3 => 3 | D4 => 4
  | D5 => 5 | D6 => 6 | D7 => 7 | D8 => 8 | D9 => 9
  end%Z.

(** What the Unicode tables say of a character beyond ASCII: a blank
    ([str.isspace]), a decimal digit with its value, another
    alphanumeric character ([str.isalnum]: a letter, or a numeric
    character that is no decimal digit), or none of these.  The tables
    themselves are not part of the embedding: a function from the bytes
    of a character to its class stands for them, and the properties
    hold for every such function. *)
Inductive uclass : Type :=
| Blank
| Decimal (d : digit)
| Alnum
| Other.

(** The ASCII character [int] reads for a character: an ASCII
    character as it is, and beyond ASCII a space for a blank, the ASCII
    digit for a decimal digit, and a question mark otherwise.  (Python
    cuts the text after the first question mark, and in a text that is
    not all ASCII reads DEL as one: neither a question mark nor DEL is
    part of a literal, so the integer read is the same.) *)
Definition to_ascii (uc : string -> uclass) (u : uchar) : ascii :=
  match u with
  | Plain c => c
  | Wide b =>
      match uc b with
      | Blank => " "%char
      | Decimal d => digit_char d
      | _ => "?"%char
      end
  | Stray _ => "?"%char
  end.

(** [int(s)] for a text given by its characters. *)
Definition int_of_chars (uc : string -> uclass) (l : list uchar) : option Z :=
  to_int (string_of_list_ascii (map (to_ascii uc) l)).

End PyStr.


(* ================================================================== *)
(** * Python lists and dictionaries                                    *)
(* ================================================================== *)

Module PyList.

Section Sorting.

Variable A : Type.

(** [lt a b]: the sort key of [a] is smaller than the sort key of [b]. *)
Variable lt : A -> A -> bool.

(** [sorted(l, key=...)] and [l.sort(key=...)]: a stable sort, as an
    insertion sort that puts an element before the first one that is
    not smaller. *)
Fixpoint insert_sorted (x : A) (l : list A) : list A :=
  match l with
  | [] => [x]
  | y :: rest => if lt y x then y :: insert_sorted x rest else x :: l
  end.

Definition sorted (l : list A) : list A := fold_right insert_sorted [] l.

End Sorting.

Section Dict.

(** A [dict] with keys of type [K]: the pairs in insertion order. *)
Variables K V : Type.
Variable eqb : K -> K -> bool.

(** [d[k]]: [None] stands for [KeyError]. *)
Fixpoint get (k : K) (d : list (K * V)) : option V :=
  match d with
  | [] => None
  | (k', v) :: rest => if eqb k' k then Some v else get k rest
  end.

(** [d[k] = v]: a key that is present keeps its place. *)
Fixpoint set (k : K) (v : V) (d : list (K * V)) : list (K * V) :=
  match d with
  | [] => [(k, v)]
  | (k', v') :: rest =>
      if eqb k' k then (k', v) :: rest else (k', v') :: set k v rest
  end.

(** [d[k] = f(d.setdefault(k, default))], the update in place of the
    value under [k], which is [default] when the key is new. *)
Fixpoint update (k : K) (default : V) (f : V -> V) (d : list (K * V))
  : list (K * V) :=
  match d with
  | [] => [(k, f default)]
  | (k', v) :: rest =>
      if eqb k' k then (k', f v) :: rest
      else (k', v) :: update k default f rest
  end.

End Dict.

End PyList.


(* ================================================================== *)
(** * Parsed HTML documents (BeautifulSoup)                            *)
(* ================================================================== *)

Module Soup.

(** An element of the parse tree: a [NavigableString] or a [Tag] with
    its name, the value of its multi-valued [class] attribute, its other
    attributes and its contents.  The document itself is a [Tag] (named
    "[document]" by the library); searches look at what is below the node
    they start from, never at the node itself. *)
#[local] Set Warnings "-register-all".
Inductive node : Type :=
| Text (s : string)
| Tag (name : string) (classes : list string)
      (attrs : list (string * string)) (contents : list node).

(** [tag.descendants]: everything below a node, in document order. *)
Fixpoint descendants (n : node) : list node :=
  match n with
  | Text _ => []
  | Tag _ _ _ cs => flat_map (fun c => c :: descendants c) cs
  end.

Definition is_tag (n : node) : bool :=
  match n with Tag _ _ _ _ => true | Text _ => false end.

(** [tag.name == name]. *)
Definition named (name : string) (n : node) : bool :=
  match n with
  | Tag nm _ _ _ => String.eqb nm name
  | Text _ => false
  end.

(** [c in tag.get('class', [])]. *)
Definition has_class (c : string) (n : node) : bool :=
  match n with
  | Tag _ cls _ _ => existsb (String.eqb c) cls
  | Text _ => false
  end.

Fixpoint lookup (key : string) (attrs : list (string * string)) : option string :=
  match attrs with
  | [] => None
  | (k, v) :: rest => if String.eqb k key then Some v else lookup key rest
  end.

(** [tag.get(key)]. *)
Definition get (key : string) (n : node) : option string :=
  match n with
  | Tag _ _ attrs _ => lookup key attrs
  | Text _ => None
  end.

(** [tag.find_all(...)] and CSS selection both list the matching
    elements below a node in document order. *)
Definition find_all (p : node -> bool) (n : node) : list node :=
  filter p (descendants n).

(** [tag.find(...)]: the first match, or [None]. *)
Definition find (p : node -> bool) (n : node) : option node :=
  hd_error (find_all p n).

(** The selector [name.class]. *)
Definition sel (name cls : string) (n : node) : bool :=
  named name n && has_class cls n.

(** The strings below a node, in document order. *)
Definition strings (n : node) : list string :=
  flat_map (fun d => match d with Text s => [s] | Tag _ _ _ _ => [] end)
           (descendants n).

(** [tag.get_text()]. *)
Definition get_text (n : node) : string :=
  PyStr.join EmptyString (strings n).

(** [tag.get_text(strip=True)]: every string is stripped and the empty
    ones are dropped. *)
Definition get_text_strip (n : node) : string :=
  PyStr.join EmptyString
    (filter PyStr.truthy (map PyStr.strip (strings n))).

(** [tag.string]: the single string of a tag whose contents are one
    string, or one tag that has a [string]. *)
Fixpoint string_of (n : node) : option string :=
  match n with
  | Text s => Some s
  | Tag _ _ _ [c] => string_of c
  | Tag _ _ _ _ => None
  end.

(** The scan of the contents of [parent] for the first string that
    satisfies [p]; [below] searches inside a content that is a tag. *)
Definition scan_contents (p : string -> bool)
    (below : node -> option node) (parent : node)
  : list node -> option node :=
  fix scan (l : list node) : option node :=
    match l with
    | [] => None
    | Text s :: rest => if p s then Some parent else scan rest
    | (Tag _ _ _ _ as c) :: rest =>
        match below c with
        | Some found => Some found
        | None => scan rest
        end
    end.

(** [tag.find(string=p).find_parent()]: the element that directly
    contains the first string below [n] that satisfies [p]. *)
Fixpoint find_string_parent (p : string -> bool) (n : node) : option node :=
  match n with
  | Text _ => None
  | Tag _ _ _ cs => scan_contents p (find_string_parent p) n cs
  end.

End Soup.


(* ================================================================== *)
(** * URLs (urllib.parse)                                              *)
(* ================================================================== *)

Module Url.

(** The result of [urlparse]: the six components of a URL.  The model
    follows [urllib.parse] on URLs free of control characters and of
    bracketed hosts, which the library treats specially. *)
Record parsed : Type := mkParsed {
  scheme   : string;
  netloc   : string;
  path     : string;
  params   : string;
  query    : string;
  fragment : string
}.

Definition is_scheme_char (c : ascii) : bool :=
  PyStr.is_alpha c || PyStr.is_digit c ||
  Ascii.eqb c "+"%char || Ascii.eqb c "-"%char || Ascii.eqb c "."%char.

(** The scheme, when the text before the first colon is one. *)
Definition split_scheme (url : string) : string * string :=
  match PyStr.split_once ":"%char url with
  | (String c0 r as before, Some after) =>
      if PyStr.is_alpha c0 && PyStr.forallb_str is_scheme_char before
      then (PyStr.lower before, after)
      else (EmptyString, url)
  | _ => (EmptyString, url)
  end.

(** The text before the first character that satisfies [p], and the
    text from that character on. *)
Fixpoint break_at (p : ascii -> bool) (s : string) : string * string :=
  match s with
  | EmptyString => (EmptyString, EmptyString)
  | String c r =>
      if p c then (EmptyString, s)
      else let (before, rest) := break_at p r in (String c before, rest)
  end.

Definition is_netloc_end (c : ascii) : bool :=
  Ascii.eqb c "/"%char || Ascii.eqb c "?"%char || Ascii.eqb c "#"%char.

(** [url.split(c, 1)] with an empty second part when [c] is absent. *)
Definition cut (c : ascii) (s : string) : string * string :=
  match PyStr.split_once c s with
  | (before, Some after) => (before, after)
  | (before, None) => (before, EmptyString)
  end.

(** The last path segment's parameters: the text after the first
    semicolon that follows the last slash. *)
Fixpoint split_params (p : string) : string * string :=
  match p with
  | EmptyString => (EmptyString, EmptyString)
  | String c r =>
      if PyStr.contains "/" r
      then let (before, ps) := split_params r in (String c before, ps)
      else if Ascii.eqb c "/"%char
           then let (before, ps) := cut ";"%char r in (String c before, ps)
           else cut ";"%char p
  end.

Definition uses_params : list string :=
  [ ""; "ftp"; "hdl"; "prospero"; "http"; "imap"; "https"; "shttp"; "rtsp";
    "rtspu"; "sip"; "sips"; "mms"; "sftp"; "tel" ]%string.

(** [urlparse(url)]. *)
Definition urlparse (url : string) : parsed :=
  let (sch, url1) := split_scheme url in
  let (loc, url2) :=
    if String.prefix "//" url1
    then break_at is_netloc_end (PyStr.drop 2 url1)
    else (EmptyString, url1) in
  let (url3, frag) := cut "#"%char url2 in
  let (url4, qry) := cut "?"%char url3 in
  let (pth, prm) :=
    if existsb (String.eqb sch) uses_params && PyStr.contains ";" url4
    then split_params url4
    else (url4, EmptyString) in
  mkParsed sch loc pth prm qry frag.

(** ** Percent-encoding *)

Definition hex_value (c : ascii) : option nat :=
  let n := nat_of_ascii c in
  if (48 <=? n) && (n <=? 57) then Some (n - 48)
  else if (65 <=? n) && (n <=? 70) then Some (n - 55)
  else if (97 <=? n) && (n <=? 102) then Some (n - 87)
  else None.

Definition hex_digit (n : nat) : ascii :=
  if n <? 10 then ascii_of_nat (48 + n) else ascii_of_nat (55 + n).

(** [unquote(s)]: every [%XX] with two hexadecimal digits becomes the
    byte it names; anything else is kept. *)
Fixpoint unquote (s : string) : string :=
  match s with
  | EmptyString => EmptyString
  | String c r =>
      match r with
      | String h1 (String h2 r2 as r1) =>
          match Ascii.eqb c "%"%char, hex_value h1, hex_value h2 with
          | true, Some a, Some b =>
              String (ascii_of_nat (16 * a + b))
                     (match r1 with
                      | String _ t => unquote t
                      | EmptyString => EmptyString
                      end)
          | _, _, _ => String c (unquote r)
          end
      | _ => String c (unquote r)
      end
  end.

Definition always_safe (c : ascii) : bool :=
  PyStr.is_alpha c || PyStr.is_digit c ||
  Ascii.eqb c "_"%char || Ascii.eqb c "."%char ||
  Ascii.eqb c "-"%char || Ascii.eqb c "~"%char.

(** [quote_plus(s)]: unreserved characters are kept, a space becomes a
    plus sign, every other byte becomes [%XX]. *)
Fixpoint quote_plus (s : string) : string :=
  match s with
  | EmptyString => EmptyString
  | String c r =>
      if always_safe c then String c (quote_plus r)
      else if Ascii.eqb c " "%char then String "+"%char (quote_plus r)
      else let n := nat_of_ascii c in
           String "%"%char
             (String (hex_digit (n / 16))
                (String (hex_digit (n mod 16)) (quote_plus r)))
  end.


(** [quote_from_bytes(bs)], with its default [safe='/']: unreserved
    characters and slashes are kept, every other byte becomes [%XX]. *)
Fixpoint quote_from_bytes (bs : string) : string :=
  match bs with
  | EmptyString => EmptyString
  | String c r =>
      if always_safe c || Ascii.eqb c "/"%char
      then String c (quote_from_bytes r)
      else let n := nat_of_ascii c in
           String "%"%char
             (String (hex_digit (n / 16))
                (String (hex_digit (n mod 16)) (quote_from_bytes r)))
  end.

Definition unicode_encode_error : exn :=
  Exception "UnicodeEncodeError: surrogates not allowed".

(** [quote(s)]: the text is encoded as UTF-8, strictly, and the bytes
    are quoted; a text with a lone surrogate cannot be encoded. *)
Definition quote (s : string) : result string :=
  if PyStr.encodable s then Ok (quote_from_bytes s)
  else Raise unicode_encode_error.

(** ** Query strings *)

(** A [dict] from names to lists of values, in insertion order. *)
Definition multidict := list (string * list string).

Fixpoint add_value (name value : string) (d : multidict) : multidict :=
  match d with
  | [] => [(name, [value])]
  | (k, vs) :: rest =>
      if String.eqb k name then (k, vs ++ [value]) :: rest
      else (k, vs) :: add_value name value rest
  end.

Definition plus_to_space (s : string) : string := PyStr.replace "+" " " s.

(** [parse_qs(qs)]: the fields are separated by ampersands; a field
    with no equals sign or with an empty value is dropped. *)
Definition parse_qs (qs : string) : multidict :=
  match qs with
  | EmptyString => []
  | _ =>
      fold_left
        (fun d field =>
           match PyStr.split_once "="%char field with
           | (name, Some value) =>
               if PyStr.truthy value
               then add_value (unquote (plus_to_space name))
                              (unquote (plus_to_space value)) d
               else d
           | (_, None) => d
           end)
        (PyStr.split "&"%char qs) []
  end.

(** [urlencode(d, doseq=True)]. *)
Definition urlencode (d : multidict) : string :=
  PyStr.join "&"
    (flat_map
       (fun kv => map (fun v => quote_plus (fst kv) +++ "=" +++ quote_plus v)
                      (snd kv))
       d).

End Url.


(* ================================================================== *)
(** * The crawler (scrape_nsa2.py)                                     *)
(* ================================================================== *)

Module Crawl.

(** The site every relative link is resolved against. *)
Definition ACLU : string := "https://www.aclu.org".

(** What [requests.get] meets: a transport failure (time-out, DNS,
    reset connection), or a response with its status code and its body,
    given as the document [BeautifulSoup(r.text, 'html.parser')] builds
    from it. *)
Inductive http_outcome : Type :=
| TransportError (e : exn)
| HttpResponse (status_code : Z) (document : Soup.node).

(** An entry of a listing page: a dictionary with the keys
    ['detail_url'], ['title'] and ['doc_date']. *)
Record item : Type := mkItem {
  detail_url : string;
  title      : string;
  doc_date   : string
}.

(** An entry of the list [scrape_year] returns:
    [{**item, 'pdf_url': pdf, 'year': year}]. *)
Record saved : Type := mkSaved {
  saved_item : item;
  pdf_url    : string;
  year       : Z
}.

(** Why the loop over the pages of a year ended. *)
Inductive stop_reason : Type := FetchFailed | EmptyPage | NoNextPage.

(** One turn of the loop either ends it or moves to the next page. *)
Inductive step_outcome : Type := Stop (why : stop_reason) | Advance.

Section Scraper.

(** [urllib.parse.urljoin]: the joined URL, or the [ValueError] the
    library raises on a reference it cannot split (a bracketed host that
    is not closed or is no IP address, as in ["//[x"]). *)
Variable urljoin : string -> string -> result string.

(** What the [n]-th HTTP request of the run meets, by its URL. *)
Variable http : nat -> string -> http_outcome.

(** Whether the [n]-th database operation of the run fails. *)
Variable db_fails : nat -> bool.

(** ** Pagination resolver: [get_next_page_url] (lines 12-39) *)

(** The explicit link: [nav.page-numbers] holding [a.next] with a
    non-empty [href].  The call of [urljoin] is in no [try]: its
    [ValueError] leaves the resolver. *)
Definition explicit_next (soup : Soup.node) : result (option string) :=
  match Soup.find (Soup.sel "nav" "page-numbers") soup with
  | Some nav =>
      match Soup.find (Soup.sel "a" "next") nav with
      | Some next_a =>
          match Soup.get "href" next_a with
          | Some href =>
              if PyStr.truthy href
              then match urljoin ACLU href with
                   | Ok next => Ok (Some next)
                   | Raise e => Raise e
                   end
              else Ok None
          | None => Ok None
          end
      | None => Ok None
      end
  | None => Ok None
  end.

(** [soup.select('a.page-numbers, span.page-numbers')]. *)
Definition page_number_elements (soup : Soup.node) : list Soup.node :=
  Soup.find_all
    (fun n => Soup.sel "a" "page-numbers" n || Soup.sel "span" "page-numbers" n)
    soup.

(** The loop over the page-number elements: the last element whose text
    is an integer and which is marked [current] or is a [span] gives the
    current page; an element whose text is no integer is passed over. *)
Definition current_page_of (soup : Soup.node) : option Z :=
  fold_left
    (fun current_page a =>
       match PyStr.to_int (Soup.get_text_strip a) with
       | Some page_num =>
           if Soup.has_class "current" a || Soup.named "span" a
           then Some page_num
           else current_page
       | None => current_page
       end)
    (page_number_elements soup) None.

(** The fallback: the URL built from the pieces of the current one. *)
Definition fallback_url (current_page : Z) (current_url : string) : string :=
  let parsed := Url.urlparse current_url in
  let query := Url.parse_qs (Url.query parsed) in
  let next_page := (current_page + 1)%Z in
  let new_url :=
    Url.scheme parsed +++ "://" +++ Url.netloc parsed +++
    PyStr.rstrip_char "/" (Url.path parsed) +++ "/page/" +++
    PyStr.of_Z next_page in
  let new_url :=
    match query with
    | [] => new_url
    | _ :: _ => new_url +++ "?" +++ Url.urlencode query
    end in
  if PyStr.truthy (Url.fragment parsed)
  then new_url +++ "#" +++ Url.fragment parsed
  else new_url.

Definition get_next_page_url (soup : Soup.node) (current_url : string)
  : result (option string) :=
  match explicit_next soup with
  | Raise e => Raise e
  | Ok (Some next) => Ok (Some next)
  | Ok None =>
      match current_page_of soup with
      | Some current_page => Ok (Some (fallback_url current_page current_url))
      | None => Ok None
      end
  end.

(** ** Listing parser: [get_detail_pages_from_listing] (lines 41-57) *)

(** [soup.select('a.document-listing-card')]. *)
Definition document_cards (soup : Soup.node) : list Soup.node :=
  Soup.find_all (Soup.sel "a" "document-listing-card") soup.

Definition card_title (card : Soup.node) : string :=
  match Soup.find (Soup.sel "div" "is-size-4") card with
  | Some title_div => Soup.get_text_strip title_div
  | None => "Unknown Title"
  end.

Definition card_date (card : Soup.node) : string :=
  let doc_date :=
    match Soup.find_string_parent (PyStr.contains "Document Date:") card with
    | Some parent => Soup.get_text parent
    | None => "Unknown Date"%string
    end in
  PyStr.strip (PyStr.replace "Document Date:" "" doc_date).

(** The loop over the cards, with the list [items] it appends to.  The
    call of [urljoin] is in no [try]: its [ValueError] ends the loop and
    leaves the parser. *)
Fixpoint cards_loop (cards : list Soup.node) (items : list item)
  : result (list item) :=
  match cards with
  | [] => Ok items
  | card :: rest =>
      match Soup.get "href" card with
      | Some href =>
          if PyStr.truthy href
          then match urljoin ACLU href with
               | Ok detail_url =>
                   cards_loop rest
                     (items ++ [mkItem detail_url (card_title card)
                                       (card_date card)])
               | Raise e => Raise e
               end
          else cards_loop rest items
      | None => cards_loop rest items
      end
  end.

Definition get_detail_pages_from_listing (soup : Soup.node)
  : result (list item) :=
  cards_loop (document_cards soup) [].

(** ** Detail resolver: [get_direct_pdf_url] (lines 59-70) *)

(** [requests.get(url, headers=HEADERS, timeout=...)]. *)
Definition requests_get (url : string) : M (Z * Soup.node) :=
  fun w =>
    let w1 := mkWorld (S (net_clock w)) (db_clock w) (view w) (durable w)
                      (trace w ++ [EvRequest url]) in
    match http (net_clock w) url with
    | TransportError e => (Raise e, w1)
    | HttpResponse status_code document => (Ok (status_code, document), w1)
    end.

Definition is_download_link (n : Soup.node) : bool :=
  Soup.named "a" n &&
  match Soup.get "download" n with Some _ => true | None => false end.

Definition says_download_document (n : Soup.node) : bool :=
  Soup.named "a" n &&
  match Soup.string_of n with
  | Some x => PyStr.truthy x && PyStr.contains "Download document" x
  | None => false
  end.

(** [soup.find('a', download=True) or soup.find('a', string=...)]. *)
Definition download_anchor (soup : Soup.node) : option Soup.node :=
  match Soup.find is_download_link soup with
  | Some a => Some a
  | None => Soup.find says_download_document soup
  end.

(** Lines 65-67 and 70, for a page that has been fetched: the link of
    the anchor, or the [ValueError] of [urljoin]. *)
Definition pdf_link_of (soup : Soup.node) : result (option string) :=
  match download_anchor soup with
  | Some a =>
      match Soup.get "href" a with
      | Some href =>
          if PyStr.truthy href
          then match urljoin ACLU href with
               | Ok pdf => Ok (Some pdf)
               | Raise e => Raise e
               end
          else Ok None
      | None => Ok None
      end
  | None => Ok None
  end.

(** The whole body is in the [try]: a failed request and a reference
    [urljoin] refuses are both printed, and [None] is returned. *)
Definition get_direct_pdf_url (detail_url : string) : M (option string) :=
  try_except
    ( r <- requests_get detail_url ;;
      if negb (fst r =? 200)%Z then ret None
      else lift (pdf_link_of (snd r)) )
    (fun e => print (LogPdfExtractionFailed e) ;; ret None).

(** ** Orchestrator: [scrape_year] (lines 110-156) *)

(** [r.raise_for_status()]. *)
Definition raise_for_status (status_code : Z) : M unit :=
  if ((400 <=? status_code) && (status_code <? 600))%Z
  then raise (Exception "requests.HTTPError")
  else ret tt.

Definition listing_url (base_url : string) (page yr : Z) : string :=
  base_url +++ "/page/" +++ PyStr.of_Z page +++
  "?document_date=" +++ PyStr.of_Z yr +++ "#listings".

(** [next_url and 'page/' in next_url]. *)
Definition valid_next (next_url : option string) : bool :=
  match next_url with
  | Some u => PyStr.truthy u && PyStr.contains "page/" u
  | None => false
  end.

(** The body of the loop over the entries of a page. *)
Definition process_item (yr : Z) (it : item) (all_pdfs : list saved)
  : M (list saved) :=
  pdf <- get_direct_pdf_url (detail_url it) ;;
  emit (EvResolved (detail_url it) pdf) ;;
  all_pdfs' <-
    match pdf with
    | Some p =>
        if PyStr.truthy p
        then emit (EvUpsert (detail_url it) (doc_date it) p yr) ;;
             Sqlite.insert_into_db db_fails (detail_url it)
                                   (Some (doc_date it)) (Some p) (Some yr) ;;
             ret (all_pdfs ++ [mkSaved it p yr])
        else print LogNoPdf ;; ret all_pdfs
    | None => print LogNoPdf ;; ret all_pdfs
    end ;;
  sleep ;;
  ret all_pdfs'.

Fixpoint process_items (yr : Z) (items : list item) (all_pdfs : list saved)
  : M (list saved) :=
  match items with
  | [] => ret all_pdfs
  | it :: rest =>
      all_pdfs' <- process_item yr it all_pdfs ;;
      process_items yr rest all_pdfs'
  end.

(** One turn of [while True]: fetch the page, parse it, handle its
    entries, look for the next page.  Only the request is in a [try]
    (lines 122-127): an exception of the parser or of the pagination
    resolver leaves the loop and [scrape_year]. *)
Definition page_step (base_url : string) (yr page : Z) (all_pdfs : list saved)
  : M (step_outcome * list saved) :=
  let url := listing_url base_url page yr in
  fetched <-
    try_except
      ( r <- requests_get url ;;
        raise_for_status (fst r) ;;
        ret (Some (snd r)) )
      (fun e => print (LogFailedToLoadPage e) ;; ret None) ;;
  match fetched with
  | None => ret (Stop FetchFailed, all_pdfs)
  | Some soup =>
      items <- lift (get_detail_pages_from_listing soup) ;;
      match items with
      | [] => print LogNoMoreDocuments ;; ret (Stop EmptyPage, all_pdfs)
      | _ :: _ =>
          all_pdfs' <- process_items yr items all_pdfs ;;
          next_url <- lift (get_next_page_url soup url) ;;
          if valid_next next_url
          then sleep ;; ret (Advance, all_pdfs')
          else print (LogNoNextPage yr) ;; ret (Stop NoNextPage, all_pdfs')
      end
  end.

(** The loop, with a bound on the number of pages it may visit: [None]
    when the bound is reached before the loop ends. *)
Fixpoint scrape_loop (fuel : nat) (base_url : string) (yr page : Z)
    (all_pdfs : list saved) : M (option (list saved)) :=
  match fuel with
  | O => ret None
  | S fuel' =>
      r <- page_step base_url yr page all_pdfs ;;
      match r with
      | (Stop _, pdfs) => ret (Some pdfs)
      | (Advance, pdfs) => scrape_loop fuel' base_url yr (page + 1)%Z pdfs
      end
  end.

Definition scrape_year (fuel : nat) (base_url : string) (yr : Z)
  : M (option (list saved)) :=
  scrape_loop fuel base_url yr 1%Z [].


(** ** The script: [init_db] (lines 72-89) and the loop over the years
    (lines 158-183) *)

(** [init_db(db_name)]: the connection to the file, in which the table
    [ACLU] is created when it is not there ([CREATE TABLE IF NOT
    EXISTS]); the rows of an existing table are kept.  [None] stands for
    a file that is absent or holds no such table.  The run of the script
    starts here: no request and no database operation has been counted,
    and nothing is pending. *)
Definition init_db (file : option Store.table) : World :=
  let t := match file with Some t => t | None => [] end in
  mkWorld 0 0 t t [].

Definition base_url : string :=
  "https://www.aclu.org/foia-collections/nsa-documents-search".

(** The years the script crawls, in its order. *)
Definition years : list Z :=
  [ 2018; 2017; 2016; 2015; 2014; 2013; 2012; 2011; 2010; 2009; 2008;
    2007; 2006; 2005; 2004; 2003; 2002; 2001; 1997; 1993; 1905 ]%Z.

(** The loop over the years, with the running [total]:
    [count = len(scrape_year(...)); total += count].  [None] when the
    crawl of a year does not end within [fuel] pages. *)
Fixpoint crawl_years (fuel : nat) (base_url : string) (years : list Z)
    (total : Z) : M (option Z) :=
  match years with
  | [] => ret (Some total)
  | yr :: rest =>
      r <- scrape_year fuel base_url yr ;;
      match r with
      | Some pdfs =>
          crawl_years fuel base_url rest (total + Z.of_nat (List.length pdfs))%Z
      | None => ret None
      end
  end.

(** The script: how it ends (the total it reports, or the exception
    that stops it) and the table the file holds afterwards.  Neither
    [conn.close()] nor the end of the process commits: changes that are
    still pending are lost. *)
Definition main (fuel : nat) (file : option Store.table)
  : result (option Z) * Store.table :=
  let (r, w) := crawl_years fuel base_url years 0%Z (init_db file) in
  (r, durable w).

End Scraper.

End Crawl.


(* ================================================================== *)
(** * The download stage (download_scrape_nsa2.py)                     *)
(* ================================================================== *)

Module Download.

(** A row as [load_rows] fetches it: [(rowid, DirectPDF_Link,
    Year_From_URL)]. *)
Definition fetched : Type := Z * string * option Z.

(** The [WHERE] clause without the test on [Duplicate]:
    [DirectPDF_Link IS NOT NULL AND DirectPDF_Link != '']. *)
Definition has_link (r : Store.row) : bool :=
  match Store.DirectPDF_Link r with
  | Some link => negb (String.eqb link "")
  | None => false
  end.

(** [Duplicate IS NULL OR Duplicate='No']. *)
Definition null_or_no (r : Store.row) : bool :=
  match Store.Duplicate r with
  | None => true
  | Some d => String.eqb d "No"
  end.

(** [load_rows(conn, include_duplicates)] (lines 59-73): the query has
    no [ORDER BY]; the rows come in the order of the table scan. *)
Definition load_rows (t : Store.table) (include_duplicates : bool)
  : list fetched :=
  flat_map
    (fun r =>
       match Store.DirectPDF_Link r with
       | Some link =>
           if has_link r && (include_duplicates || null_or_no r)
           then [(Store.rowid r, link, Store.Year_From_URL r)]
           else []
       | None => []
       end)
    t.

(** The sort key of [main]: [(x[2] if x[2] else 9999, x[0])].  A year
    that is [None] or zero is falsy. *)
Definition sort_key (x : fetched) : Z * Z :=
  let '(rid, _, yr) := x in
  (match yr with
   | Some y => if (y =? 0)%Z then 9999%Z else y
   | None => 9999%Z
   end, rid).

(** The order of Python tuples of two integers. *)
Definition key_lt (a b : Z * Z) : bool :=
  ((fst a <? fst b) || ((fst a =? fst b) && (snd a <? snd b)))%Z.

(** [rows.sort(key=...)]: a stable sort, modelled as an insertion sort
    that puts an element before the first one that is not smaller. *)
Fixpoint insert_sorted (x : fetched) (l : list fetched) : list fetched :=
  match l with
  | [] => [x]
  | y :: rest =>
      if key_lt (sort_key y) (sort_key x)
      then y :: insert_sorted x rest
      else x :: l
  end.

Definition sort_rows (rows : list fetched) : list fetched :=
  fold_right insert_sorted [] rows.

(** ** File names *)

(** [os.path.basename(p)]: what follows the last slash. *)
Fixpoint basename (p : string) : string :=
  match p with
  | EmptyString => EmptyString
  | String c r =>
      if PyStr.contains "/" p
      then basename r
      else p
  end.

Definition backslash : string := String (ascii_of_nat 92) EmptyString.

(** [sanitize_filename(name, max_len=200)] (lines 35-40). *)
Definition sanitize_filename (name : string) : string :=
  let name := PyStr.replace backslash "_"
                (PyStr.replace "/" "_" (PyStr.strip name)) in
  let name := fst (PyStr.split_once "#"%char
                     (fst (PyStr.split_once "?"%char name))) in
  if 200 <? String.length name then String.substring 0 200 name else name.

(** [basename_from_url(url)] (lines 43-46). *)
Definition basename_from_url (url : string) : string :=
  let name := basename (Url.unquote (Url.path (Url.urlparse url))) in
  sanitize_filename (if PyStr.truthy name then name else "file.pdf"%string).

(** [os.path.join(a, b)] for a relative [b]. *)
Definition path_join (a b : string) : string :=
  match a with
  | EmptyString => b
  | _ => if String.eqb (PyStr.rstrip_char "/" a) a
         then a +++ "/" +++ b
         else a +++ b
  end.

(** [str(year if year is not None else "unknown")]. *)
Definition year_str (yr : option Z) : string :=
  match yr with
  | Some y => PyStr.of_Z y
  | None => "unknown"%string
  end.

(** The file system as the set of the paths that exist. *)
Definition filesystem := list string.

Definition path_exists (fs : filesystem) (p : string) : bool :=
  existsb (String.eqb p) fs.

(** What the loop of [main] does with a row. *)
Inductive action : Type :=
| Skipped (rowid : Z) (dest_path : string)
| Transferred (rowid : Z) (pdf_url dest_path : string)
| TransferFailed (rowid : Z) (pdf_url dest_path : string) (e : exn).

Section Main.

(** [hashlib.sha1(url.encode()).hexdigest()]. *)
Variable sha1_hexdigest : string -> string.

(** What running [aria2c] for a URL and a destination leaves on the file
    system, or the exception [subprocess.run] raises. *)
Variable aria2c : filesystem -> string -> string -> filesystem + exn.

(** [unique_fname(rowid, url)] (lines 49-52). *)
Definition unique_fname (rid : Z) (url : string) : string :=
  let base := basename_from_url url in
  let h := String.substring 0 8 (sha1_hexdigest url) in
  PyStr.of_Z rid +++ "_" +++ h +++ "_" +++ base.

Definition dest_path_of (out : string) (x : fetched) : string :=
  let '(rid, pdf_url, yr) := x in
  path_join (path_join out (year_str yr)) (unique_fname rid pdf_url).

(** The loop of [main] over the sorted rows (lines 142-171): the list of
    what was done, row by row, and the file system it leaves. *)
Fixpoint download_loop (force : bool) (out : string) (rows : list fetched)
    (fs : filesystem) : list action * filesystem :=
  match rows with
  | [] => ([], fs)
  | ((rid, pdf_url, yr) as x) :: rest =>
      let year_dir := path_join out (year_str yr) in
      let fs1 := if path_exists fs year_dir then fs else year_dir :: fs in
      let dest_path := dest_path_of out x in
      if path_exists fs1 dest_path && negb force
      then let (acts, fs') := download_loop force out rest fs1 in
           (Skipped rid dest_path :: acts, fs')
      else match aria2c fs1 pdf_url dest_path with
           | inl fs2 =>
               let (acts, fs') := download_loop force out rest fs2 in
               (Transferred rid pdf_url dest_path :: acts, fs')
           | inr e =>
               let (acts, fs') := download_loop force out rest fs1 in
               (TransferFailed rid pdf_url dest_path e :: acts, fs')
           end
  end.

(** [main] (lines 102-173) once the database is open. *)
Definition main (t : Store.table) (force include_duplicates : bool)
    (out : string) (fs : filesystem) : list action * filesystem :=
  match load_rows t include_duplicates with
  | [] => ([], fs)
  | rows => download_loop force out (sort_rows rows) fs
  end.

End Main.

End Download.

(* ================================================================== *)
(** * The index generator (generate_local_index.py)                    *)
(* ================================================================== *)

Module Index.

Section Classes.

(** The classes of the characters beyond ASCII. *)
Variable uc : string -> PyStr.uclass.

(** The class [\w] of the regular expression engine on a [str]
    pattern: an alphanumeric character or the underscore. *)
Definition is_word (u : PyStr.uchar) : bool :=
  match u with
  | PyStr.Plain c => PyStr.is_alpha c || PyStr.is_digit c || Ascii.eqb c "_"%char
  | PyStr.Wide b =>
      match uc b with
      | PyStr.Decimal _ | PyStr.Alnum => true
      | _ => false
      end
  | PyStr.Stray _ => false
  end.

(** The class [\d]: a decimal digit of any script. *)
Definition is_decimal (u : PyStr.uchar) : bool :=
  match u with
  | PyStr.Plain c => PyStr.is_digit c
  | PyStr.Wide b =>
      match uc b with
      | PyStr.Decimal _ => true
      | _ => false
      end
  | PyStr.Stray _ => false
  end.

(** Whether the pattern [(19\d{2}|20\d{2})\b] matches at the start of
    [s]: the characters [19] or [20] and two digits, followed by the
    end of the text or by a character that is no word character. *)
Definition year_here (s : list PyStr.uchar) : bool :=
  match s with
  | PyStr.Plain c1 :: PyStr.Plain c2 :: u3 :: u4 :: rest =>
      ((Ascii.eqb c1 "1"%char && Ascii.eqb c2 "9"%char) ||
       (Ascii.eqb c1 "2"%char && Ascii.eqb c2 "0"%char)) &&
      is_decimal u3 && is_decimal u4 &&
      match rest with
      | [] => true
      | u5 :: _ => negb (is_word u5)
      end
  | _ => false
  end.

(** [re.search(r"\b(19\d{2}|20\d{2})\b", part)]: the leftmost match.
    [after_word] tells whether the character before [s] is a word
    character; the boundary before the year asks that it is not. *)
Fixpoint search_year (after_word : bool) (s : list PyStr.uchar)
  : option (list PyStr.uchar) :=
  match s with
  | [] => None
  | u :: r =>
      if negb after_word && year_here s
      then Some (firstn 4 s)
      else search_year (is_word u) r
  end.

(** [extract_year_from_path(path_parts)] (lines 13-19).  [Raise] stands
    for the [ValueError] of [int]. *)
Fixpoint extract_year_from_path (path_parts : list string)
  : result (option Z) :=
  match path_parts with
  | [] => Ok None
  | part :: rest =>
      match search_year false (PyStr.chars part) with
      | Some matched =>
          match PyStr.int_of_chars uc matched with
          | Some y => Ok (Some y)
          | None => Raise (Exception "ValueError")
          end
      | None => extract_year_from_path rest
      end
  end.

End Classes.

(** The key a file is grouped under (line 57):
    [f["year"] if f["year"] else "no-year"]. *)
Inductive year_key : Type := YearKey (y : Z) | NoYear.

Definition year_key_of (yr : option Z) : year_key :=
  match yr with
  | Some y => if (y =? 0)%Z then NoYear else YearKey y
  | None => NoYear
  end.


(** ** The scan of the tree (lines 29-51) *)

(** An entry of [pdf_files]: the dictionary with the keys ["path"],
    ["name"] and ["year"]. *)
Record pdf : Type := mkPdf {
  pdf_path : string;
  pdf_name : string;
  pdf_year : option Z
}.

(** What [root.rglob("*.pdf")] yields: the parts of a path below the
    root, and whether the path is a file. *)
Record found : Type := mkFound {
  parts   : list string;
  is_file : bool
}.

(** The loop over what [rglob] yields, with the list it appends to and
    the counter of the paths it excludes. *)
Fixpoint scan (uc : string -> PyStr.uclass) (candidates : list found)
    (pdf_files : list pdf) (excluded : nat)
  : result (list pdf * nat) :=
  match candidates with
  | [] => Ok (pdf_files, excluded)
  | p :: rest =>
      if existsb (String.eqb ".files") (parts p)
      then scan uc rest pdf_files (S excluded)
      else if negb (is_file p)
      then scan uc rest pdf_files excluded
      else match extract_year_from_path uc (parts p) with
           | Ok year =>
               scan uc rest
                 (pdf_files ++ [mkPdf (PyStr.join "/" (parts p))
                                      (List.last (parts p) EmptyString) year])
                 excluded
           | Raise e => Raise e
           end
  end.

(** ** The groups (lines 53-58) *)

Definition year_key_eqb (a b : year_key) : bool :=
  match a, b with
  | YearKey x, YearKey y => (x =? y)%Z
  | NoYear, NoYear => true
  | _, _ => false
  end.

(** The files of a directory by year key, and the directories. *)
Definition year_groups : Type := list (year_key * list pdf).

Definition groups : Type := list (string * year_groups).

(** [f["path"].split("/", 1)[0]]. *)
Definition top_dir (f : pdf) : string :=
  fst (PyStr.split_once "/"%char (pdf_path f)).

(** [grouped.setdefault(top_dir, {}).setdefault(year_key, []).append(f)]. *)
Definition add_file (grouped : groups) (f : pdf) : groups :=
  PyList.update String.eqb (top_dir f) []
    (PyList.update year_key_eqb (year_key_of (pdf_year f)) []
                   (fun files => files ++ [f]))
    grouped.

Definition group_files (pdf_files : list pdf) : groups :=
  fold_left add_file pdf_files [].

(** ** The sections of the index (lines 60-93) *)

Definition no_year_folder : string := "No Year Folder".

(** ["No Year Folder" if y_key == "no-year" else str(y_key)]. *)
Definition display (k : year_key) : string :=
  match k with
  | NoYear => no_year_folder
  | YearKey y => PyStr.of_Z y
  end.

(** [sorted(flist, key=lambda x: x["path"].lower())]. *)
Definition sort_files (flist : list pdf) : list pdf :=
  PyList.sorted
    (fun a b => String.ltb (PyStr.lower (pdf_path a)) (PyStr.lower (pdf_path b)))
    flist.

(** The dictionary [year_map] of a directory. *)
Definition year_map (d : year_groups) : list (string * list pdf) :=
  fold_left
    (fun m kv => PyList.set String.eqb (display (fst kv)) (sort_files (snd kv)) m)
    d [].

(** The keys [int] is applied to when a list is sorted with [key=int]:
    the sort starts once every key is computed. *)
Fixpoint int_keys (names : list string) : option (list (Z * string)) :=
  match names with
  | [] => Some []
  | y :: rest =>
      match PyStr.to_int y, int_keys rest with
      | Some n, Some keyed => Some ((n, y) :: keyed)
      | _, _ => None
      end
  end.

(** [sorted_years]: the names that are years, by their number, then
    [No Year Folder] when the directory has files without a year. *)
Definition sorted_years (m : list (string * list pdf)) : result (list string) :=
  let names := map fst m in
  match int_keys (filter (fun y => negb (String.eqb y no_year_folder)) names) with
  | Some keyed =>
      let years := map snd (PyList.sorted (fun a b => (fst a <? fst b)%Z) keyed) in
      Ok (if existsb (String.eqb no_year_folder) names
          then years ++ [no_year_folder] else years)
  | None => Raise (Exception "ValueError")
  end.

Fixpoint for_each {A B : Type} (f : A -> result B) (l : list A)
  : result (list B) :=
  match l with
  | [] => Ok []
  | x :: rest =>
      match f x with
      | Ok y =>
          match for_each f rest with
          | Ok ys => Ok (y :: ys)
          | Raise e => Raise e
          end
      | Raise e => Raise e
      end
  end.

(** [d[k]] in the course of a loop. *)
Definition lookup {V : Type} (k : string) (d : list (string * V)) : result V :=
  match PyList.get String.eqb k d with
  | Some v => Ok v
  | None => Raise (Exception "KeyError")
  end.

(** The year sections of a directory, in the order they are written:
    the name of each and its files. *)
Definition year_sections (d : year_groups) : result (list (string * list pdf)) :=
  let m := year_map d in
  match sorted_years m with
  | Ok names =>
      for_each (fun year_name =>
                  match lookup year_name m with
                  | Ok files => Ok (year_name, files)
                  | Raise e => Raise e
                  end) names
  | Raise e => Raise e
  end.

(** The directory sections, in the order they are written. *)
Definition directory_sections (grouped : groups)
  : result (list (string * list (string * list pdf))) :=
  for_each (fun top =>
              match lookup top grouped with
              | Ok d =>
                  match year_sections d with
                  | Ok ys => Ok (top, ys)
                  | Raise e => Raise e
                  end
              | Raise e => Raise e
              end)
           (PyList.sorted String.ltb (map fst grouped)).

(** ** The text of the index *)

Definition quote_mark : string := String (ascii_of_nat 34) EmptyString.

Definition newline : string := String (ascii_of_nat 10) EmptyString.

(** A table row (lines 87-89): [quote] raises on a path that cannot be
    encoded. *)
Definition file_row (f : pdf) : result string :=
  let safe_name := PyStr.replace "|" "Vertical Bar" (pdf_name f) in
  match Url.quote (pdf_path f) with
  | Ok link =>
      Ok ("          <tr><td><a href=" +++ quote_mark +++ link +++ quote_mark +++
          " target=" +++ quote_mark +++ "_blank" +++ quote_mark +++ ">" +++
          safe_name +++ "</a></td><td><code>" +++ pdf_path f +++
          "</code></td></tr>" +++ newline)
  | Raise e => Raise e
  end.

Definition attr (name value : string) : string :=
  name +++ "=" +++ quote_mark +++ value +++ quote_mark.

(** A year section (lines 82-91). *)
Definition year_text (ys : string * list pdf) : result string :=
  match for_each file_row (snd ys) with
  | Ok rows =>
      Ok ("    <div " +++ attr "class" "year collapsed" +++ ">" +++ newline +++
          "      <div " +++ attr "class" "year-header" +++ ">" +++ fst ys +++
          " <span " +++ attr "class" "count" +++ ">(" +++
          PyStr.of_Z (Z.of_nat (List.length (snd ys))) +++
          " PDFs)</span><span " +++
          attr "class" "arrow" +++ "></span></div>" +++ newline +++
          "      <div " +++ attr "class" "content" +++ ">" +++ newline +++
          "        <div " +++ attr "class" "table-wrapper" +++
          "><table><thead><tr><th>Document</th><th>Path</th></tr></thead><tbody>" +++
          newline +++
          PyStr.join EmptyString rows +++
          "        </tbody></table></div>" +++ newline +++
          "      </div></div>" +++ newline)
  | Raise e => Raise e
  end.

(** A directory section (lines 63-65 and 93). *)
Definition directory_text (ds : string * list (string * list pdf))
  : result string :=
  match for_each year_text (snd ds) with
  | Ok years =>
      Ok ("<div " +++ attr "class" "directory collapsed" +++ ">" +++ newline +++
          "  <div " +++ attr "class" "dir-header" +++ ">" +++ fst ds +++
          "<span " +++ attr "class" "arrow" +++ "></span></div>" +++ newline +++
          "  <div " +++ attr "class" "content" +++ ">" +++ newline +++
          PyStr.join EmptyString years +++
          "  </div></div>" +++ newline)
  | Raise e => Raise e
  end.

(** The string [content]: the loop ends on the first path [quote]
    refuses. *)
Definition content_of (sections : list (string * list (string * list pdf)))
  : result string :=
  match for_each directory_text sections with
  | Ok directories => Ok (PyStr.join EmptyString directories)
  | Raise e => Raise e
  end.

(** Line 96: the two markers of the template are replaced, the count
    first. *)
Definition inject (template : string) (total : nat) (content : string) : string :=
  PyStr.replace "<!-- INJECTED_CONTENT -->" content
    (PyStr.replace "{TOTAL_FILES}" (PyStr.of_Z (Z.of_nat total)) template).

(** The script, from the template and what the tree holds to the text
    of [index_local.html]. *)
Definition generate (uc : string -> PyStr.uclass) (template : string)
    (candidates : list found)
  : result string :=
  match scan uc candidates [] 0 with
  | Ok (pdf_files, _) =>
      match directory_sections (group_files pdf_files) with
      | Ok sections =>
          match content_of sections with
          | Ok content => Ok (inject template (List.length pdf_files) content)
          | Raise e => Raise e
          end
      | Raise e => Raise e
      end
  | Raise e => Raise e
  end.

End Index.


(* ================================================================== *)
(** * The vocabulary of the properties                                 *)
(* ================================================================== *)

(** The definitions the statements below are written with: sequences of
    calls, what a run is expected to leave, the conditions the claims
    name, and the pages, sites and tables of the examples. *)

Local Open Scope string_scope.
Local Open Scope list_scope.

(** ** The record store *)

(** An upsert call: the arguments of [insert_into_db] after the
    connection. *)
Record call : Type := mkCall {
  call_page : string;
  call_date : option string;
  call_pdf  : option string;
  call_year : option Z
}.

(** A sequence of upsert calls on one connection. *)
Fixpoint upsert_all (db_fails : nat -> bool) (calls : list call) : M unit :=
  match calls with
  | [] => ret tt
  | c :: rest =>
      Sqlite.insert_into_db db_fails (call_page c) (call_date c) (call_pdf c)
                            (call_year c) ;;
      upsert_all db_fails rest
  end.

(** The flag a call writes: ['Yes'] when the key is already there. *)
Definition flag_for (page_url : string) (t : Store.table) : string :=
  if Store.select_exists page_url t then "Yes"%string else "No"%string.

(** The world an upsert leaves when the engine does not fail: three
    database operations, the row replaced and committed, one line
    printed. *)
Definition upsert_ok (c : call) (w : World) : World :=
  let t := Store.insert_or_replace (call_page c) (call_date c) (call_pdf c)
             (Some (flag_for (call_page c) (view w))) (call_year c) (view w) in
  mkWorld (net_clock w) (3 + db_clock w) t t
          (trace w ++ [EvPrint (LogDbSaved (call_year c)
                                           (flag_for (call_page c) (view w)))]).

(** The scenario of the specification: the same page found under the
    year 2013 and again under 2014. *)
Definition empty_world : World := mkWorld 0 0 [] [] [].

Definition found_2013 : call :=
  mkCall "https://www.aclu.org/documents/a" (Some "May 1, 2013")
         (Some "https://www.aclu.org/a.pdf") (Some 2013%Z).

Definition found_2014 : call :=
  mkCall "https://www.aclu.org/documents/a" (Some "May 1, 2013")
         (Some "https://www.aclu.org/a.pdf") (Some 2014%Z).

(** ** The store layer under failures *)

(** Whether one of the three database operations of an upsert that
    starts at operation [n] fails: the [SELECT], or else the
    [INSERT OR REPLACE], or else the commit. *)
Definition upsert_fails (db_fails : nat -> bool) (n : nat) : bool :=
  db_fails n || db_fails (S n) || db_fails (S (S n)).

(** ** The trace of a crawl *)

(** The steps of the trace the claims on the orchestrator speak of:
    resolutions and upserts. *)
Definition is_crawl_event (e : event) : bool :=
  match e with
  | EvResolved _ _ | EvUpsert _ _ _ _ => true
  | _ => false
  end.

Definition crawl_events (tr : list event) : list event :=
  filter is_crawl_event tr.

(** ** What a run of the crawler does, by what the site answers *)

Section CrawlSpec.

Variable urljoin : string -> string -> result string.
Variable http : nat -> string -> Crawl.http_outcome.

(** What the detail resolver makes of the answer to its request: the
    link of the page, when the status is 200 and [urljoin] accepts the
    reference. *)
Definition resolution (o : Crawl.http_outcome) : option string :=
  match o with
  | Crawl.TransportError _ => None
  | Crawl.HttpResponse status_code document =>
      if (status_code =? 200)%Z
      then match Crawl.pdf_link_of urljoin document with
           | Ok pdf => pdf
           | Raise _ => None
           end
      else None
  end.

(** What the detail resolver prints: the exception of the request, or
    the one of [urljoin]. *)
Definition resolution_log (o : Crawl.http_outcome) : list event :=
  match o with
  | Crawl.TransportError e => [EvPrint (LogPdfExtractionFailed e)]
  | Crawl.HttpResponse status_code document =>
      if (status_code =? 200)%Z
      then match Crawl.pdf_link_of urljoin document with
           | Ok _ => []
           | Raise e => [EvPrint (LogPdfExtractionFailed e)]
           end
      else []
  end.

(** The world after one request and the steps [evs]. *)
Definition after_request (w : World) (evs : list event) : World :=
  mkWorld (S (net_clock w)) (db_clock w) (view w) (durable w) (trace w ++ evs).

(** The entry an item adds to the saved list, and the steps it adds to
    the trace, by what its resolution returned. *)
Definition saved_for (yr : Z) (it : Crawl.item) (r : option string)
  : list Crawl.saved :=
  match r with
  | Some p => if PyStr.truthy p then [Crawl.mkSaved it p yr] else []
  | None => []
  end.

Definition events_for (yr : Z) (it : Crawl.item) (r : option string)
  : list event :=
  EvResolved (Crawl.detail_url it) r ::
  match r with
  | Some p =>
      if PyStr.truthy p
      then [EvUpsert (Crawl.detail_url it) (Crawl.doc_date it) p yr]
      else []
  | None => []
  end.

(** The resolutions of the entries of a page, the first of them being
    the [n]-th request of the run: every entry costs one request. *)
Fixpoint resolutions (n : nat) (items : list Crawl.item) : list (option string) :=
  match items with
  | [] => []
  | it :: rest =>
      resolution (http n (Crawl.detail_url it)) :: resolutions (S n) rest
  end.

(** What a page adds to the saved list and to the trace, its first
    detail request being the [n]-th request of the run. *)
Definition page_saved (yr : Z) (n : nat) (items : list Crawl.item)
  : list Crawl.saved :=
  flat_map (fun ir => saved_for yr (fst ir) (snd ir))
           (combine items (resolutions n items)).

Definition page_events (yr : Z) (n : nat) (items : list Crawl.item)
  : list event :=
  flat_map (fun ir => events_for yr (fst ir) (snd ir))
           (combine items (resolutions n items)).

(** The page a listing request yields: none when the transport fails or
    the status is an error (400 to 599). *)
Definition listing_fetch (o : Crawl.http_outcome) : option Soup.node :=
  match o with
  | Crawl.TransportError _ => None
  | Crawl.HttpResponse status_code document =>
      if ((400 <=? status_code) && (status_code <? 600))%Z then None
      else Some document
  end.

(** The listing page of [page], its request being the [n]-th request of
    the run. *)
Definition listing_page (base_url : string) (yr page : Z) (n : nat)
  : option Soup.node :=
  listing_fetch (http n (Crawl.listing_url base_url page yr)).

(** The three conditions that end the crawl of a year, for the page
    whose listing request is the [n]-th request of the run: the page
    could not be fetched; the parser returned no entry; the pagination
    resolver returned no URL, or a URL without the marker of a page
    path. *)
Definition fetch_fails (base_url : string) (yr page : Z) (n : nat) : Prop :=
  listing_page base_url yr page n = None.

Definition zero_entries (base_url : string) (yr page : Z) (n : nat) : Prop :=
  exists soup,
    listing_page base_url yr page n = Some soup /\
    Crawl.get_detail_pages_from_listing urljoin soup = Ok [].

Definition has_page_marker (u : string) : Prop :=
  exists before after, u = before +++ "page/" +++ after.

Definition no_next_with_marker (base_url : string) (yr page : Z) (n : nat)
  : Prop :=
  exists soup next_url,
    listing_page base_url yr page n = Some soup /\
    Crawl.get_next_page_url urljoin soup (Crawl.listing_url base_url page yr)
    = Ok next_url /\
    forall u, next_url = Some u -> ~ has_page_marker u.

(** The resolver returned a URL with the marker. *)
Definition next_with_marker (base_url : string) (yr page : Z) (n : nat)
  : Prop :=
  exists soup u,
    listing_page base_url yr page n = Some soup /\
    Crawl.get_next_page_url urljoin soup (Crawl.listing_url base_url page yr)
    = Ok (Some u) /\
    has_page_marker u.

(** The two calls of the turn that no [try] covers: the parser raises
    [e] on the page, or it returns entries and the pagination resolver
    raises [e]. *)
Definition parser_raises (base_url : string) (yr page : Z) (n : nat) (e : exn)
  : Prop :=
  exists soup,
    listing_page base_url yr page n = Some soup /\
    Crawl.get_detail_pages_from_listing urljoin soup = Raise e.

Definition some_entries (base_url : string) (yr page : Z) (n : nat) : Prop :=
  exists soup it items,
    listing_page base_url yr page n = Some soup /\
    Crawl.get_detail_pages_from_listing urljoin soup = Ok (it :: items).

Definition resolver_raises (base_url : string) (yr page : Z) (n : nat) (e : exn)
  : Prop :=
  exists soup,
    listing_page base_url yr page n = Some soup /\
    Crawl.get_next_page_url urljoin soup (Crawl.listing_url base_url page yr)
    = Raise e.

(** The entries of the page: those the parser returns. *)
Definition page_items (base_url : string) (yr page : Z) (n : nat)
  : list Crawl.item :=
  match listing_page base_url yr page n with
  | Some soup =>
      match Crawl.get_detail_pages_from_listing urljoin soup with
      | Ok items => items
      | Raise _ => []
      end
  | None => []
  end.

(** How the turn for the page ends: it stops the loop, moves to the
    next page, or raises. *)
Definition page_outcome (base_url : string) (yr page : Z) (n : nat)
  : result Crawl.step_outcome :=
  let url := Crawl.listing_url base_url page yr in
  match listing_page base_url yr page n with
  | None => Ok (Crawl.Stop Crawl.FetchFailed)
  | Some soup =>
      match Crawl.get_detail_pages_from_listing urljoin soup with
      | Raise e => Raise e
      | Ok [] => Ok (Crawl.Stop Crawl.EmptyPage)
      | Ok (_ :: _) =>
          match Crawl.get_next_page_url urljoin soup url with
          | Raise e => Raise e
          | Ok next_url =>
              if Crawl.valid_next next_url
              then Ok Crawl.Advance
              else Ok (Crawl.Stop Crawl.NoNextPage)
          end
      end
  end.

(** The entries the crawl of a year handles, each with what its
    resolution returned, over at most [fuel] pages from [page] on, the
    listing request of [page] being the [n]-th request of the run. *)
Fixpoint year_entries (fuel : nat) (base_url : string) (yr page : Z) (n : nat)
  : list (Crawl.item * option string) :=
  match fuel with
  | O => []
  | S fuel' =>
      let items := page_items base_url yr page n in
      combine items (resolutions (S n) items) ++
      match page_outcome base_url yr page n with
      | Ok Crawl.Advance =>
          year_entries fuel' base_url yr (page + 1)%Z (S (List.length items + n))
      | _ => []
      end
  end.

(** Whether the loop ends, without an exception, within [fuel] pages. *)
Fixpoint year_ends (fuel : nat) (base_url : string) (yr page : Z) (n : nat)
  : bool :=
  match fuel with
  | O => false
  | S fuel' =>
      match page_outcome base_url yr page n with
      | Ok Crawl.Advance =>
          year_ends fuel' base_url yr (page + 1)%Z
                    (S (List.length (page_items base_url yr page n) + n))
      | Ok (Crawl.Stop _) => true
      | Raise _ => false
      end
  end.

(** The exception that ends the crawl of the year within [fuel] pages,
    if one does. *)
Fixpoint year_raises (fuel : nat) (base_url : string) (yr page : Z) (n : nat)
  : option exn :=
  match fuel with
  | O => None
  | S fuel' =>
      match page_outcome base_url yr page n with
      | Ok Crawl.Advance =>
          year_raises fuel' base_url yr (page + 1)%Z
                      (S (List.length (page_items base_url yr page n) + n))
      | Ok (Crawl.Stop _) => None
      | Raise e => Some e
      end
  end.

(** What [scrape_year] returns, given the list it has built: the
    exception, or the list when the loop has ended, or nothing when the
    bound on the pages is reached. *)
Definition year_result (fuel : nat) (base_url : string) (yr page : Z) (n : nat)
    (pdfs : list Crawl.saved) : result (option (list Crawl.saved)) :=
  match year_raises fuel base_url yr page n with
  | Some e => Raise e
  | None =>
      Ok (if year_ends fuel base_url yr page n then Some pdfs else None)
  end.

Definition saved_of_entries (yr : Z) (es : list (Crawl.item * option string))
  : list Crawl.saved :=
  flat_map (fun ir => saved_for yr (fst ir) (snd ir)) es.

Definition events_of_entries (yr : Z) (es : list (Crawl.item * option string))
  : list event :=
  flat_map (fun ir => events_for yr (fst ir) (snd ir)) es.

End CrawlSpec.

(** What a turn returns, by how it ends. *)
Definition turn_result (o : result Crawl.step_outcome) (pdfs : list Crawl.saved)
  : result (Crawl.step_outcome * list Crawl.saved) :=
  match o with
  | Ok outcome => Ok (outcome, pdfs)
  | Raise e => Raise e
  end.

(** ** The detail resolver *)

(** [a] is the first element below [doc], in document order, that
    satisfies [p]. *)
Definition first_match (p : Soup.node -> bool) (doc a : Soup.node) : Prop :=
  exists before after,
    Soup.descendants doc = before ++ a :: after /\
    p a = true /\
    Forall (fun x => p x = false) before.

(** No element below [doc] satisfies [p]. *)
Definition no_match (p : Soup.node -> bool) (doc : Soup.node) : Prop :=
  forall x, In x (Soup.descendants doc) -> p x = false.

(** The anchor the two heuristics of the resolver select, in their
    order: the first anchor marked as a download, or, when there is
    none, the first anchor whose string contains "Download document". *)
Definition selected_anchor (doc a : Soup.node) : Prop :=
  first_match Crawl.is_download_link doc a \/
  (no_match Crawl.is_download_link doc /\
   first_match Crawl.says_download_document doc a).

(** The claim as the specification words it: the resolver returns a URL
    as soon as some anchor of the fetched page matches one of the two
    heuristics and has a non-empty [href]. *)
Definition resolves_whenever_some_anchor_matches : Prop :=
  forall (urljoin : string -> string -> result string)
         (http : nat -> string -> Crawl.http_outcome)
         (detail_url : string) (w : World) (doc a : Soup.node) (href : string),
    http (net_clock w) detail_url = Crawl.HttpResponse 200 doc ->
    In a (Soup.descendants doc) ->
    Crawl.is_download_link a = true \/ Crawl.says_download_document a = true ->
    Soup.get "href" a = Some href ->
    href <> "" ->
    exists u,
      fst (Crawl.get_direct_pdf_url urljoin http detail_url w) = Ok (Some u).

(** A detail page whose first anchor is marked as a download and has no
    [href], followed by an anchor that says "Download document" and
    links to the file. *)
Definition page_with_bare_download_anchor : Soup.node :=
  Soup.Tag "[document]" [] []
    [ Soup.Tag "a" [] [("download", "")] [Soup.Text "Save"];
      Soup.Tag "a" [] [("href", "/files/memo.pdf")]
               [Soup.Text "Download document"] ].

(** The [ValueError] of [urljoin] on a bracketed host that is not
    closed. *)
Definition invalid_ipv6_url : exn := Exception "ValueError: Invalid IPv6 URL".

(** References that start with a slash, joined to a site; a reference
    that opens a bracketed host and does not close it is refused, as the
    library refuses it. *)
Definition join_absolute_path (base url : string) : result string :=
  if String.prefix "//[" url && negb (PyStr.contains "]" url)
  then Raise invalid_ipv6_url
  else Ok (base +++ url).

(** ** The loop over the pages of a year *)

(** The detail pages whose resolution the trace records, in order. *)
Definition resolved_urls (tr : list event) : list string :=
  flat_map (fun e => match e with EvResolved u _ => [u] | _ => [] end) tr.

(** ** What a year saves *)

(** What the orchestrator does with an entry by what its resolution
    returned: the resolution, then one upsert when it returned a URL. *)
Definition steps_of_entry (yr : Z) (ir : Crawl.item * option string)
  : list event :=
  EvResolved (Crawl.detail_url (fst ir)) (snd ir) ::
  match snd ir with
  | Some pdf =>
      [EvUpsert (Crawl.detail_url (fst ir)) (Crawl.doc_date (fst ir)) pdf yr]
  | None => []
  end.

(** What an entry adds to the saved list. *)
Definition saved_of_entry (yr : Z) (ir : Crawl.item * option string)
  : list Crawl.saved :=
  match snd ir with
  | Some pdf => [Crawl.mkSaved (fst ir) pdf yr]
  | None => []
  end.

(** The upsert call the orchestrator makes for an entry: none when the
    resolution returned [None], and otherwise the call with the entry's
    detail URL, its date, the PDF URL returned and the year of the
    crawl. *)
Definition upsert_of_entry (yr : Z) (ir : Crawl.item * option string)
  : list call :=
  match snd ir with
  | Some pdf =>
      [mkCall (Crawl.detail_url (fst ir)) (Some (Crawl.doc_date (fst ir)))
              (Some pdf) (Some yr)]
  | None => []
  end.

(** [urljoin] never answers with the empty string when the reference is
    not empty: a joined URL has at least the scheme of one of its two
    arguments. *)
Definition joins_to_nonempty (urljoin : string -> string -> result string) : Prop :=
  forall href u, href <> "" -> urljoin Crawl.ACLU href = Ok u -> u <> "".

(** The URLs the resolver returns are not empty. *)
Definition url_or_none (r : option string) : Prop :=
  forall p, r = Some p -> PyStr.truthy p = true.

Definition search_url : string :=
  "https://www.aclu.org/foia-collections/nsa-documents-search".

Definition card (href title date : string) : Soup.node :=
  Soup.Tag "a" ["document-listing-card"] [("href", href)]
    [ Soup.Tag "div" ["is-size-4"] [] [Soup.Text title];
      Soup.Tag "div" [] [] [Soup.Text ("Document Date: " +++ date)] ].

Definition first_page : Soup.node :=
  Soup.Tag "[document]" [] []
    [ card "/documents/memo-a" "Memo A" "May 1, 2013";
      card "/documents/memo-b" "Memo B" "June 2, 2013";
      Soup.Tag "nav" ["page-numbers"] []
        [ Soup.Tag "span" ["page-numbers"; "current"] [] [Soup.Text "1"];
          Soup.Tag "a" ["page-numbers"] [("href", "/x/page/2")] [Soup.Text "2"];
          Soup.Tag "a" ["next"; "page-numbers"]
                   [("href", "/foia-collections/nsa-documents-search/page/2")]
                   [Soup.Text "Next"] ] ].

Definition empty_page : Soup.node :=
  Soup.Tag "[document]" [] [] [Soup.Tag "p" [] [] [Soup.Text "No results"]].

Definition detail_page (file : string) : Soup.node :=
  Soup.Tag "[document]" [] []
    [ Soup.Tag "a" [] [("download", ""); ("href", file)]
               [Soup.Text "Download document"] ].

(** A site that answers by the URL alone. *)
Definition two_entry_site (n : nat) (url : string) : Crawl.http_outcome :=
  if String.eqb url (Crawl.listing_url search_url 1 2013)
  then Crawl.HttpResponse 200 first_page
  else if String.eqb url (Crawl.listing_url search_url 2 2013)
  then Crawl.HttpResponse 200 empty_page
  else if String.eqb url "https://www.aclu.org/documents/memo-a"
  then Crawl.HttpResponse 200 (detail_page "/files/memo-a.pdf")
  else if String.eqb url "https://www.aclu.org/documents/memo-b"
  then Crawl.HttpResponse 200 (detail_page "/files/memo-b.pdf")
  else Crawl.HttpResponse 404 empty_page.

Definition memo_a : Crawl.item :=
  Crawl.mkItem "https://www.aclu.org/documents/memo-a" "Memo A" "May 1, 2013".

Definition memo_b : Crawl.item :=
  Crawl.mkItem "https://www.aclu.org/documents/memo-b" "Memo B" "June 2, 2013".

(** The rows the file holds for a year. *)
Definition rows_of_year (yr : Z) (t : Store.table) : list Store.row :=
  filter (fun r => match Store.Year_From_URL r with
                   | Some y => (y =? yr)%Z
                   | None => false
                   end) t.

(** A database whose every operation fails. *)
Definition always_fails : nat -> bool := fun _ => true.

(** A site with one document and no second page. *)
Definition one_entry_site (n : nat) (url : string) : Crawl.http_outcome :=
  if String.eqb url (Crawl.listing_url search_url 1 2013)
  then Crawl.HttpResponse 200
         (Soup.Tag "[document]" [] []
            [card "/documents/memo-a" "Memo A" "May 1, 2013"])
  else if String.eqb url "https://www.aclu.org/documents/memo-a"
  then Crawl.HttpResponse 200 (detail_page "/files/memo-a.pdf")
  else Crawl.HttpResponse 404 empty_page.

(** ** The pagination fallback *)

(** A listing page with page numbers and no explicit link to the next
    page: the first page is the current one. *)
Definition page_without_next_link : Soup.node :=
  Soup.Tag "[document]" [] []
    [ card "/documents/memo-a" "Memo A" "May 1, 2013";
      Soup.Tag "span" ["page-numbers"; "current"] [] [Soup.Text "1"];
      Soup.Tag "a" ["page-numbers"]
               [("href", "/foia-collections/nsa-documents-search/page/2")]
               [Soup.Text "2"] ].

(** The characters of a printed integer: digits and the minus sign. *)
Definition is_sign_or_digit (c : ascii) : bool :=
  PyStr.is_digit c || Ascii.eqb c "-"%char.

(** ** The listing parser *)

(** The strings below a tag, content by content. *)
Definition strings_from (c : Soup.node) : list string :=
  match c with
  | Soup.Text s => [s]
  | Soup.Tag _ _ _ _ => Soup.strings c
  end.

(** A card has a link when its [href] is present and not empty. *)
Definition has_href (card : Soup.node) : bool :=
  PyStr.truthy_opt (Soup.get "href" card).

(** What the entry made of a card holds. *)
Definition entry_of_card (urljoin : string -> string -> result string)
    (card : Soup.node) (it : Crawl.item) : Prop :=
  (exists href,
     Soup.get "href" card = Some href /\ href <> "" /\
     urljoin Crawl.ACLU href = Ok (Crawl.detail_url it)) /\
  (forall title_div,
     first_match (Soup.sel "div" "is-size-4") card title_div ->
     Crawl.title it = Soup.get_text_strip title_div) /\
  (no_match (Soup.sel "div" "is-size-4") card ->
     Crawl.title it = "Unknown Title") /\
  (Forall (fun s => PyStr.contains "Document Date:" s = false)
          (Soup.strings card) ->
     Crawl.doc_date it = "Unknown Date") /\
  (forall parent,
     Soup.find_string_parent (PyStr.contains "Document Date:") card
     = Some parent ->
     Crawl.doc_date it
     = PyStr.strip (PyStr.replace "Document Date:" "" (Soup.get_text parent)) /\
     (forall rest,
        Soup.get_text parent = "Document Date:" +++ rest ->
        PyStr.contains "Document Date:" rest = false ->
        Crawl.doc_date it = PyStr.strip rest)).

(** The claim as the specification words it: one entry for every
    document card of the page. *)
Definition one_entry_per_card : Prop :=
  forall (urljoin : string -> string -> result string) (soup : Soup.node),
  exists items,
    Crawl.get_detail_pages_from_listing urljoin soup = Ok items /\
    List.length items = List.length (Crawl.document_cards soup).

(** [urljoin] accepts the link of the card. *)
Definition link_accepted (urljoin : string -> string -> result string)
    (card : Soup.node) : Prop :=
  exists href u,
    Soup.get "href" card = Some href /\ urljoin Crawl.ACLU href = Ok u.

(** [urljoin] raises [e] on the link of the card. *)
Definition link_refused (urljoin : string -> string -> result string)
    (card : Soup.node) (e : exn) : Prop :=
  exists href,
    Soup.get "href" card = Some href /\ urljoin Crawl.ACLU href = Raise e.

(** A listing page whose first card has a link [urljoin] refuses. *)
Definition page_with_malformed_link : Soup.node :=
  Soup.Tag "[document]" [] []
    [ card "//[x" "Memo X" "May 1, 2013";
      card "/documents/memo-a" "Memo A" "May 1, 2013" ].

(** A listing page whose second card has no [href]. *)
Definition page_with_unlinked_card : Soup.node :=
  Soup.Tag "[document]" [] []
    [ card "/documents/memo-a" "Memo A" "May 1, 2013";
      Soup.Tag "a" ["document-listing-card"] []
        [ Soup.Tag "div" ["is-size-4"] [] [Soup.Text "Memo B"] ] ].

(** ** The download stage *)

Definition rowid_of (x : Download.fetched) : Z := fst (fst x).

Definition year_of (x : Download.fetched) : option Z := snd x.







(** The action is an attempt to transfer the row's PDF to the row's
    destination. *)
Definition attempts_transfer (sha1 : string -> string) (out : string)
    (x : Download.fetched) (a : Download.action) : Prop :=
  a = Download.Transferred (rowid_of x) (snd (fst x))
                           (Download.dest_path_of sha1 out x) \/
  exists e,
    a = Download.TransferFailed (rowid_of x) (snd (fst x))
                                (Download.dest_path_of sha1 out x) e.

(** The file system when the destination of a row is looked up: the
    directory of the row's year has been created. *)
Definition with_year_dir (out : string) (x : Download.fetched)
    (fs : Download.filesystem) : Download.filesystem :=
  let year_dir := Download.path_join out (Download.year_str (year_of x)) in
  if Download.path_exists fs year_dir then fs else year_dir :: fs.

(** The rows [main] works on, in the order it works on them. *)
Definition processed (t : Store.table) (include_duplicates : bool)
  : list Download.fetched :=
  Download.sort_rows (Download.load_rows t include_duplicates).


(** A table with a row of the year zero before a row of the year 5. *)
Definition table_with_year_zero : Store.table :=
  [ Store.mkRow 1 "https://www.aclu.org/documents/a" (Some "undated")
                (Some "https://www.aclu.org/files/a.pdf") (Some "No") (Some 0%Z);
    Store.mkRow 2 "https://www.aclu.org/documents/b" (Some "undated")
                (Some "https://www.aclu.org/files/b.pdf") (Some "No") (Some 5%Z) ].


(** The flags [insert_into_db] writes, and the default of the column. *)
Definition flag_in_domain (r : Store.row) : Prop :=
  Store.Duplicate r = None \/ Store.Duplicate r = Some "No" \/
  Store.Duplicate r = Some "Yes".

(** ** The year of a path *)

Section YearTokens.

(** The classes of the characters beyond ASCII. *)
Variable uc : string -> PyStr.uclass.

(** A word character: a letter, a digit or the underscore.  In ASCII
    these are A to Z, a to z, 0 to 9 and the underscore; beyond ASCII,
    the characters classed as alphanumeric, the decimal digits among
    them.  A lone surrogate is none. *)
Definition word_char (u : PyStr.uchar) : bool :=
  match u with
  | PyStr.Plain c =>
      let n := nat_of_ascii c in
      (((65 <=? n) && (n <=? 90)) || ((97 <=? n) && (n <=? 122)) ||
       ((48 <=? n) && (n <=? 57)) || (n =? 95))%nat
  | PyStr.Wide b =>
      match uc b with
      | PyStr.Alnum => true
      | PyStr.Decimal _ => true
      | PyStr.Blank => false
      | PyStr.Other => false
      end
  | PyStr.Stray _ => false
  end.

(** The value of a character that is a decimal digit: 0 to 9 in ASCII,
    and the decimal digits of the other scripts. *)
Definition digit_of (u : PyStr.uchar) : option Z :=
  match u with
  | PyStr.Plain c =>
      let n := nat_of_ascii c in
      if ((48 <=? n) && (n <=? 57))%nat then Some (Z.of_nat (n - 48)) else None
  | PyStr.Wide b =>
      match uc b with
      | PyStr.Decimal d => Some (PyStr.digit_number d)
      | _ => None
      end
  | PyStr.Stray _ => None
  end.

(** The text before a position ends with a word character; [after_word]
    tells it for the empty text. *)
Fixpoint ends_with_word (after_word : bool) (pre : list PyStr.uchar) : bool :=
  match pre with
  | [] => after_word
  | u :: r => ends_with_word (word_char u) r
  end.

Definition starts_with_word (post : list PyStr.uchar) : bool :=
  match post with
  | [] => false
  | u :: _ => word_char u
  end.

(** [tok] is four decimal digits that read [y], a year from 1900 to
    2099; its first two digits are written in ASCII (the last two may
    be decimal digits of any script). *)
Definition year_token (tok : list PyStr.uchar) (y : Z) : Prop :=
  exists c1 c2 u3 u4 d1 d2 d3 d4,
    tok = [PyStr.Plain c1; PyStr.Plain c2; u3; u4] /\
    digit_of (PyStr.Plain c1) = Some d1 /\
    digit_of (PyStr.Plain c2) = Some d2 /\
    digit_of u3 = Some d3 /\ digit_of u4 = Some d4 /\
    y = (1000 * d1 + 100 * d2 + 10 * d3 + d4)%Z /\
    (1900 <= y <= 2099)%Z.

(** The segment [seg] holds the year token [tok] between the characters
    [pre] and [post], and the token is bounded: no word character
    touches it. *)
Definition year_at (seg : string) (pre tok post : list PyStr.uchar) (y : Z)
  : Prop :=
  PyStr.chars seg = pre ++ tok ++ post /\
  year_token tok y /\
  ends_with_word false pre = false /\
  starts_with_word post = false.

Definition has_year_token (seg : string) : Prop :=
  exists pre tok post y, year_at seg pre tok post y.

(** The leftmost year token of a segment. *)
Definition first_year_of (seg : string) (y : Z) : Prop :=
  exists pre tok post,
    year_at seg pre tok post y /\
    forall pre' tok' post' y',
      year_at seg pre' tok' post' y' -> List.length pre <= List.length pre'.

(** An occurrence of a bounded year token in the characters [s], the
    character before [s] being a word character or not. *)
Definition occurs (after_word : bool) (s pre tok post : list PyStr.uchar)
  : Prop :=
  s = pre ++ tok ++ post /\
  (exists y, year_token tok y) /\
  starts_with_word post = false /\
  ends_with_word after_word pre = false.

End YearTokens.

(** The text given by the codes of its bytes. *)
Definition text_of_bytes (codes : list nat) : string :=
  string_of_list_ascii (map ascii_of_nat codes).

Definition digit_of_nat (n : nat) : PyStr.digit :=
  match n with
  | 0 => PyStr.D0 | 1 => PyStr.D1 | 2 => PyStr.D2 | 3 => PyStr.D3
  | 4 => PyStr.D4 | 5 => PyStr.D5 | 6 => PyStr.D6 | 7 => PyStr.D7
  | 8 => PyStr.D8 | _ => PyStr.D9
  end.

(** The classes of some characters beyond ASCII: the letter e with an
    acute accent (U+00E9, bytes C3 A9) is alphanumeric, so is the
    superscript two (U+00B2, bytes C2 B2); the fullwidth digits (U+FF10
    to U+FF19, bytes EF BC 90 to EF BC 99) are decimal digits; the
    no-break space (U+00A0, bytes C2 A0) is a blank. *)
Definition sample_classes (b : string) : PyStr.uclass :=
  match map nat_of_ascii (list_ascii_of_string b) with
  | [195; 169] => PyStr.Alnum
  | [194; 178] => PyStr.Alnum
  | [194; 160] => PyStr.Blank
  | [239; 188; n] =>
      if ((144 <=? n) && (n <=? 153))%nat
      then PyStr.Decimal (digit_of_nat (n - 144))
      else PyStr.Other
  | _ => PyStr.Other
  end.

(** Names with characters beyond ASCII: [e-acute 2013], [20] and the
    fullwidth digits 1 and 3, the fullwidth digits 2 0 1 3, and [2013]
    after a byte that is no UTF-8. *)
Definition accented_2013 : string := text_of_bytes [195; 169] +++ "2013".

Definition half_fullwidth_2013 : string :=
  "20" +++ text_of_bytes [239; 188; 145; 239; 188; 147].

Definition fullwidth_2013 : string :=
  text_of_bytes [239; 188; 146; 239; 188; 144; 239; 188; 145; 239; 188; 147].

Definition stray_2013 : string := text_of_bytes [233] +++ "2013".

(** ** The names of the downloaded files *)

(** The characters [sanitize_filename] takes out of a name: the two
    path separators and the marks that start a query and a fragment. *)
Definition is_reserved (c : ascii) : bool :=
  Ascii.eqb c "/"%char || Ascii.eqb c (ascii_of_nat 92) ||
  Ascii.eqb c "?"%char || Ascii.eqb c "#"%char.

(** A name made of other characters only. *)
Definition plain_name (s : string) : bool :=
  PyStr.forallb_str (fun c => negb (is_reserved c)) s.

(** A printable ASCII character other than the space. *)
Definition is_graphic (c : ascii) : bool :=
  ((32 <? nat_of_ascii c) && (nat_of_ascii c <? 127))%nat.

(** A name of printable characters none of which is taken out. *)
Definition graphic_plain_name (s : string) : bool :=
  PyStr.forallb_str (fun c => is_graphic c && negb (is_reserved c)) s.

(** The action of a run that finds the file of a row in place. *)
Definition skip_of (sha1 : string -> string) (out : string)
    (x : Download.fetched) : Download.action :=
  Download.Skipped (rowid_of x) (Download.dest_path_of sha1 out x).

(** A table whose rows all have a link, and the file system after its
    files were fetched into [downloads]. *)
Definition fetched_table : Store.table :=
  [ Store.mkRow 1 "https://www.aclu.org/documents/a" (Some "May 1, 2013")
                (Some "https://www.aclu.org/files/a.pdf") (Some "No") (Some 2013%Z);
    Store.mkRow 2 "https://www.aclu.org/documents/b" (Some "undated")
                (Some "https://www.aclu.org/files/b.pdf") (Some "No") None ].

Definition constant_digest (url : string) : string :=
  "0a1b2c3d4e5f60718293a4b5c6d7e8f901234567".

Definition fetched_files : Download.filesystem :=
  [ "downloads/2013/1_0a1b2c3d_a.pdf"; "downloads/unknown/2_0a1b2c3d_b.pdf";
    "downloads/2013"; "downloads/unknown" ].

(** A transfer program that is never to be run. *)
Definition no_transfer (fs : Download.filesystem) (url dest : string)
  : Download.filesystem + exn :=
  inr (Exception "aria2c was run").

(** The file system after the turn of the loop for a row. *)
Definition fs_after_row (sha1 : string -> string)
    (aria2c : Download.filesystem -> string -> string ->
              Download.filesystem + exn)
    (force : bool) (out : string) (x : Download.fetched)
    (fs : Download.filesystem) : Download.filesystem :=
  let fs1 := with_year_dir out x fs in
  let dest := Download.dest_path_of sha1 out x in
  if Download.path_exists fs1 dest && negb force then fs1
  else match aria2c fs1 (snd (fst x)) dest with
       | inl fs2 => fs2
       | inr _ => fs1
       end.

(** A transfer program that removes nothing: what existed before it ran
    exists after. *)
Definition keeps_paths
    (aria2c : Download.filesystem -> string -> string ->
              Download.filesystem + exn) : Prop :=
  forall fs url dest fs',
    aria2c fs url dest = inl fs' ->
    forall p, Download.path_exists fs p = true ->
              Download.path_exists fs' p = true.

(** The directory of the year of a row. *)
Definition year_dir_of (out : string) (x : Download.fetched) : string :=
  Download.path_join out (Download.year_str (year_of x)).

(** A transfer program that writes the file it is asked for. *)
Definition writes_file (fs : Download.filesystem) (url dest : string)
  : Download.filesystem + exn :=
  inl (dest :: fs).

(** The characters of a quoted path: unreserved characters, slashes and
    percent signs. *)
Definition is_link_char (c : ascii) : bool :=
  Url.always_safe c || Ascii.eqb c "/"%char || Ascii.eqb c "%"%char.

(** ** The pagination resolver *)

(** The page number an element gives: its text read as an integer, when
    the element is marked [current] or is a [span]. *)
Definition gives_page (a : Soup.node) : option Z :=
  match PyStr.to_int (Soup.get_text_strip a) with
  | Some page_num =>
      if Soup.has_class "current" a || Soup.named "span" a
      then Some page_num else None
  | None => None
  end.

(** [a] is the last element of [l] that gives a page number. *)
Definition last_giving (l : list Soup.node) (a : Soup.node) (k : Z) : Prop :=
  exists before after,
    l = before ++ a :: after /\
    gives_page a = Some k /\
    Forall (fun b => gives_page b = None) after.

(** A listing page whose page numbers are all spans: the last number is
    taken for the current page. *)
Definition page_numbered_by_spans : Soup.node :=
  Soup.Tag "[document]" [] []
    [ Soup.Tag "span" ["page-numbers"; "current"] [] [Soup.Text "2"];
      Soup.Tag "span" ["page-numbers"; "dots"] [] [Soup.Text "..."];
      Soup.Tag "span" ["page-numbers"] [] [Soup.Text "9"] ].

(** ** The steps of a crawl and what it leaves in the store *)

(** The upsert call the orchestrator makes for a saved entry. *)
Definition call_of (s : Crawl.saved) : call :=
  mkCall (Crawl.detail_url (Crawl.saved_item s))
         (Some (Crawl.doc_date (Crawl.saved_item s)))
         (Some (Crawl.pdf_url s)) (Some (Crawl.year s)).

(** Two worlds agree on the database: the connection's view, the file,
    and the number of operations made. *)
Definition same_store (w1 w2 : World) : Prop :=
  db_clock w1 = db_clock w2 /\ view w1 = view w2 /\ durable w1 = durable w2.

(** The steps of a trace: everything but the lines printed. *)
Definition is_step (e : event) : bool :=
  match e with EvPrint _ => false | _ => true end.

Definition steps (tr : list event) : list event := filter is_step tr.

(** The steps an entry costs: the request of its detail page, its
    resolution, the upsert when the resolution returned a URL, and the
    pause that follows every entry. *)
Definition entry_steps (yr : Z) (ir : Crawl.item * option string) : list event :=
  EvRequest (Crawl.detail_url (fst ir)) ::
  events_for yr (fst ir) (snd ir) ++ [EvSleep].

Section CrawlSchedule.

Variable urljoin : string -> string -> result string.
Variable http : nat -> string -> Crawl.http_outcome.

(** The steps of the crawl of a year over at most [fuel] pages from
    [page] on, its listing request being the [n]-th request of the run:
    page after page, the request of the listing, the steps of its
    entries, and a pause before the next page. *)
Fixpoint year_steps (fuel : nat) (base_url : string) (yr page : Z) (n : nat)
  : list event :=
  match fuel with
  | O => []
  | S fuel' =>
      let items := page_items urljoin http base_url yr page n in
      EvRequest (Crawl.listing_url base_url page yr) ::
      flat_map (entry_steps yr)
               (combine items (resolutions urljoin http (S n) items)) ++
      match page_outcome urljoin http base_url yr page n with
      | Ok Crawl.Advance =>
          EvSleep ::
          year_steps fuel' base_url yr (page + 1)%Z (S (List.length items + n))
      | _ => []
      end
  end.

(** The number of requests made when the crawl of the year ends. *)
Fixpoint year_clock (fuel : nat) (base_url : string) (yr page : Z) (n : nat)
  : nat :=
  match fuel with
  | O => n
  | S fuel' =>
      let n' := S (List.length (page_items urljoin http base_url yr page n) + n) in
      match page_outcome urljoin http base_url yr page n with
      | Ok Crawl.Advance => year_clock fuel' base_url yr (page + 1)%Z n'
      | _ => n'
      end
  end.

(** What the loop over the years saves, year after year, as long as the
    crawl of each year ends within [fuel] pages. *)
Fixpoint years_saved (fuel : nat) (base_url : string) (years : list Z) (n : nat)
  : list Crawl.saved :=
  match years with
  | [] => []
  | yr :: rest =>
      saved_of_entries yr (year_entries urljoin http fuel base_url yr 1%Z n) ++
      if year_ends urljoin http fuel base_url yr 1%Z n
      then years_saved fuel base_url rest (year_clock fuel base_url yr 1%Z n)
      else []
  end.

Fixpoint years_end (fuel : nat) (base_url : string) (years : list Z) (n : nat)
  : bool :=
  match years with
  | [] => true
  | yr :: rest =>
      year_ends urljoin http fuel base_url yr 1%Z n &&
      years_end fuel base_url rest (year_clock fuel base_url yr 1%Z n)
  end.

(** The exception that ends the loop over the years, if one does: the
    one of the first year whose crawl raises. *)
Fixpoint years_raise (fuel : nat) (base_url : string) (years : list Z) (n : nat)
  : option exn :=
  match years with
  | [] => None
  | yr :: rest =>
      match year_raises urljoin http fuel base_url yr 1%Z n with
      | Some e => Some e
      | None =>
          if year_ends urljoin http fuel base_url yr 1%Z n
          then years_raise fuel base_url rest (year_clock fuel base_url yr 1%Z n)
          else None
      end
  end.

(** How the loop over the years ends, with the total it has reached. *)
Definition years_result (fuel : nat) (base_url : string) (years : list Z)
    (n : nat) (total : Z) : result (option Z) :=
  match years_raise fuel base_url years n with
  | Some e => Raise e
  | None => Ok (if years_end fuel base_url years n then Some total else None)
  end.

End CrawlSchedule.

(** The upsert calls a trace records. *)
Definition upsert_calls (tr : list event) : list event :=
  filter (fun e => match e with EvUpsert _ _ _ _ => true | _ => false end) tr.

(** ** The invariants of the store *)

(** The primary key: no two rows for a page. *)
Definition unique_pages (t : Store.table) : Prop :=
  NoDup (map Store.Page t).

(** The rows are in the order of their rowids, all different. *)
Definition rowids_ascend (t : Store.table) : Prop :=
  StronglySorted Z.lt (map Store.rowid t).

(** A row without NULL, with a link that is not empty and a flag that
    is 'Yes' or 'No'. *)
Definition complete_row (r : Store.row) : Prop :=
  (exists d, Store.Document_Date r = Some d) /\
  Download.has_link r = true /\
  (Store.Duplicate r = Some "No" \/ Store.Duplicate r = Some "Yes") /\
  (exists y, Store.Year_From_URL r = Some y).



(** A database whose commits fail: the third operation of every
    upsert. *)
Definition commits_fail (n : nat) : bool := (n mod 3 =? 2)%nat.

(** The table an upsert call leaves when its statement runs. *)
Definition written (c : call) (t : Store.table) : Store.table :=
  Store.insert_or_replace (call_page c) (call_date c) (call_pdf c)
                          (Some (flag_for (call_page c) t)) (call_year c) t.

(** The calls the crawler makes: a date, a link that is not empty, and
    a year. *)
Definition crawler_call (c : call) : Prop :=
  (exists d, call_date c = Some d) /\
  (exists p, call_pdf c = Some p /\ p <> "") /\
  (exists y, call_year c = Some y).

(** The page a saved entry is stored under. *)
Definition page_of (s : Crawl.saved) : string :=
  Crawl.detail_url (Crawl.saved_item s).

(** The first memo of the scenario, found under 2014 by an earlier
    crawl. *)
Definition found_memo_a_2014 : call :=
  mkCall "https://www.aclu.org/documents/memo-a" (Some "May 1, 2013")
         (Some "https://www.aclu.org/files/memo-a.pdf") (Some 2014%Z).

(** ** The index *)

(** Whether a path lies in a folder named [.files]. *)
Definition in_dot_files (p : Index.found) : bool :=
  existsb (String.eqb ".files") (Index.parts p).

(** The paths the scan lists: files outside the folders named
    [.files]. *)
Definition listed (p : Index.found) : bool :=
  negb (in_dot_files p) && Index.is_file p.

(** The year of a path: the year [extract_year_from_path] returns. *)
Definition year_of_parts (uc : string -> PyStr.uclass) (parts : list string)
  : option Z :=
  match Index.extract_year_from_path uc parts with
  | Ok year => year
  | Raise _ => None
  end.

(** The entry of [pdf_files] for a path. *)
Definition pdf_of (uc : string -> PyStr.uclass) (p : Index.found) : Index.pdf :=
  Index.mkPdf (PyStr.join "/" (Index.parts p))
              (List.last (Index.parts p) EmptyString)
              (year_of_parts uc (Index.parts p)).

(** The files of a directory's groups, of all the groups, and of the
    sections of the index. *)
Definition files_in (d : Index.year_groups) : list Index.pdf :=
  flat_map snd d.

Definition all_files (g : Index.groups) : list Index.pdf :=
  flat_map (fun td => files_in (snd td)) g.

Definition files_of_sections
    (sections : list (string * list (string * list Index.pdf)))
  : list Index.pdf :=
  flat_map (fun ds => flat_map snd (snd ds)) sections.

(** The years among the keys of a directory, and whether files without
    a year are among them. *)
Definition years_in (keys : list Index.year_key) : list Z :=
  flat_map (fun k => match k with
                     | Index.YearKey y => [y]
                     | Index.NoYear => []
                     end) keys.

Definition is_no_year (k : Index.year_key) : bool :=
  match k with Index.NoYear => true | Index.YearKey _ => false end.

(** The keys in the order of the sections: the years by their number,
    then the key of the files without a year. *)
Definition ordered_keys (keys : list Index.year_key) : list Index.year_key :=
  map Index.YearKey (PyList.sorted Z.ltb (years_in keys)) ++
  (if existsb is_no_year keys then [Index.NoYear] else []).

(** The files grouped under a key. *)
Definition files_under (k : Index.year_key) (d : Index.year_groups)
  : list Index.pdf :=
  match PyList.get Index.year_key_eqb k d with
  | Some files => files
  | None => []
  end.

(** The year section of a key. *)
Definition section_of (d : Index.year_groups) (k : Index.year_key)
  : string * list Index.pdf :=
  (Index.display k, Index.sort_files (files_under k d)).

(** The groups [group_files] builds are well formed: no directory and,
    in a directory, no key comes twice; no group is empty; and every
    file is under its top directory and the key of its year. *)
Definition groups_well_formed (g : Index.groups) : Prop :=
  NoDup (map fst g) /\
  Forall (fun td =>
            NoDup (map fst (snd td)) /\
            Forall (fun kf =>
                      snd kf <> [] /\
                      Forall (fun f =>
                                Index.top_dir f = fst td /\
                                Index.year_key_of (Index.pdf_year f) = fst kf)
                             (snd kf))
                   (snd td))
         g.

(** The order of the files of a year section: by lower-cased path. *)
Definition path_le (a b : Index.pdf) : Prop :=
  String.leb (PyStr.lower (Index.pdf_path a)) (PyStr.lower (Index.pdf_path b))
  = true.

(** What the tree of the example holds. *)
Definition example_tree : list Index.found :=
  [ Index.mkFound ["downloads"; "2014"; "b.pdf"] true;
    Index.mkFound ["downloads"; "2013"; "B.pdf"] true;
    Index.mkFound ["downloads"; "2013"; "a.pdf"] true;
    Index.mkFound ["downloads"; "unknown"; "z.pdf"] true;
    Index.mkFound ["page.files"; "2013"; "q.pdf"] true;
    Index.mkFound [".files"; "2013"; "q.pdf"] true;
    Index.mkFound ["scans.pdf"] false;
    Index.mkFound ["root.pdf"] true ].

(** The path of every file can be encoded as UTF-8: none holds a byte
    that is part of no well-formed sequence. *)
Definition paths_encodable (files : list Index.pdf) : Prop :=
  Forall (fun f => PyStr.encodable (Index.pdf_path f) = true) files.

(** A tree with a file whose name is Latin-1, not UTF-8: the byte E9
    and [.pdf]. *)
Definition tree_with_a_latin1_name : list Index.found :=
  [ Index.mkFound ["downloads"; "2013"; "a.pdf"] true;
    Index.mkFound ["downloads"; "2013"; text_of_bytes [233] +++ ".pdf"] true ].

(** The groups of a directory. *)
Definition groups_under (top : string) (g : Index.groups) : Index.year_groups :=
  match PyList.get String.eqb top g with
  | Some d => d
  | None => []
  end.

(** The section of a directory: its name and its year sections. *)
Definition directory_section (g : Index.groups) (top : string)
  : string * list (string * list Index.pdf) :=
  (top, map (section_of (groups_under top g))
            (ordered_keys (map fst (groups_under top g)))).

(** The year of a listed file, when it has one, is a year from 1900 to
    2099. *)
Definition plausible_year (f : Index.pdf) : Prop :=
  Index.pdf_year f = None \/
  exists y, Index.pdf_year f = Some y /\ (1900 <= y <= 2099)%Z.

(** The names of the year sections of a directory are in order: the
    years by their number, each once, then [No Year Folder] when there
    are files without a year. *)
Definition year_names_in_order (names : list string) : Prop :=
  exists (ys : list Z) (tail : list string),
    names = map PyStr.of_Z ys ++ tail /\
    StronglySorted Z.lt ys /\
    (tail = [] \/ tail = [Index.no_year_folder]).

(** ** From one stage to the next *)

(** The row is flagged 'No'. *)
Definition flagged_no (r : Store.row) : bool :=
  match Store.Duplicate r with
  | Some d => String.eqb d "No"
  | None => false
  end.

(** A text without a slash: one segment of a path. *)
Definition one_segment (s : string) : bool :=
  PyStr.forallb_str (fun a => negb (Ascii.eqb a "/"%char)) s.

(** The destination an action of the download loop bears. *)
Definition action_dest (a : Download.action) : string :=
  match a with
  | Download.Skipped _ dest => dest
  | Download.Transferred _ _ dest => dest
  | Download.TransferFailed _ _ dest _ => dest
  end.

(** The years the index recognises. *)
Definition index_years : list Z := map Z.of_nat (seq 1900 200).

(** A printed year is found again in its own text. *)
Definition year_reads_back (uc : string -> PyStr.uclass) (y : Z) : bool :=
  match Index.extract_year_from_path uc [PyStr.of_Z y] with
  | Ok (Some y') => (y' =? y)%Z
  | _ => false
  end.

(** ** The query of the fallback address *)

(** A field of a query: its text is [name=value]. *)
Definition field_text (nv : string * string) : string :=
  fst nv +++ "=" +++ snd nv.

(** The query made of some fields. *)
Definition query_of (fields : list (string * string)) : string :=
  PyStr.join "&" (map field_text fields).

(** A field written with unreserved characters only, whose value is not
    empty. *)
Definition plain_field (nv : string * string) : Prop :=
  PyStr.forallb_str Url.always_safe (fst nv) = true /\
  PyStr.forallb_str Url.always_safe (snd nv) = true /\
  snd nv <> "".

(** ** Tactics *)

Ltac unfold_monad :=
  unfold bind, ret, raise, try_except, print, sleep, emit in *.

Ltac crawl_simpl :=
  cbn -[Crawl.process_items Crawl.get_detail_pages_from_listing
        Crawl.get_next_page_url Crawl.valid_next].

(* ================================================================== *)
(** * Properties of the record store                                   *)
(* ================================================================== *)

Lemma filter_filter_neg :
  forall (A : Type) (p : A -> bool) (l : list A),
    filter p (filter (fun x => negb (p x)) l) = [].
Proof.
  induction l as [|x l IH]; simpl; auto.
  destruct (p x) eqn:E; simpl; auto.
  rewrite E. exact IH.
Qed.

Lemma filter_filter_implied :
  forall (A : Type) (p q : A -> bool) (l : list A),
    (forall x, p x = true -> q x = true) ->
    filter p (filter q l) = filter p l.
Proof.
  intros A p q l H. induction l as [|x l IH]; simpl; auto.
  destruct (q x) eqn:Eq; simpl.
  - rewrite IH. reflexivity.
  - destruct (p x) eqn:Ep; auto.
    apply H in Ep. congruence.
Qed.

Lemma rows_for_insert_same :
  forall k d p f y t,
    Store.rows_for k (Store.insert_or_replace k d p f y t) =
    [Store.mkRow (Store.next_rowid t) k d p f y].
Proof.
  intros. unfold Store.rows_for, Store.insert_or_replace, Store.rows_except.
  rewrite filter_app, filter_filter_neg. simpl.
  rewrite String.eqb_refl. reflexivity.
Qed.

Lemma rows_for_insert_other :
  forall k k' d p f y t,
    k <> k' ->
    Store.rows_for k (Store.insert_or_replace k' d p f y t) = Store.rows_for k t.
Proof.
  intros k k' d p f y t Hne.
  unfold Store.rows_for, Store.insert_or_replace, Store.rows_except.
  rewrite filter_app. simpl.
  assert (E : String.eqb k' k = false) by (apply String.eqb_neq; congruence).
  rewrite E, app_nil_r.
  apply filter_filter_implied.
  intros r Hr. apply String.eqb_eq in Hr. rewrite Hr.
  apply negb_true_iff, String.eqb_neq. exact Hne.
Qed.

Lemma select_exists_rows_for :
  forall k t, Store.select_exists k t = negb (match Store.rows_for k t with
                                               | [] => true | _ => false end).
Proof.
  intros k t. unfold Store.select_exists, Store.rows_for.
  induction t as [|r t IH]; simpl; auto.
  destruct (String.eqb (Store.Page r) k); simpl; auto.
Qed.

Lemma insert_into_db_no_faults :
  forall c w,
    Sqlite.insert_into_db Sqlite.no_faults (call_page c) (call_date c)
                          (call_pdf c) (call_year c) w
    = (Ok tt, upsert_ok c w).
Proof.
  intros c w. unfold upsert_ok, flag_for.
  unfold Sqlite.insert_into_db, try_except, bind, Sqlite.execute_select,
    Sqlite.execute_insert_or_replace, Sqlite.commit, Sqlite.no_faults,
    Sqlite.tick_db, print, emit.
  simpl. reflexivity.
Qed.

Lemma upsert_all_no_faults :
  forall calls w,
    upsert_all Sqlite.no_faults calls w
    = (Ok tt, fold_left (fun w c => upsert_ok c w) calls w).
Proof.
  induction calls as [|c calls IH]; intros w; simpl.
  - reflexivity.
  - unfold bind. rewrite insert_into_db_no_faults. apply IH.
Qed.

Lemma upsert_ok_exists_same :
  forall c w, Store.select_exists (call_page c) (view (upsert_ok c w)) = true.
Proof.
  intros c w. rewrite select_exists_rows_for. simpl.
  rewrite rows_for_insert_same. reflexivity.
Qed.

Lemma upsert_ok_exists_other :
  forall c w k,
    k <> call_page c ->
    Store.select_exists k (view (upsert_ok c w)) = Store.select_exists k (view w).
Proof.
  intros c w k Hne. rewrite !select_exists_rows_for. simpl.
  rewrite rows_for_insert_other by exact Hne. reflexivity.
Qed.

(** Whether a key is present after a run of calls: it was there or one
    of the calls wrote it. *)
Lemma upserts_exists :
  forall calls w k,
    Store.select_exists k (view (fold_left (fun w c => upsert_ok c w) calls w))
    = Store.select_exists k (view w)
      || existsb (String.eqb k) (map call_page calls).
Proof.
  induction calls as [|c calls IH]; intros w k; simpl.
  - rewrite orb_false_r. reflexivity.
  - rewrite IH. destruct (String.eqb k (call_page c)) eqn:E.
    + apply String.eqb_eq in E. subst k.
      rewrite upsert_ok_exists_same. simpl. rewrite orb_true_r. reflexivity.
    + apply String.eqb_neq in E.
      rewrite upsert_ok_exists_other by exact E. reflexivity.
Qed.

(** Calls on other keys leave the rows of a key alone. *)
Lemma upserts_rows_for_other :
  forall calls w k,
    ~ In k (map call_page calls) ->
    Store.rows_for k (view (fold_left (fun w c => upsert_ok c w) calls w))
    = Store.rows_for k (view w).
Proof.
  induction calls as [|c calls IH]; intros w k Hnot; simpl in *.
  - reflexivity.
  - rewrite IH by tauto. apply rows_for_insert_other. intro E. apply Hnot. auto.
Qed.

(** Every successful upsert commits: the file holds what the connection
    sees. *)
Lemma upserts_durable :
  forall calls c w,
    let w' := fold_left (fun w c => upsert_ok c w) calls (upsert_ok c w) in
    durable w' = view w'.
Proof.
  induction calls as [|c' calls IH]; intros c w; simpl.
  - reflexivity.
  - apply IH.
Qed.

(** C1.  Run any sequence of upsert calls on a connection whose engine
    does not fail, and take a key together with the last call that
    writes it.  Afterwards the store holds exactly one row for the key,
    in the connection's view and in the committed file; its date, PDF
    link and year are the arguments of that last call; and its flag is
    'No' when that call was the first upsert of the key (the key was not
    in the store and no earlier call wrote it) and 'Yes' otherwise,
    whatever the values written. *)
Theorem upsert_one_row_last_write_wins :
  forall (earlier later : list call) (c : call) (w : World),
    ~ In (call_page c) (map call_page later) ->
    let run := upsert_all Sqlite.no_faults (earlier ++ c :: later) w in
    let first :=
      negb (Store.select_exists (call_page c) (view w)) &&
      negb (existsb (String.eqb (call_page c)) (map call_page earlier)) in
    fst run = Ok tt /\
    exists r,
      Store.rows_for (call_page c) (view (snd run)) = [r] /\
      Store.rows_for (call_page c) (durable (snd run)) = [r] /\
      Store.Page r = call_page c /\
      Store.payload r = (call_date c, call_pdf c, call_year c) /\
      Store.Duplicate r = Some (if first then "No" else "Yes")%string.
Proof.
  intros earlier later c w Hlast run first. subst run first.
  rewrite upsert_all_no_faults. simpl. split; [reflexivity|].
  rewrite fold_left_app. simpl.
  set (w1 := fold_left (fun w c => upsert_ok c w) earlier w).
  rewrite (upserts_durable later c w1).
  rewrite upserts_rows_for_other by exact Hlast.
  simpl. rewrite rows_for_insert_same.
  eexists. repeat split.
  simpl. unfold flag_for. subst w1. rewrite upserts_exists.
  rewrite <- negb_orb.
  destruct (Store.select_exists (call_page c) (view w)
            || existsb (String.eqb (call_page c)) (map call_page earlier));
    reflexivity.
Qed.

(** The scenario of the specification: a page found under 2013 and
    again under 2014 is stored once, with the year 2014 and the flag
    'Yes'. *)
Lemma upsert_one_row_last_write_wins_scenario :
  exists r,
    Store.rows_for "https://www.aclu.org/documents/a"
      (view (snd (upsert_all Sqlite.no_faults [found_2013; found_2014]
                             empty_world))) = [r] /\
    Store.Year_From_URL r = Some 2014%Z /\
    Store.Duplicate r = Some "Yes"%string.
Proof.
  destruct (@upsert_one_row_last_write_wins [found_2013] [] found_2014
              empty_world (fun H : In _ [] => H))
    as [_ [r [Hv [_ [_ [Hp Hd]]]]]].
  exists r. split; [exact Hv|]. split.
  - unfold Store.payload in Hp. injection Hp as _ _ Hy. exact Hy.
  - exact Hd.
Defined.

(* ================================================================== *)
(** * Properties of the store layer under failures                     *)
(* ================================================================== *)

Lemma rows_except_insert :
  forall k d p f y t,
    Store.rows_except k (Store.insert_or_replace k d p f y t)
    = Store.rows_except k t.
Proof.
  intros. unfold Store.insert_or_replace, Store.rows_except.
  rewrite filter_app. simpl. rewrite String.eqb_refl. simpl.
  rewrite app_nil_r. apply filter_filter_implied. auto.
Qed.

(** Every run of [insert_into_db] ends normally, prints one line, and
    leaves the clock of the network and the rows of the other keys as
    they were; a run in which an operation fails commits nothing. *)
Lemma insert_into_db_run :
  forall db_fails k d p y w,
  exists line w',
    Sqlite.insert_into_db db_fails k d p y w = (Ok tt, w') /\
    net_clock w' = net_clock w /\
    trace w' = trace w ++ [EvPrint line] /\
    Store.rows_except k (view w') = Store.rows_except k (view w) /\
    (upsert_fails db_fails (db_clock w) = true ->
       line = LogDbInsertFailed Sqlite.operational_error /\
       durable w' = durable w) /\
    (upsert_fails db_fails (db_clock w) = false ->
       w' = upsert_ok (mkCall k d p y) w).
Proof.
  intros db_fails k d p y w.
  unfold Sqlite.insert_into_db, upsert_fails, upsert_ok, flag_for.
  unfold_monad.
  unfold Sqlite.execute_select, Sqlite.execute_insert_or_replace,
    Sqlite.commit, Sqlite.tick_db.
  simpl.
  destruct (db_fails (db_clock w)) eqn:E1; simpl.
  { do 2 eexists. repeat split; try reflexivity; intros; discriminate. }
  destruct (db_fails (S (db_clock w))) eqn:E2; simpl.
  { do 2 eexists. repeat split; try reflexivity; intros; discriminate. }
  destruct (db_fails (S (S (db_clock w)))) eqn:E3; simpl.
  { do 2 eexists. repeat split; try reflexivity; try (intros; discriminate).
    simpl. apply rows_except_insert. }
  do 2 eexists. repeat split; try reflexivity; try (intros; discriminate).
  simpl. apply rows_except_insert.
Qed.

(* ================================================================== *)
(** * Properties of the crawler                                        *)
(* ================================================================== *)

Section CrawlProps.

Variable urljoin : string -> string -> result string.
Variable http : nat -> string -> Crawl.http_outcome.

Lemma get_direct_pdf_url_run :
  forall detail_url w,
    Crawl.get_direct_pdf_url urljoin http detail_url w
    = (Ok (resolution urljoin (http (net_clock w) detail_url)),
       after_request w (EvRequest detail_url
                        :: resolution_log urljoin (http (net_clock w) detail_url))).
Proof.
  intros detail_url w.
  unfold Crawl.get_direct_pdf_url, Crawl.requests_get, after_request,
    resolution, resolution_log.
  unfold_monad. unfold lift.
  destruct (http (net_clock w) detail_url) as [e|st doc]; simpl.
  - rewrite <- app_assoc. reflexivity.
  - destruct (st =? 200)%Z; simpl; [|reflexivity].
    destruct (Crawl.pdf_link_of urljoin doc) as [r|e]; simpl.
    + reflexivity.
    + rewrite <- app_assoc. reflexivity.
Qed.

Lemma resolutions_length :
  forall items n, List.length (resolutions urljoin http n items) = List.length items.
Proof. induction items; intros; simpl; auto. Qed.

Lemma crawl_events_app :
  forall a b, crawl_events (a ++ b) = crawl_events a ++ crawl_events b.
Proof. intros. apply filter_app. Qed.

Lemma crawl_events_resolution_log :
  forall o, crawl_events (resolution_log urljoin o) = [].
Proof.
  intros [e|st doc]; simpl; [reflexivity|].
  destruct (st =? 200)%Z; [|reflexivity].
  destruct (Crawl.pdf_link_of urljoin doc); reflexivity.
Qed.

Lemma process_item_run :
  forall db_fails yr it all_pdfs w,
    let r := resolution urljoin (http (net_clock w) (Crawl.detail_url it)) in
    exists w',
      Crawl.process_item urljoin http db_fails yr it all_pdfs w
      = (Ok (all_pdfs ++ saved_for yr it r), w') /\
      net_clock w' = S (net_clock w) /\
      (exists new, trace w' = trace w ++ new /\
                   crawl_events new = events_for yr it r).
Proof.
  intros db_fails yr it all_pdfs w r.
  unfold Crawl.process_item.
  unfold bind at 1. rewrite get_direct_pdf_url_run. fold r.
  set (w1 := after_request w _).
  unfold saved_for, events_for.
  destruct r as [p|].
  - destruct (PyStr.truthy p) eqn:Tp.
    + unfold_monad.
      match goal with
      | |- context [Sqlite.insert_into_db ?f ?k ?d ?q ?y ?w0] =>
          destruct (insert_into_db_run f k d q y w0)
            as (line & w2 & Hrun & Hnet & Htr & _)
      end.
      rewrite Hrun. simpl in *.
      eexists. split; [reflexivity|]. simpl. split; [exact Hnet|].
      rewrite Htr. simpl.
      eexists. split.
      * rewrite <- !app_assoc. reflexivity.
      * rewrite !crawl_events_app.
        change (crawl_events (EvRequest ?u :: ?l)) with (crawl_events l).
        rewrite crawl_events_resolution_log. reflexivity.
    + unfold_monad. simpl.
      eexists. split; [rewrite app_nil_r; reflexivity|]. simpl.
      split; [reflexivity|].
      eexists. split.
      * rewrite <- !app_assoc. reflexivity.
      * rewrite !crawl_events_app.
        change (crawl_events (EvRequest ?u :: ?l)) with (crawl_events l).
        rewrite crawl_events_resolution_log. reflexivity.
  - unfold_monad. simpl.
    eexists. split; [rewrite app_nil_r; reflexivity|]. simpl.
    split; [reflexivity|].
    eexists. split.
    + rewrite <- !app_assoc. reflexivity.
    + rewrite !crawl_events_app.
      change (crawl_events (EvRequest ?u :: ?l)) with (crawl_events l).
      rewrite crawl_events_resolution_log. reflexivity.
Qed.

Lemma process_items_run :
  forall db_fails yr items all_pdfs w,
    exists w',
      Crawl.process_items urljoin http db_fails yr items all_pdfs w
      = (Ok (all_pdfs ++ page_saved urljoin http yr (net_clock w) items), w') /\
      net_clock w' = List.length items + net_clock w /\
      (exists new, trace w' = trace w ++ new /\
                   crawl_events new = page_events urljoin http yr (net_clock w) items).
Proof.
  intros db_fails yr items. induction items as [|it rest IH]; intros all_pdfs w.
  - exists w. unfold page_saved, page_events. simpl. unfold ret.
    rewrite app_nil_r. split; [reflexivity|]. split; [reflexivity|].
    exists []. rewrite app_nil_r. split; reflexivity.
  - destruct (process_item_run db_fails yr it all_pdfs w)
      as (w1 & Hrun & Hnet & new1 & Htr1 & Hev1).
    destruct (IH (all_pdfs ++ saved_for yr it
                    (resolution urljoin (http (net_clock w) (Crawl.detail_url it)))) w1)
      as (w2 & Hrun2 & Hnet2 & new2 & Htr2 & Hev2).
    exists w2. simpl. unfold bind. rewrite Hrun, Hrun2.
    rewrite Hnet in *. unfold page_saved, page_events in *. simpl.
    rewrite <- app_assoc. split; [reflexivity|].
    split; [rewrite Hnet2; lia|].
    exists (new1 ++ new2). split.
    + rewrite Htr2, Htr1, app_assoc. reflexivity.
    + rewrite crawl_events_app, Hev1, Hev2. reflexivity.
Qed.

Lemma page_step_run :
  forall db_fails base_url yr page all_pdfs w,
    let n := net_clock w in
    exists w',
      Crawl.page_step urljoin http db_fails base_url yr page all_pdfs w
      = (turn_result (page_outcome urljoin http base_url yr page n)
           (all_pdfs ++ page_saved urljoin http yr (S n)
                          (page_items urljoin http base_url yr page n)),
         w') /\
      net_clock w' = S (List.length (page_items urljoin http base_url yr page n) + n) /\
      (exists new,
         trace w' = trace w ++ new /\
         crawl_events new
         = page_events urljoin http yr (S n)
             (page_items urljoin http base_url yr page n)).
Proof.
  intros db_fails base_url yr page all_pdfs w n. subst n.
  unfold Crawl.page_step, page_outcome, page_items, listing_page, listing_fetch,
    Crawl.requests_get, Crawl.raise_for_status, turn_result.
  set (url := Crawl.listing_url base_url page yr).
  unfold_monad. unfold lift.
  destruct (http (net_clock w) url) as [e|st doc]; crawl_simpl.
  - eexists. unfold page_saved, page_events. simpl. rewrite app_nil_r.
    split; [reflexivity|]. simpl. split; [reflexivity|].
    eexists. split; [rewrite <- app_assoc; reflexivity|]. reflexivity.
  - destruct ((400 <=? st) && (st <? 600))%Z; crawl_simpl.
    + eexists. unfold page_saved, page_events. simpl. rewrite app_nil_r.
      split; [reflexivity|]. simpl. split; [reflexivity|].
      eexists. split; [rewrite <- app_assoc; reflexivity|]. reflexivity.
    + destruct (Crawl.get_detail_pages_from_listing urljoin doc)
        as [[|it items]|e] eqn:Eitems.
      * eexists. unfold page_saved, page_events. simpl. rewrite app_nil_r.
        split; [reflexivity|]. simpl. split; [reflexivity|].
        eexists. split; [rewrite <- app_assoc; reflexivity|]. reflexivity.
      * match goal with
        | |- context [Crawl.process_items _ _ ?f ?y ?l ?a ?w0] =>
            destruct (process_items_run f y l a w0)
              as (w1 & Hrun & Hnet & new & Htr & Hev)
        end.
        rewrite Hrun. simpl in Hnet, Htr, Hev.
        destruct (Crawl.get_next_page_url urljoin doc url) as [next_url|e].
        -- destruct (Crawl.valid_next next_url).
           ++ eexists. split; [reflexivity|]. simpl. split; [lia|].
              eexists. split.
              ** rewrite Htr, <- !app_assoc. reflexivity.
              ** rewrite !crawl_events_app. simpl. rewrite Hev, app_nil_r.
                 reflexivity.
           ++ eexists. split; [reflexivity|]. simpl. split; [lia|].
              eexists. split.
              ** rewrite Htr, <- !app_assoc. reflexivity.
              ** rewrite !crawl_events_app. simpl. rewrite Hev, app_nil_r.
                 reflexivity.
        -- eexists. split; [reflexivity|]. simpl. split; [lia|].
           eexists. split.
           ++ rewrite Htr, <- !app_assoc. reflexivity.
           ++ rewrite !crawl_events_app. simpl. rewrite Hev. reflexivity.
      * eexists. unfold page_saved, page_events. simpl.
        split; [reflexivity|]. simpl. split; [reflexivity|].
        eexists. split; [reflexivity|]. reflexivity.
Qed.

Lemma scrape_loop_run :
  forall db_fails fuel base_url yr page all_pdfs w,
    let n := net_clock w in
    let entries := year_entries urljoin http fuel base_url yr page n in
    exists w' new,
      Crawl.scrape_loop urljoin http db_fails fuel base_url yr page all_pdfs w
      = (year_result urljoin http fuel base_url yr page n
           (all_pdfs ++ saved_of_entries yr entries), w') /\
      trace w' = trace w ++ new /\
      crawl_events new = events_of_entries yr entries.
Proof.
  intros db_fails fuel. induction fuel as [|fuel IH];
    intros base_url yr page all_pdfs w n entries; subst n entries.
  - exists w, []. unfold year_result. simpl. unfold ret. rewrite app_nil_r. auto.
  - destruct (page_step_run db_fails base_url yr page all_pdfs w)
      as (w1 & Hrun & Hnet & new1 & Htr1 & Hev1).
    unfold year_result.
    cbn [Crawl.scrape_loop year_entries year_ends year_raises]. unfold bind at 1.
    rewrite Hrun.
    unfold saved_of_entries, events_of_entries.
    rewrite !flat_map_app.
    fold (page_saved urljoin http yr (S (net_clock w))
            (page_items urljoin http base_url yr page (net_clock w))).
    fold (page_events urljoin http yr (S (net_clock w))
            (page_items urljoin http base_url yr page (net_clock w))).
    destruct (page_outcome urljoin http base_url yr page (net_clock w))
      as [[why|]|e] eqn:Eout; cbn [turn_result].
    + exists w1, new1. unfold ret. simpl. rewrite !app_nil_r.
      split; [reflexivity|]. split; assumption.
    + destruct (IH base_url yr (page + 1)%Z
                  (all_pdfs ++ page_saved urljoin http yr (S (net_clock w))
                                 (page_items urljoin http base_url yr page (net_clock w))) w1)
        as (w2 & new2 & Hrun2 & Htr2 & Hev2).
      rewrite Hnet in Hrun2, Hev2.
      exists w2, (new1 ++ new2). rewrite Hrun2.
      split.
      * unfold year_result, saved_of_entries. rewrite <- app_assoc. reflexivity.
      * split.
        -- rewrite Htr2, Htr1, app_assoc. reflexivity.
        -- rewrite crawl_events_app, Hev1, Hev2. reflexivity.
    + exists w1, new1. simpl. rewrite !app_nil_r.
      split; [reflexivity|]. split; assumption.
Qed.

End CrawlProps.

(* ================================================================== *)
(** * The detail resolver                                              *)
(* ================================================================== *)

Lemma hd_filter_none :
  forall (A : Type) (p : A -> bool) (l : list A),
    hd_error (filter p l) = None <-> (forall x, In x l -> p x = false).
Proof.
  intros A p l. induction l as [|y l IH]; simpl.
  - split; [intros _ x []|reflexivity].
  - destruct (p y) eqn:E; simpl.
    + split; [discriminate|]. intros H. specialize (H y (or_introl eq_refl)).
      congruence.
    + rewrite IH. split.
      * intros H x [->|Hin]; auto.
      * intros H x Hin. apply H. auto.
Qed.

Lemma hd_filter_some :
  forall (A : Type) (p : A -> bool) (l : list A) (a : A),
    hd_error (filter p l) = Some a <->
    exists before after,
      l = before ++ a :: after /\ p a = true /\
      Forall (fun x => p x = false) before.
Proof.
  intros A p l a. induction l as [|y l IH]; simpl.
  - split; [discriminate|]. intros (b & c & H & _). destruct b; discriminate.
  - destruct (p y) eqn:E; simpl.
    + split.
      * intros H. injection H as ->. exists [], l. auto.
      * intros (b & c & H & Hp & Hb). destruct b as [|z b]; simpl in H.
        -- injection H as -> _. reflexivity.
        -- injection H as -> _. inversion Hb; subst. congruence.
    + rewrite IH. split.
      * intros (b & c & -> & Hp & Hb). exists (y :: b), c. auto.
      * intros (b & c & H & Hp & Hb). destruct b as [|z b]; simpl in H.
        -- injection H as -> _. congruence.
        -- injection H as -> ->. inversion Hb; subst. exists b, c. auto.
Qed.

Lemma find_first_match :
  forall p doc a, Soup.find p doc = Some a <-> first_match p doc a.
Proof. intros. apply hd_filter_some. Qed.

Lemma find_no_match :
  forall p doc, Soup.find p doc = None <-> no_match p doc.
Proof. intros. apply hd_filter_none. Qed.

Lemma first_match_unique :
  forall p doc a b, first_match p doc a -> first_match p doc b -> a = b.
Proof.
  intros p doc a b Ha Hb. apply find_first_match in Ha, Hb. congruence.
Qed.

Lemma download_anchor_selected :
  forall doc a, Crawl.download_anchor doc = Some a <-> selected_anchor doc a.
Proof.
  intros doc a. unfold Crawl.download_anchor, selected_anchor.
  destruct (Soup.find Crawl.is_download_link doc) as [b|] eqn:E.
  - apply find_first_match in E. split.
    + intros H. injection H as <-. left. exact E.
    + intros [H|[Hn _]].
      * f_equal. eapply first_match_unique; eauto.
      * destruct E as (l1 & l2 & Hd & Hp & _).
        rewrite (Hn b) in Hp; [discriminate|].
        rewrite Hd. apply in_or_app. right. left. reflexivity.
  - apply find_no_match in E. rewrite find_first_match. split.
    + intros H. right. auto.
    + intros [(l1 & l2 & Hd & Hp & _)|[_ H]]; [|exact H].
      rewrite (E a) in Hp; [discriminate|].
      rewrite Hd. apply in_or_app. right. left. reflexivity.
Qed.

Lemma download_anchor_none :
  forall doc,
    Crawl.download_anchor doc = None <->
    no_match Crawl.is_download_link doc /\
    no_match Crawl.says_download_document doc.
Proof.
  intros doc. unfold Crawl.download_anchor.
  destruct (Soup.find Crawl.is_download_link doc) as [b|] eqn:E.
  - split; [discriminate|]. intros [H _]. apply find_no_match in H. congruence.
  - apply find_no_match in E. rewrite find_no_match. tauto.
Qed.

Lemma truthy_nonempty : forall s, PyStr.truthy s = true <-> s <> "".
Proof. intros [|c s]; simpl; split; congruence. Qed.

(** C3, the counterexample.  On that page the second heuristic matches
    an anchor with a non-empty [href], and the resolver returns [None]:
    the anchor the first heuristic finds is the one whose [href] is
    looked at. *)
Lemma resolver_misses_shadowed_anchor :
  ~ resolves_whenever_some_anchor_matches.
Proof.
  intros H.
  destruct (H join_absolute_path
              (fun _ _ => Crawl.HttpResponse 200 page_with_bare_download_anchor)
              "https://www.aclu.org/documents/memo" empty_world
              page_with_bare_download_anchor
              (Soup.Tag "a" [] [("href", "/files/memo.pdf")]
                        [Soup.Text "Download document"])
              "/files/memo.pdf")
    as [u Hu].
  - reflexivity.
  - simpl. auto.
  - right. reflexivity.
  - reflexivity.
  - discriminate.
  - vm_compute in Hu. discriminate.
Qed.

(** C3, as amended.  The resolver never raises: every run ends with a
    value.  When the request fails, or is answered with a status other
    than 200, the value is [None].  When it is answered with status 200,
    the value is decided by the one anchor the heuristics select (the
    first download-marked anchor, or else the first anchor whose string
    contains "Download document").  When the [href] of that anchor is
    not empty, the value is what [urljoin] makes of it: the joined URL,
    or [None] when [urljoin] raises on the reference, the exception
    being printed like the one of a failed request.  The value is
    [None] when the [href] is missing or empty, and when neither
    heuristic matches any anchor. *)
Theorem detail_resolution_total :
  forall (urljoin : string -> string -> result string)
         (http : nat -> string -> Crawl.http_outcome)
         (detail_url : string) (w : World),
  exists r w',
    Crawl.get_direct_pdf_url urljoin http detail_url w = (Ok r, w') /\
    match http (net_clock w) detail_url with
    | Crawl.TransportError e =>
        r = None /\
        trace w' = trace w ++ [EvRequest detail_url;
                               EvPrint (LogPdfExtractionFailed e)]
    | Crawl.HttpResponse status_code doc =>
        (status_code <> 200%Z -> r = None) /\
        (status_code = 200%Z ->
           (forall a href,
              selected_anchor doc a ->
              Soup.get "href" a = Some href -> href <> "" ->
              (forall u, urljoin Crawl.ACLU href = Ok u -> r = Some u) /\
              (forall e,
                 urljoin Crawl.ACLU href = Raise e ->
                 r = None /\
                 trace w' = trace w ++ [EvRequest detail_url;
                                        EvPrint (LogPdfExtractionFailed e)])) /\
           (forall a,
              selected_anchor doc a ->
              Soup.get "href" a = None \/ Soup.get "href" a = Some "" ->
              r = None) /\
           (no_match Crawl.is_download_link doc ->
            no_match Crawl.says_download_document doc ->
            r = None))
    end.
Proof.
  intros urljoin http detail_url w.
  rewrite get_direct_pdf_url_run. do 2 eexists. split; [reflexivity|].
  destruct (http (net_clock w) detail_url) as [e|st doc]; simpl;
    [split; reflexivity|].
  split.
  - intros Hst. apply Z.eqb_neq in Hst. rewrite Hst. reflexivity.
  - intros ->. rewrite Z.eqb_refl. unfold Crawl.pdf_link_of.
    split; [|split].
    + intros a href Ha Hh Hne. apply download_anchor_selected in Ha.
      rewrite Ha, Hh. apply truthy_nonempty in Hne. rewrite Hne.
      split.
      * intros u Hu. rewrite Hu. reflexivity.
      * intros e He. rewrite He. split; reflexivity.
    + intros a Ha Hh. apply download_anchor_selected in Ha. rewrite Ha.
      destruct Hh as [-> | ->]; reflexivity.
    + intros H1 H2.
      assert (E : Crawl.download_anchor doc = None)
        by (apply download_anchor_none; auto).
      rewrite E. reflexivity.
Qed.

(** The reference ["//[x"] on a detail page: the resolver prints the
    exception of [urljoin] and returns [None]. *)
Example resolver_contains_a_malformed_link :
  let page := Soup.Tag "[document]" [] []
                [ Soup.Tag "a" [] [("download", ""); ("href", "//[x")]
                           [Soup.Text "Download document"] ] in
  Crawl.get_direct_pdf_url join_absolute_path
    (fun _ _ => Crawl.HttpResponse 200 page)
    "https://www.aclu.org/documents/memo" empty_world
  = (Ok None,
     mkWorld 1 0 [] []
       [ EvRequest "https://www.aclu.org/documents/memo";
         EvPrint (LogPdfExtractionFailed invalid_ipv6_url) ]).
Proof. reflexivity. Qed.

(* ================================================================== *)
(** * The loop over the pages of a year                                *)
(* ================================================================== *)

Lemma resolved_urls_crawl_events :
  forall tr, resolved_urls (crawl_events tr) = resolved_urls tr.
Proof.
  induction tr as [|e tr IH]; simpl; auto.
  destruct e; simpl; rewrite ?IH; reflexivity.
Qed.

Lemma resolved_urls_page_events :
  forall urljoin http yr items n,
    resolved_urls (page_events urljoin http yr n items)
    = map Crawl.detail_url items.
Proof.
  intros urljoin http yr items. unfold page_events.
  induction items as [|it rest IH]; intros n; simpl; auto.
  unfold resolved_urls in *. rewrite flat_map_app, IH.
  unfold events_for. simpl.
  destruct (resolution urljoin (http n (Crawl.detail_url it))) as [p|];
    [destruct (PyStr.truthy p)|]; reflexivity.
Qed.

(** C9.  Whatever operations of the database fail, a call of
    [insert_into_db] ends normally (no exception reaches the caller),
    prints one line, and leaves the rows stored under every other key as
    they were; when an operation of the call fails, the line printed is
    the failure message and nothing is committed.  And the loop over the
    entries of a page ends normally having resolved every entry of the
    page, in order, whatever the database does. *)
Theorem store_failure_is_contained :
  forall (db_fails : nat -> bool) (page_url : string)
         (doc_date pdf_url : option string) (yr : option Z) (w : World),
    (exists line w',
       Sqlite.insert_into_db db_fails page_url doc_date pdf_url yr w
       = (Ok tt, w') /\
       trace w' = trace w ++ [EvPrint line] /\
       Store.rows_except page_url (view w')
       = Store.rows_except page_url (view w) /\
       Store.rows_except page_url (durable w')
       = Store.rows_except page_url
           (if upsert_fails db_fails (db_clock w) then durable w else view w) /\
       (upsert_fails db_fails (db_clock w) = true ->
          line = LogDbInsertFailed Sqlite.operational_error /\
          durable w' = durable w)) /\
    (forall urljoin http y items all_pdfs w0,
     exists pdfs w1 new,
       Crawl.process_items urljoin http db_fails y items all_pdfs w0
       = (Ok pdfs, w1) /\
       trace w1 = trace w0 ++ new /\
       resolved_urls new = map Crawl.detail_url items).
Proof.
  intros db_fails page_url doc_date pdf_url yr w. split.
  - destruct (insert_into_db_run db_fails page_url doc_date pdf_url yr w)
      as (line & w' & Hrun & _ & Htr & Hview & Hfail & Hok).
    exists line, w'.
    split; [exact Hrun|]. split; [exact Htr|]. split; [exact Hview|].
    split; [|exact Hfail].
    destruct (upsert_fails db_fails (db_clock w)) eqn:E.
    + destruct (Hfail eq_refl) as [_ ->]. reflexivity.
    + rewrite (Hok eq_refl). simpl. apply rows_except_insert.
  - intros urljoin http y items all_pdfs w0.
    destruct (process_items_run urljoin http db_fails y items all_pdfs w0)
      as (w1 & Hrun & _ & new & Htr & Hev).
    do 3 eexists. split; [exact Hrun|]. split; [exact Htr|].
    rewrite <- resolved_urls_crawl_events, Hev.
    apply resolved_urls_page_events.
Qed.

(* ================================================================== *)
(** * What a year saves                                                *)
(* ================================================================== *)

Lemma resolution_url_or_none :
  forall urljoin o, joins_to_nonempty urljoin -> url_or_none (resolution urljoin o).
Proof.
  intros urljoin o Hj p. unfold resolution, Crawl.pdf_link_of.
  destruct o as [e|st doc]; [discriminate|].
  destruct (st =? 200)%Z; [|discriminate].
  destruct (Crawl.download_anchor doc) as [a|]; [|discriminate].
  destruct (Soup.get "href" a) as [href|]; [|discriminate].
  destruct (PyStr.truthy href) eqn:E; [|discriminate].
  destruct (urljoin Crawl.ACLU href) as [u|e] eqn:Eu; [|discriminate].
  intros H. injection H as <-. apply truthy_nonempty.
  apply (Hj href u); [|exact Eu].
  apply truthy_nonempty. exact E.
Qed.

Lemma page_entries_url_or_none :
  forall urljoin http, joins_to_nonempty urljoin ->
  forall items n,
    Forall (fun ir => url_or_none (snd ir))
           (combine items (resolutions urljoin http n items)).
Proof.
  intros urljoin http Hj. induction items as [|it rest IH]; intros n; simpl.
  - constructor.
  - constructor; [apply resolution_url_or_none; exact Hj|apply IH].
Qed.

Lemma year_entries_url_or_none :
  forall urljoin http, joins_to_nonempty urljoin ->
  forall fuel base_url yr page n,
    Forall (fun ir => url_or_none (snd ir))
           (year_entries urljoin http fuel base_url yr page n).
Proof.
  intros urljoin http Hj. induction fuel as [|fuel IH]; intros; simpl.
  - constructor.
  - apply Forall_app. split; [apply page_entries_url_or_none; exact Hj|].
    destruct (page_outcome urljoin http base_url yr page n) as [[why|]|e];
      [constructor|apply IH|constructor].
Qed.

Lemma events_of_entries_steps :
  forall yr es,
    Forall (fun ir => url_or_none (snd ir)) es ->
    events_of_entries yr es = flat_map (steps_of_entry yr) es.
Proof.
  intros yr es H. unfold events_of_entries.
  induction H as [|[it r] es Hr _ IH]; simpl; auto.
  rewrite IH. unfold events_for, steps_of_entry. simpl in *.
  destruct r as [p|]; [rewrite (Hr p eq_refl)|]; reflexivity.
Qed.

Lemma saved_of_entries_each :
  forall yr es,
    Forall (fun ir => url_or_none (snd ir)) es ->
    saved_of_entries yr es = flat_map (saved_of_entry yr) es.
Proof.
  intros yr es H. unfold saved_of_entries.
  induction H as [|[it r] es Hr _ IH]; simpl; auto.
  rewrite IH. unfold saved_for, saved_of_entry. simpl in *.
  destruct r as [p|]; [rewrite (Hr p eq_refl)|]; reflexivity.
Qed.

Lemma join_absolute_path_nonempty : joins_to_nonempty join_absolute_path.
Proof.
  intros href u _ H. unfold join_absolute_path in H.
  destruct (String.prefix "//[" href && negb (PyStr.contains "]" href));
    [discriminate|].
  injection H as <-. discriminate.
Qed.

(** ** The count a year reports and the failures of the store *)

Lemma saved_for_length :
  forall yr es,
    List.length (saved_of_entries yr es)
    = List.length (filter (fun ir => PyStr.truthy_opt (snd ir)) es).
Proof.
  intros yr es. unfold saved_of_entries.
  induction es as [|[it r] es IH]; simpl; auto.
  rewrite length_app, IH. unfold saved_for. simpl.
  destruct r as [p|]; simpl; [destruct (PyStr.truthy p)|]; reflexivity.
Qed.

(** C10.  The list a year returns, and so the count reported for it, is
    a function of what the site answered alone: when the loop ends it
    holds one element for every entry whose resolution returned a
    (non-empty) URL, whichever database operations failed.  Two runs
    that differ only in the failures of the database return the same
    list (or end on the same exception of [urljoin]).  And the count can
    exceed what the store holds: with a database that always fails, the
    year of a site with one document reports one saved document while
    the file holds no row for it. *)
Theorem saved_count_ignores_store_failures :
  (forall (urljoin : string -> string -> result string)
          (http : nat -> string -> Crawl.http_outcome)
          (db_fails : nat -> bool) (fuel : nat) (base_url : string) (yr : Z)
          (w : World),
     let entries := year_entries urljoin http fuel base_url yr 1 (net_clock w) in
     exists w',
       Crawl.scrape_year urljoin http db_fails fuel base_url yr w
       = (match year_raises urljoin http fuel base_url yr 1 (net_clock w) with
          | Some e => Raise e
          | None =>
              Ok (if year_ends urljoin http fuel base_url yr 1 (net_clock w)
                  then Some (saved_of_entries yr entries)
                  else None)
          end, w') /\
       List.length (saved_of_entries yr entries)
       = List.length (filter (fun ir => PyStr.truthy_opt (snd ir)) entries)) /\
  (forall (urljoin : string -> string -> result string)
          (http : nat -> string -> Crawl.http_outcome)
          (db_fails1 db_fails2 : nat -> bool) (fuel : nat) (base_url : string)
          (yr : Z) (w1 w2 : World),
     net_clock w1 = net_clock w2 ->
     fst (Crawl.scrape_year urljoin http db_fails1 fuel base_url yr w1)
     = fst (Crawl.scrape_year urljoin http db_fails2 fuel base_url yr w2)) /\
  (exists pdfs w',
     Crawl.scrape_year join_absolute_path one_entry_site always_fails
                       1 search_url 2013 empty_world
     = (Ok (Some pdfs), w') /\
     List.length pdfs = 1 /\
     rows_of_year 2013 (durable w') = [] /\
     List.length (rows_of_year 2013 (durable w')) < List.length pdfs).
Proof.
  split; [|split].
  - intros urljoin http db_fails fuel base_url yr w entries.
    destruct (scrape_loop_run urljoin http db_fails fuel base_url yr 1 [] w)
      as (w' & new & Hrun & _).
    exists w'. split; [exact Hrun|]. apply saved_for_length.
  - intros urljoin http f1 f2 fuel base_url yr w1 w2 Hn.
    destruct (scrape_loop_run urljoin http f1 fuel base_url yr 1 [] w1)
      as (w1' & new1 & Hrun1 & _).
    destruct (scrape_loop_run urljoin http f2 fuel base_url yr 1 [] w2)
      as (w2' & new2 & Hrun2 & _).
    unfold Crawl.scrape_year. rewrite Hrun1, Hrun2, Hn. reflexivity.
  - do 2 eexists. split; [vm_compute; reflexivity|].
    split; [reflexivity|]. split; [reflexivity|]. simpl. lia.
Qed.

(* ================================================================== *)
(** * The listing parser                                               *)
(* ================================================================== *)

(** Induction on parse trees: the contents of a tag satisfy the
    property. *)
Lemma node_induction :
  forall P : Soup.node -> Prop,
    (forall s, P (Soup.Text s)) ->
    (forall name classes attrs contents,
        Forall P contents -> P (Soup.Tag name classes attrs contents)) ->
    forall n, P n.
Proof.
  intros P Htext Htag. fix IH 1. intros [s|name classes attrs contents].
  - apply Htext.
  - apply Htag. induction contents as [|c cs IHcs]; constructor.
    + apply IH.
    + exact IHcs.
Qed.

Lemma strings_tag :
  forall name classes attrs contents,
    Soup.strings (Soup.Tag name classes attrs contents)
    = flat_map strings_from contents.
Proof.
  intros name classes attrs contents. unfold Soup.strings. simpl.
  induction contents as [|c cs IH]; simpl; auto.
  rewrite flat_map_app, IH. destruct c; reflexivity.
Qed.

(** [find(string=p)] finds nothing exactly when no string below the
    node satisfies [p]. *)
Lemma find_string_parent_none :
  forall p n,
    Soup.find_string_parent p n = None <->
    Forall (fun s => p s = false) (Soup.strings n).
Proof.
  intros p n. induction n as [s|name classes attrs contents IH]
    using node_induction.
  - simpl. split; [constructor|reflexivity].
  - rewrite strings_tag. simpl.
    generalize (Soup.Tag name classes attrs contents) as parent. intros parent.
    induction IH as [|c cs Hc _ IHcs]; simpl.
    + split; [constructor|reflexivity].
    + rewrite Forall_app. destruct c as [s|nm cl at_ ct].
      * simpl. destruct (p s) eqn:E.
        -- split; [discriminate|]. intros [H _]. inversion H; congruence.
        -- rewrite IHcs. split; [intros H; split; [repeat constructor|]|tauto];
             assumption.
      * destruct (Soup.find_string_parent p (Soup.Tag nm cl at_ ct)) eqn:E.
        -- split; [discriminate|]. intros [H _]. apply Hc in H. discriminate.
        -- rewrite IHcs. simpl strings_from.
           destruct Hc as [Hc _]. specialize (Hc eq_refl). tauto.
Qed.

Lemma replace_skip :
  forall old new o rest,
    PyStr.replace_from old new (String.length o) (o +++ rest)
    = PyStr.replace_from old new 0 rest.
Proof.
  intros old new o rest. induction o as [|c o IH]; simpl.
  - destruct rest; reflexivity.
  - exact IH.
Qed.

Lemma prefix_append : forall a b, String.prefix a (a +++ b) = true.
Proof.
  induction a as [|c a IH]; intros b; simpl.
  - destruct b; reflexivity.
  - destruct (ascii_dec c c) as [_|Hne]; [apply IH|congruence].
Qed.

(** Replacing a label at the head of a text removes it. *)
Lemma replace_label_prefix :
  forall c o rest,
    PyStr.replace (String c o) "" (String c o +++ rest)
    = PyStr.replace (String c o) "" rest.
Proof.
  intros c o rest. unfold PyStr.replace.
  change (String c o +++ rest) with (String c (o +++ rest)).
  cbn [PyStr.replace_from].
  change (String c (o +++ rest)) with (String c o +++ rest).
  rewrite prefix_append.
  replace (String.length (String c o) - 1) with (String.length o)
    by (simpl; lia).
  cbn [append]. apply replace_skip.
Qed.

(** Replacing a label in a text that does not contain it changes
    nothing. *)
Lemma replace_absent :
  forall old new s,
    PyStr.contains old s = false -> PyStr.replace old new s = s.
Proof.
  intros old new s. unfold PyStr.replace.
  induction s as [|c r IH]; intros H.
  - reflexivity.
  - cbn [PyStr.contains] in H. apply orb_false_iff in H. destruct H as [Hp Hc].
    cbn [PyStr.replace_from]. rewrite Hp, IH by exact Hc. reflexivity.
Qed.

Lemma card_entry_holds :
  forall urljoin card href u,
    Soup.get "href" card = Some href -> href <> "" ->
    urljoin Crawl.ACLU href = Ok u ->
    entry_of_card urljoin card
      (Crawl.mkItem u (Crawl.card_title card) (Crawl.card_date card)).
Proof.
  intros urljoin card href u Hh Hne Hu. unfold entry_of_card. simpl.
  split; [eauto|]. unfold Crawl.card_title, Crawl.card_date.
  split; [|split; [|split]].
  - intros d Hd. apply find_first_match in Hd. rewrite Hd. reflexivity.
  - intros Hn. apply find_no_match in Hn. rewrite Hn. reflexivity.
  - intros Hs. apply find_string_parent_none in Hs. rewrite Hs. reflexivity.
  - intros parent Hp. rewrite Hp. split; [reflexivity|].
    intros rest Ht Hc. rewrite Ht.
    change (PyStr.strip (PyStr.replace "Document Date:" ""
                           ("Document Date:" +++ rest)) = PyStr.strip rest).
    rewrite (replace_label_prefix "D" "ocument Date:" rest).
    rewrite replace_absent by exact Hc. reflexivity.
Qed.

(** The loop over the cards either returns, having made an entry of
    every linked card, or raises at the first linked card whose link
    [urljoin] refuses. *)
Lemma cards_loop_run :
  forall urljoin cards items,
    (exists new,
       Crawl.cards_loop urljoin cards items = Ok (items ++ new) /\
       Forall2 (entry_of_card urljoin) (filter has_href cards) new /\
       Forall (link_accepted urljoin) (filter has_href cards)) \/
    (exists e before c after,
       Crawl.cards_loop urljoin cards items = Raise e /\
       filter has_href cards = before ++ c :: after /\
       Forall (link_accepted urljoin) before /\
       link_refused urljoin c e).
Proof.
  intros urljoin. induction cards as [|c cards IH]; intros items; simpl.
  - left. exists []. rewrite app_nil_r. repeat split; constructor.
  - destruct (has_href c) eqn:Hc; unfold has_href in Hc;
      destruct (Soup.get "href" c) as [href|] eqn:Eh; simpl in Hc;
      try discriminate Hc; rewrite ?Hc; try apply IH.
    destruct (urljoin Crawl.ACLU href) as [u|e] eqn:Eu.
    + destruct (IH (items ++ [Crawl.mkItem u (Crawl.card_title c)
                                            (Crawl.card_date c)]))
        as [(new & Hrun & Hall & Hacc)
           |(e & before & c' & after & Hrun & Hcut & Hacc & Href)].
      * left. eexists. split; [rewrite Hrun, <- app_assoc; reflexivity|].
        split.
        -- simpl. constructor; [|exact Hall].
           apply (card_entry_holds urljoin c Eh); [|exact Eu].
           apply truthy_nonempty. exact Hc.
        -- constructor; [|exact Hacc]. exists href, u. split; assumption.
      * right. exists e, (c :: before), c', after.
        split; [exact Hrun|]. split; [rewrite Hcut; reflexivity|].
        split; [|exact Href].
        constructor; [|exact Hacc]. exists href, u. split; assumption.
    + right. exists e, [], c, (filter has_href cards).
      split; [reflexivity|]. split; [reflexivity|].
      split; [constructor|]. exists href. split; assumption.
Qed.

Lemma link_accepted_not_refused :
  forall urljoin c e, link_accepted urljoin c -> ~ link_refused urljoin c e.
Proof.
  intros urljoin c e (href & u & Hh & Hu) (href' & Hh' & He).
  rewrite Hh in Hh'. injection Hh' as <-. congruence.
Qed.

(** The first element of a list that fails a property is determined. *)
Lemma first_failure_unique :
  forall (A : Type) (P : A -> Prop) (b1 b2 : list A) (c1 c2 : A) (a1 a2 : list A),
    b1 ++ c1 :: a1 = b2 ++ c2 :: a2 ->
    Forall P b1 -> ~ P c1 -> Forall P b2 -> ~ P c2 ->
    c1 = c2.
Proof.
  intros A P b1. induction b1 as [|x b1 IH]; intros b2 c1 c2 a1 a2 E H1 N1 H2 N2.
  - destruct b2 as [|y b2]; simpl in E.
    + injection E as E _. exact E.
    + injection E as E _. subst y. inversion H2; subst. contradiction.
  - destruct b2 as [|y b2]; simpl in E.
    + injection E as E _. subst x. inversion H1; subst. contradiction.
    + injection E as _ E. inversion H1; subst. inversion H2; subst.
      eapply IH; eassumption.
Qed.

(** C6, the counterexample.  A card with no [href] (or an empty one) is
    passed over: the page above has two cards and one entry. *)
Lemma parser_skips_card_without_href :
  ~ one_entry_per_card.
Proof.
  intros H.
  destruct (H join_absolute_path page_with_unlinked_card) as (items & Hrun & Hlen).
  vm_compute in Hrun. injection Hrun as <-. discriminate Hlen.
Qed.

(** C6, as amended.  Call linked the document cards that have a
    non-empty [href].  The parser returns a list exactly when [urljoin]
    accepts the [href] of every linked card; it has no handler for the
    [ValueError] of [urljoin] and raises it at the first linked card
    whose [href] is refused.  When it returns, the list has one entry
    for every linked card, in the order of the page, and nothing else;
    it is empty when the page has no such card, and it has one entry per
    card when every card has a link.  In an entry the detail link is the
    card's [href] joined to the site; the title is the stripped text of
    the card's first [div.is-size-4], or "Unknown Title" when the card
    has none; the date is "Unknown Date" when no string of the card
    contains "Document Date:", and otherwise the text of the element
    holding the first such string, with the label removed and the
    blanks around stripped (for a text that starts with the label and
    holds it once: the rest, stripped). *)
Theorem listing_parser_entries :
  forall (urljoin : string -> string -> result string) (soup : Soup.node),
    let linked := filter has_href (Crawl.document_cards soup) in
    ((exists items, Crawl.get_detail_pages_from_listing urljoin soup = Ok items)
     <-> Forall (link_accepted urljoin) linked) /\
    (forall items,
       Crawl.get_detail_pages_from_listing urljoin soup = Ok items ->
       Forall2 (entry_of_card urljoin) linked items /\
       List.length items = List.length linked /\
       (Forall (fun c => has_href c = true) (Crawl.document_cards soup) ->
        Forall2 (entry_of_card urljoin) (Crawl.document_cards soup) items)) /\
    (forall e,
       Crawl.get_detail_pages_from_listing urljoin soup = Raise e
       <-> exists before c after,
             linked = before ++ c :: after /\
             Forall (link_accepted urljoin) before /\
             link_refused urljoin c e) /\
    Crawl.document_cards soup
    = filter (Soup.sel "a" "document-listing-card") (Soup.descendants soup).
Proof.
  intros urljoin soup linked. subst linked.
  unfold Crawl.get_detail_pages_from_listing.
  destruct (cards_loop_run urljoin (Crawl.document_cards soup) [])
    as [(new & Hrun & Hall & Hacc)
       |(e & before & c & after & Hrun & Hcut & Hacc & Href)];
    rewrite Hrun; simpl.
  - split; [split; eauto|]. split; [|split].
    + intros items E. injection E as <-.
      split; [exact Hall|]. split.
      * symmetry. eapply Forall2_length. exact Hall.
      * intros Hevery.
        assert (E : filter has_href (Crawl.document_cards soup)
                    = Crawl.document_cards soup).
        { clear - Hevery. induction Hevery as [|c cs Hc _ IH]; simpl; auto.
          rewrite Hc, IH. reflexivity. }
        rewrite <- E at 1. exact Hall.
    + intros e. split; [discriminate|].
      intros (before & c & after & Hcut & _ & Href). exfalso.
      rewrite Hcut in Hacc. apply Forall_app in Hacc. destruct Hacc as [_ Hacc].
      inversion Hacc; subst.
      eapply link_accepted_not_refused; eassumption.
    + reflexivity.
  - split; [|split; [|split]].
    + split; [intros [items E]; discriminate|].
      intros Hall. exfalso. rewrite Hcut in Hall.
      apply Forall_app in Hall. destruct Hall as [_ Hall].
      inversion Hall; subst.
      eapply link_accepted_not_refused; eassumption.
    + intros items E. discriminate.
    + intros e'. split.
      * intros E. injection E as <-. exists before, c, after. auto.
      * intros (before' & c' & after' & Hcut' & Hacc' & Href').
        assert (Ec : c = c').
        { rewrite Hcut in Hcut'.
          apply (@first_failure_unique _ (link_accepted urljoin) _ _ _ _ _ _ Hcut').
          - exact Hacc.
          - intros Ha. eapply link_accepted_not_refused; eassumption.
          - exact Hacc'.
          - intros Ha. eapply link_accepted_not_refused; eassumption. }
        subst c'. f_equal.
        destruct Href as (h1 & Hh1 & He1). destruct Href' as (h2 & Hh2 & He2).
        rewrite Hh1 in Hh2. injection Hh2 as <-. congruence.
    + reflexivity.
Qed.

(** The page whose first card links to ["//[x"]: the parser raises the
    exception of [urljoin]. *)
Example parser_raises_on_a_malformed_link :
  Crawl.get_detail_pages_from_listing join_absolute_path page_with_malformed_link
  = Raise invalid_ipv6_url.
Proof. reflexivity. Qed.

(* ================================================================== *)
(** * The pagination fallback                                          *)
(* ================================================================== *)

Lemma forallb_str_app :
  forall p a b,
    PyStr.forallb_str p (a +++ b)
    = PyStr.forallb_str p a && PyStr.forallb_str p b.
Proof.
  intros p a b. induction a as [|c a IH]; simpl; [reflexivity|].
  rewrite IH. apply andb_assoc.
Qed.

Lemma forallb_str_impl :
  forall (p q : ascii -> bool) s,
    (forall c, p c = true -> q c = true) ->
    PyStr.forallb_str p s = true -> PyStr.forallb_str q s = true.
Proof.
  intros p q s H. induction s as [|c s IH]; simpl; [reflexivity|].
  intros Hs. apply andb_true_iff in Hs. destruct Hs as [Hc Hs].
  rewrite (H c Hc), (IH Hs). reflexivity.
Qed.

Lemma uint_chars :
  forall d, PyStr.forallb_str PyStr.is_digit (NilEmpty.string_of_uint d) = true.
Proof. induction d; simpl; auto. Qed.

Lemma of_Z_chars :
  forall n, PyStr.forallb_str is_sign_or_digit (PyStr.of_Z n) = true.
Proof.
  intros n. unfold PyStr.of_Z.
  assert (H : forall d, PyStr.forallb_str is_sign_or_digit
                          (NilEmpty.string_of_uint d) = true).
  { intros d. eapply forallb_str_impl; [|apply uint_chars].
    intros c Hc. unfold is_sign_or_digit. rewrite Hc. reflexivity. }
  destruct (Z.to_int n); simpl; apply H.
Qed.

Lemma of_Z_truthy : forall n, PyStr.truthy (PyStr.of_Z n) = true.
Proof.
  intros n. unfold PyStr.of_Z.
  destruct n as [|p|p]; simpl; try reflexivity.
  pose proof (Unsigned.to_uint_nonnil p) as H.
  destruct (Pos.to_uint p); simpl; congruence.
Qed.

(** A printed integer holds none of the characters the URL functions
    look for. *)
Lemma of_Z_avoids :
  forall (p : ascii -> bool) n,
    (forall c, is_sign_or_digit c = true -> p c = false) ->
    PyStr.forallb_str (fun c => negb (p c)) (PyStr.of_Z n) = true.
Proof.
  intros p n H. eapply forallb_str_impl; [|apply of_Z_chars].
  intros c Hc. rewrite (H c Hc). reflexivity.
Qed.

Lemma sign_or_digit_cases :
  forall c,
    is_sign_or_digit c = true ->
    c = "-"%char \/ c = "0"%char \/ c = "1"%char \/ c = "2"%char \/
    c = "3"%char \/ c = "4"%char \/ c = "5"%char \/ c = "6"%char \/
    c = "7"%char \/ c = "8"%char \/ c = "9"%char.
Proof.
  intros [[] [] [] [] [] [] [] []]; vm_compute; intros H;
    try discriminate H; tauto.
Qed.

Ltac by_sign_or_digit :=
  let c := fresh "c" in
  let H := fresh "H" in
  intros c H;
  destruct (sign_or_digit_cases c H)
    as [->|[->|[->|[->|[->|[->|[->|[->|[->|[->| ->]]]]]]]]]];
  reflexivity.

Lemma split_once_skip :
  forall c a b,
    PyStr.forallb_str (fun x => negb (Ascii.eqb x c)) a = true ->
    PyStr.split_once c (a +++ b)
    = (a +++ fst (PyStr.split_once c b), snd (PyStr.split_once c b)).
Proof.
  intros c a b. induction a as [|x a IH]; simpl.
  - intros _. destruct (PyStr.split_once c b). reflexivity.
  - intros H. apply andb_true_iff in H. destruct H as [Hx Ha].
    apply negb_true_iff in Hx. rewrite Hx, (IH Ha). reflexivity.
Qed.

Lemma append_nil_r : forall a : string, a +++ "" = a.
Proof. induction a as [|c a IH]; simpl; [reflexivity|]. rewrite IH. reflexivity. Qed.

Lemma cut_at :
  forall c a b,
    PyStr.forallb_str (fun x => negb (Ascii.eqb x c)) a = true ->
    Url.cut c (a +++ String c b) = (a, b).
Proof.
  intros c a b H. unfold Url.cut. rewrite split_once_skip by exact H.
  simpl. rewrite Ascii.eqb_refl. simpl. rewrite append_nil_r. reflexivity.
Qed.

Lemma split_once_absent :
  forall c a,
    PyStr.forallb_str (fun x => negb (Ascii.eqb x c)) a = true ->
    PyStr.split_once c a = (a, None).
Proof.
  intros c a. induction a as [|x a IH]; simpl; [reflexivity|].
  intros H. apply andb_true_iff in H. destruct H as [Hx Ha].
  apply negb_true_iff in Hx. rewrite Hx, (IH Ha). reflexivity.
Qed.

Lemma contains_char_absent :
  forall c s,
    PyStr.forallb_str (fun x => negb (Ascii.eqb x c)) s = true ->
    PyStr.contains (String c EmptyString) s = false.
Proof.
  intros c s. induction s as [|x s IH]; simpl; [reflexivity|].
  intros H. apply andb_true_iff in H. destruct H as [Hx Hs].
  apply negb_true_iff in Hx. rewrite (IH Hs).
  destruct (ascii_dec c x) as [->|_]; [|reflexivity].
  rewrite Ascii.eqb_refl in Hx. discriminate.
Qed.

Lemma rstrip_by_keeps :
  forall p s,
    PyStr.forallb_str (fun x => negb (p x)) s = true ->
    PyStr.rstrip_by p s = s.
Proof.
  intros p s. induction s as [|x s IH]; simpl; [reflexivity|].
  intros H. apply andb_true_iff in H. destruct H as [Hx Hs].
  apply negb_true_iff in Hx. rewrite (IH Hs), Hx.
  destruct s; reflexivity.
Qed.

Lemma rstrip_by_app :
  forall p a b,
    PyStr.truthy b = true ->
    PyStr.forallb_str (fun x => negb (p x)) b = true ->
    PyStr.rstrip_by p (a +++ b) = a +++ b.
Proof.
  intros p a b Hb Hp. induction a as [|x a IH]; simpl.
  - apply rstrip_by_keeps. exact Hp.
  - rewrite IH. destruct (a +++ b) eqn:E; [|reflexivity].
    destruct a; simpl in E; [subst b|]; discriminate.
Qed.

Lemma split_absent :
  forall c s,
    PyStr.forallb_str (fun x => negb (Ascii.eqb x c)) s = true ->
    PyStr.split c s = [s].
Proof.
  intros c s. induction s as [|x s IH]; simpl; [reflexivity|].
  intros H. apply andb_true_iff in H. destruct H as [Hx Hs].
  apply negb_true_iff in Hx. rewrite Hx, (IH Hs). reflexivity.
Qed.

Lemma unquote_plain :
  forall s,
    PyStr.forallb_str (fun x => negb (Ascii.eqb x "%"%char)) s = true ->
    Url.unquote s = s.
Proof.
  induction s as [|x s IH]; [reflexivity|].
  intros H. simpl in H. apply andb_true_iff in H. destruct H as [Hx Hs].
  apply negb_true_iff in Hx.
  assert (E : Url.unquote (String x s) = String x (Url.unquote s)).
  { cbn [Url.unquote]. rewrite Hx.
    destruct s as [|h1 [|h2 r2]]; reflexivity. }
  rewrite E, (IH Hs). reflexivity.
Qed.

Lemma quote_plus_safe :
  forall s, PyStr.forallb_str Url.always_safe s = true -> Url.quote_plus s = s.
Proof.
  induction s as [|x s IH]; simpl; [reflexivity|].
  intros H. apply andb_true_iff in H. destruct H as [Hx Hs].
  rewrite Hx, (IH Hs). reflexivity.
Qed.

Lemma append_assoc :
  forall a b c : string, (a +++ b) +++ c = a +++ (b +++ c).
Proof.
  induction a as [|x a IH]; intros b c; simpl; [reflexivity|].
  rewrite IH. reflexivity.
Qed.

(** A text made of fixed parts and printed integers avoids the
    character [c]. *)
Ltac avoids c :=
  rewrite ?forallb_str_app;
  rewrite ?(of_Z_avoids (fun x => Ascii.eqb x c)) by by_sign_or_digit;
  reflexivity.

Lemma urlparse_listing_url :
  forall page yr,
    Url.urlparse (Crawl.listing_url search_url page yr)
    = Url.mkParsed "https" "www.aclu.org"
        ("/foia-collections/nsa-documents-search/page/" +++ PyStr.of_Z page)
        "" ("document_date=" +++ PyStr.of_Z yr) "listings".
Proof.
  intros page yr. unfold Url.urlparse.
  set (pth := "/foia-collections/nsa-documents-search/page/" +++ PyStr.of_Z page).
  set (qry := "document_date=" +++ PyStr.of_Z yr).
  change (Url.split_scheme (Crawl.listing_url search_url page yr))
    with ("https",
          "//www.aclu.org" +++ pth +++ "?" +++ qry +++ "#listings").
  cbv beta iota.
  change (String.prefix "//" ("//www.aclu.org" +++ pth +++ "?" +++ qry
                              +++ "#listings")) with true.
  cbv beta iota.
  change (Url.break_at Url.is_netloc_end
            (PyStr.drop 2 ("//www.aclu.org" +++ pth +++ "?" +++ qry
                           +++ "#listings")))
    with ("www.aclu.org", pth +++ "?" +++ qry +++ "#listings").
  cbv beta iota.
  replace (pth +++ "?" +++ qry +++ "#listings")
    with ((pth +++ "?" +++ qry) +++ String "#" "listings")
    by (rewrite !append_assoc; reflexivity).
  rewrite cut_at by (subst pth qry; avoids "#"%char).
  change (pth +++ "?" +++ qry) with (pth +++ String "?" qry).
  rewrite cut_at by (subst pth; avoids "?"%char).
  rewrite (contains_char_absent ";"%char pth) by (subst pth; avoids ";"%char).
  rewrite andb_false_r. reflexivity.
Qed.

Lemma parse_qs_document_date :
  forall yr,
    Url.parse_qs ("document_date=" +++ PyStr.of_Z yr)
    = [("document_date", [PyStr.of_Z yr])].
Proof.
  intros yr. unfold Url.parse_qs.
  change ("document_date=" +++ PyStr.of_Z yr)
    with (String "d" ("ocument_date=" +++ PyStr.of_Z yr)) at 1.
  cbv beta iota.
  rewrite split_absent by avoids "&"%char.
  cbn [fold_left].
  change (PyStr.split_once "=" ("document_date=" +++ PyStr.of_Z yr))
    with ("document_date", Some (PyStr.of_Z yr)).
  cbv beta iota. rewrite of_Z_truthy.
  unfold Url.plus_to_space.
  rewrite (replace_absent "+" " " (PyStr.of_Z yr))
    by (apply (contains_char_absent "+"%char); avoids "+"%char).
  rewrite (unquote_plain (PyStr.of_Z yr)) by avoids "%"%char.
  reflexivity.
Qed.

Lemma of_Z_safe :
  forall n, PyStr.forallb_str Url.always_safe (PyStr.of_Z n) = true.
Proof.
  intros n. eapply forallb_str_impl; [|apply of_Z_chars]. by_sign_or_digit.
Qed.

(** On every URL [scrape_year] builds, the fallback keeps the path,
    page segment included, and appends a second page segment made of the
    current page number plus one; the query and the fragment follow. *)
Lemma fallback_on_crawl_urls :
  forall page yr current_page,
    Crawl.fallback_url current_page (Crawl.listing_url search_url page yr)
    = search_url +++ "/page/" +++ PyStr.of_Z page
      +++ "/page/" +++ PyStr.of_Z (current_page + 1)
      +++ "?document_date=" +++ PyStr.of_Z yr +++ "#listings".
Proof.
  intros page yr current_page. unfold Crawl.fallback_url.
  rewrite urlparse_listing_url. cbn [Url.scheme Url.netloc Url.path Url.query Url.fragment].
  rewrite parse_qs_document_date.
  unfold PyStr.rstrip_char.
  rewrite rstrip_by_app
    by (try apply of_Z_truthy;
        apply (of_Z_avoids (Ascii.eqb "/"%char)); by_sign_or_digit).
  unfold Url.urlencode. cbn [flat_map map fst snd app PyStr.join].
  rewrite (quote_plus_safe (PyStr.of_Z yr)) by apply of_Z_safe.
  change (PyStr.truthy "listings") with true. cbv beta iota.
  unfold search_url. rewrite !append_assoc. reflexivity.
Qed.

(** C2, the behaviour of the code.  When a listing page has no explicit
    link to the next page and its page-number elements give the current
    page [k], the resolver, on the URL [scrape_year] built for page [p]
    of a year, returns that URL with [/page/k+1] appended after the
    segment [/page/p], which is kept as it is: the number of the
    existing segment is not incremented. *)
Theorem fallback_appends_page_segment :
  forall (urljoin : string -> string -> result string) (soup : Soup.node)
         (page yr current_page : Z),
    Crawl.explicit_next urljoin soup = Ok None ->
    Crawl.current_page_of soup = Some current_page ->
    Crawl.get_next_page_url urljoin soup (Crawl.listing_url search_url page yr)
    = Ok (Some (search_url +++ "/page/" +++ PyStr.of_Z page
                +++ "/page/" +++ PyStr.of_Z (current_page + 1)
                +++ "?document_date=" +++ PyStr.of_Z yr +++ "#listings")).
Proof.
  intros urljoin soup page yr current_page Hnone Hcur.
  unfold Crawl.get_next_page_url. rewrite Hnone, Hcur.
  rewrite fallback_on_crawl_urls. reflexivity.
Qed.

(** On the first page of the year 2013, the current page being 1, the
    URL returned ends in [/page/1/page/2]; it is not the URL of the
    second page. *)
Lemma fallback_appends_page_segment_on_first_page :
  Crawl.listing_url search_url 1 2013
  = "https://www.aclu.org/foia-collections/nsa-documents-search/page/1?document_date=2013#listings"
  /\ Crawl.get_next_page_url join_absolute_path page_without_next_link
       (Crawl.listing_url search_url 1 2013)
     = Ok (Some "https://www.aclu.org/foia-collections/nsa-documents-search/page/1/page/2?document_date=2013#listings")
  /\ Crawl.get_next_page_url join_absolute_path page_without_next_link
       (Crawl.listing_url search_url 1 2013)
     <> Ok (Some (Crawl.listing_url search_url 2 2013)).
Proof.
  split; [reflexivity|].
  rewrite (@fallback_appends_page_segment join_absolute_path
             page_without_next_link 1 2013 1 eq_refl eq_refl).
  split; [reflexivity|]. vm_compute. discriminate.
Defined.

(** The query is parsed and encoded again, which drops the fields with
    an empty value. *)
Lemma fallback_drops_blank_query_fields :
  Crawl.fallback_url 1 "https://www.aclu.org/search/page/1?q=&document_date=2013#listings"
  = "https://www.aclu.org/search/page/1/page/2?document_date=2013#listings".
Proof. vm_compute. reflexivity. Qed.

(* ================================================================== *)
(** * The download stage                                               *)
(* ================================================================== *)





Lemma insert_sorted_perm :
  forall x l, Permutation (x :: l) (Download.insert_sorted x l).
Proof.
  intros x l. induction l as [|y l IH]; simpl.
  - apply Permutation_refl.
  - destruct (Download.key_lt (Download.sort_key y) (Download.sort_key x)).
    + eapply perm_trans; [apply perm_swap|]. apply perm_skip. exact IH.
    + apply Permutation_refl.
Qed.

Lemma sort_rows_perm : forall rows, Permutation rows (Download.sort_rows rows).
Proof.
  induction rows as [|x rows IH]; simpl.
  - constructor.
  - eapply perm_trans; [apply perm_skip; exact IH|]. apply insert_sorted_perm.
Qed.



Lemma load_rows_selects :
  forall t include_duplicates x,
    In x (Download.load_rows t include_duplicates) <->
    exists r link,
      In r t /\
      x = (Store.rowid r, link, Store.Year_From_URL r) /\
      Store.DirectPDF_Link r = Some link /\ link <> "" /\
      (include_duplicates = true \/ Download.null_or_no r = true).
Proof.
  intros t inc x. unfold Download.load_rows. rewrite in_flat_map. split.
  - intros (r & Hin & Hx). unfold Download.has_link in Hx.
    destruct (Store.DirectPDF_Link r) as [link|] eqn:El; [|destruct Hx].
    destruct (String.eqb link "") eqn:Ee; simpl in Hx; [destruct Hx|].
    destruct (inc || Download.null_or_no r) eqn:Ei; simpl in Hx; [|destruct Hx].
    destruct Hx as [<-|[]]. exists r, link.
    apply String.eqb_neq in Ee. apply orb_true_iff in Ei. auto.
  - intros (r & link & Hin & -> & El & Hne & Hd).
    exists r. split; [exact Hin|]. unfold Download.has_link. rewrite El.
    apply String.eqb_neq in Hne. rewrite Hne. simpl.
    apply orb_true_iff in Hd. rewrite Hd. simpl. auto.
Qed.

Lemma main_is_loop_over_sorted :
  forall sha1 aria2c t force inc out fs,
    Download.main sha1 aria2c t force inc out fs
    = Download.download_loop sha1 aria2c force out
        (Download.sort_rows (Download.load_rows t inc)) fs.
Proof.
  intros. unfold Download.main.
  destruct (Download.load_rows t inc); reflexivity.
Qed.



Lemma download_loop_head :
  forall sha1 aria2c force out x rest fs,
    let fs1 := with_year_dir out x fs in
    let dest := Download.dest_path_of sha1 out x in
    let run := Download.download_loop sha1 aria2c force out (x :: rest) fs in
    (Download.path_exists fs1 dest = true /\ force = false ->
       run = (Download.Skipped (rowid_of x) dest
                :: fst (Download.download_loop sha1 aria2c force out rest fs1),
              snd (Download.download_loop sha1 aria2c force out rest fs1))) /\
    (Download.path_exists fs1 dest = false \/ force = true ->
       exists a acts,
         fst run = a :: acts /\ attempts_transfer sha1 out x a).
Proof.
  intros sha1 aria2c force out [[rid link] yr] rest fs fs1 dest run.
  subst run.
  change (Download.download_loop sha1 aria2c force out ((rid, link, yr) :: rest) fs)
    with (if Download.path_exists fs1 dest && negb force
          then let (acts, fs') :=
                 Download.download_loop sha1 aria2c force out rest fs1 in
               (Download.Skipped rid dest :: acts, fs')
          else match aria2c fs1 link dest with
               | inl fs2 =>
                   let (acts, fs') :=
                     Download.download_loop sha1 aria2c force out rest fs2 in
                   (Download.Transferred rid link dest :: acts, fs')
               | inr e =>
                   let (acts, fs') :=
                     Download.download_loop sha1 aria2c force out rest fs1 in
                   (Download.TransferFailed rid link dest e :: acts, fs')
               end).
  split.
  - intros [He ->]. rewrite He. simpl.
    destruct (Download.download_loop sha1 aria2c false out rest fs1).
    reflexivity.
  - intros Hc.
    assert (E : Download.path_exists fs1 dest && negb force = false).
    { destruct Hc as [-> | ->]; [reflexivity|apply andb_false_r]. }
    rewrite E. unfold attempts_transfer. simpl.
    destruct (aria2c fs1 link dest) as [fs2|e].
    + destruct (Download.download_loop sha1 aria2c force out rest fs2).
      simpl. do 2 eexists. split; [reflexivity|]. left. reflexivity.
    + destruct (Download.download_loop sha1 aria2c force out rest fs1).
      simpl. do 2 eexists. split; [reflexivity|]. right. eexists. reflexivity.
Qed.






(** The row of the year zero of the table above is processed after the
    row of the year 5: the key of the script takes the year zero for a
    missing year. *)
Example rows_of_a_table_with_year_zero :
  processed table_with_year_zero false
  = [ (2%Z, "https://www.aclu.org/files/b.pdf", Some 5%Z);
      (1%Z, "https://www.aclu.org/files/a.pdf", Some 0%Z) ].
Proof. vm_compute. reflexivity. Qed.



(* ================================================================== *)
(** * The year of a path                                               *)
(* ================================================================== *)

Lemma digit_cases :
  forall c,
    PyStr.is_digit c = true ->
    c = "0"%char \/ c = "1"%char \/ c = "2"%char \/ c = "3"%char \/
    c = "4"%char \/ c = "5"%char \/ c = "6"%char \/ c = "7"%char \/
    c = "8"%char \/ c = "9"%char.
Proof.
  intros [[] [] [] [] [] [] [] []]; vm_compute; intros H;
    try discriminate H; tauto.
Qed.

Lemma digit_value_range :
  forall c, PyStr.is_digit c = true -> (0 <= PyStr.digit_value c <= 9)%Z.
Proof.
  intros c H. destruct (digit_cases c H)
    as [->|[->|[->|[->|[->|[->|[->|[->|[->| ->]]]]]]]]];
    vm_compute; split; discriminate.
Qed.

Lemma digit_not_special :
  forall c,
    PyStr.is_digit c = true ->
    PyStr.is_blank c = false /\ Ascii.eqb c "_"%char = false.
Proof.
  intros c H. destruct (digit_cases c H)
    as [->|[->|[->|[->|[->|[->|[->|[->|[->| ->]]]]]]]]];
    repeat split; reflexivity.
Qed.

(** The word characters of the engine are the word characters. *)
Lemma is_word_word_char :
  forall uc u, Index.is_word uc u = word_char uc u.
Proof.
  intros uc [c|b|c]; simpl.
  - destruct c as [[] [] [] [] [] [] [] []]; reflexivity.
  - destruct (uc b); reflexivity.
  - reflexivity.
Qed.

Lemma digit_of_plain :
  forall uc c d,
    digit_of uc (PyStr.Plain c) = Some d <->
    PyStr.is_digit c = true /\ d = PyStr.digit_value c.
Proof.
  intros uc c d. unfold digit_of, PyStr.is_digit, PyStr.digit_value.
  destruct ((48 <=? nat_of_ascii c) && (nat_of_ascii c <=? 57))%nat; split.
  - intros H. injection H as <-. split; reflexivity.
  - intros [_ ->]. reflexivity.
  - discriminate.
  - intros [H _]. discriminate H.
Qed.

Lemma digit_number_char :
  forall d,
    PyStr.is_digit (PyStr.digit_char d) = true /\
    PyStr.digit_value (PyStr.digit_char d) = PyStr.digit_number d.
Proof. intros []; split; reflexivity. Qed.

(** A decimal digit is read by [int] as the ASCII digit of its value. *)
Lemma digit_of_to_ascii :
  forall uc u d,
    digit_of uc u = Some d ->
    PyStr.is_digit (PyStr.to_ascii uc u) = true /\
    PyStr.digit_value (PyStr.to_ascii uc u) = d.
Proof.
  intros uc [c|b|c] d H.
  - apply digit_of_plain in H. destruct H as [H ->]. simpl. auto.
  - simpl in *. destruct (uc b) as [|dd| |]; try discriminate H.
    injection H as <-. apply digit_number_char.
  - discriminate H.
Qed.

Lemma digit_of_range :
  forall uc u d, digit_of uc u = Some d -> (0 <= d <= 9)%Z.
Proof.
  intros uc u d H. destruct (digit_of_to_ascii uc u H) as [Hd <-].
  apply digit_value_range. exact Hd.
Qed.

Lemma is_decimal_digit_of :
  forall uc u,
    Index.is_decimal uc u = true <-> exists d, digit_of uc u = Some d.
Proof.
  intros uc [c|b|c]; simpl.
  - split.
    + intros H. exists (PyStr.digit_value c).
      apply (digit_of_plain uc). auto.
    + intros [d H]. apply (digit_of_plain uc) in H. tauto.
  - destruct (uc b); split; try discriminate; eauto;
      intros [d H]; discriminate H.
  - split; [discriminate|]. intros [d H]. discriminate H.
Qed.

(** The first two digits of a four-digit number from 1900 to 2099 are 19
    or 20, and conversely. *)
Lemma century_digits :
  forall c1 c2 d3 d4,
    PyStr.is_digit c1 = true -> PyStr.is_digit c2 = true ->
    (0 <= d3 <= 9)%Z -> (0 <= d4 <= 9)%Z ->
    ((1900 <= 1000 * PyStr.digit_value c1 + 100 * PyStr.digit_value c2
              + 10 * d3 + d4 <= 2099)%Z
     <-> (Ascii.eqb c1 "1"%char && Ascii.eqb c2 "9"%char)
         || (Ascii.eqb c1 "2"%char && Ascii.eqb c2 "0"%char) = true).
Proof.
  intros c1 c2 d3 d4 H1 H2 R3 R4.
  destruct (digit_cases c1 H1)
    as [->|[->|[->|[->|[->|[->|[->|[->|[->| ->]]]]]]]]];
  destruct (digit_cases c2 H2)
    as [->|[->|[->|[->|[->|[->|[->|[->|[->| ->]]]]]]]]];
    change (PyStr.digit_value "0") with 0%Z;
    change (PyStr.digit_value "1") with 1%Z;
    change (PyStr.digit_value "2") with 2%Z;
    change (PyStr.digit_value "3") with 3%Z;
    change (PyStr.digit_value "4") with 4%Z;
    change (PyStr.digit_value "5") with 5%Z;
    change (PyStr.digit_value "6") with 6%Z;
    change (PyStr.digit_value "7") with 7%Z;
    change (PyStr.digit_value "8") with 8%Z;
    change (PyStr.digit_value "9") with 9%Z;
    cbn [Ascii.eqb Bool.eqb andb orb];
    split; intros H; try discriminate H; try reflexivity; lia.
Qed.

Lemma year_here_iff :
  forall uc s,
    Index.year_here uc s = true <->
    exists tok post y,
      s = tok ++ post /\ year_token uc tok y /\
      starts_with_word uc post = false.
Proof.
  intros uc s. split.
  - destruct s as [|[c1|b1|s1] [|[c2|b2|s2] [|u3 [|u4 rest]]]];
      simpl; try discriminate.
    intros H. apply andb_true_iff in H. destruct H as [H Hrest].
    apply andb_true_iff in H. destruct H as [H H4].
    apply andb_true_iff in H. destruct H as [H12 H3].
    apply is_decimal_digit_of in H3, H4.
    destruct H3 as [d3 H3]. destruct H4 as [d4 H4].
    assert (H1 : PyStr.is_digit c1 = true /\ PyStr.is_digit c2 = true).
    { apply orb_true_iff in H12.
      destruct H12 as [H|H]; apply andb_true_iff in H; destruct H as [Ha Hb];
        apply Ascii.eqb_eq in Ha, Hb; subst; split; reflexivity. }
    destruct H1 as [H1 H2].
    exists [PyStr.Plain c1; PyStr.Plain c2; u3; u4], rest.
    eexists. split; [reflexivity|]. split.
    + exists c1, c2, u3, u4, (PyStr.digit_value c1), (PyStr.digit_value c2),
             d3, d4.
      split; [reflexivity|].
      split; [apply digit_of_plain; auto|].
      split; [apply digit_of_plain; auto|].
      split; [exact H3|]. split; [exact H4|]. split; [reflexivity|].
      apply (century_digits c1 c2 H1 H2 (digit_of_range uc u3 H3)
                            (digit_of_range uc u4 H4)).
      exact H12.
    + destruct rest as [|u5 rest]; [reflexivity|]. simpl.
      rewrite <- is_word_word_char. apply negb_true_iff. exact Hrest.
  - intros (tok & post & y & -> &
            (c1 & c2 & u3 & u4 & d1 & d2 & d3 & d4 & -> & H1 & H2 & H3 & H4
             & -> & Hy) & Hpost).
    apply digit_of_plain in H1, H2.
    destruct H1 as [H1 ->]. destruct H2 as [H2 ->].
    apply (century_digits c1 c2 H1 H2 (digit_of_range uc u3 H3)
                          (digit_of_range uc u4 H4)) in Hy.
    simpl. rewrite Hy.
    rewrite (proj2 (is_decimal_digit_of uc u3)) by eauto.
    rewrite (proj2 (is_decimal_digit_of uc u4)) by eauto.
    simpl.
    destruct post as [|u5 post]; [reflexivity|]. simpl in Hpost.
    rewrite is_word_word_char, Hpost. reflexivity.
Qed.

Lemma strip_four :
  forall p c1 c2 c3 c4,
    p c1 = false -> p c4 = false ->
    PyStr.lstrip_by p
      (PyStr.rstrip_by p
         (String c1 (String c2 (String c3 (String c4 EmptyString)))))
    = String c1 (String c2 (String c3 (String c4 EmptyString))).
Proof.
  intros p c1 c2 c3 c4 S1 S4.
  cbn [PyStr.rstrip_by]. rewrite S4. cbn [PyStr.lstrip_by]. rewrite S1.
  reflexivity.
Qed.

(** [int] reads four ASCII digits as their number. *)
Lemma to_int_four_digits :
  forall c1 c2 c3 c4,
    PyStr.is_digit c1 = true -> PyStr.is_digit c2 = true ->
    PyStr.is_digit c3 = true -> PyStr.is_digit c4 = true ->
    PyStr.to_int (String c1 (String c2 (String c3 (String c4 EmptyString))))
    = Some (1000 * PyStr.digit_value c1 + 100 * PyStr.digit_value c2
            + 10 * PyStr.digit_value c3 + PyStr.digit_value c4)%Z.
Proof.
  intros c1 c2 c3 c4 H1 H2 H3 H4.
  destruct (digit_not_special c1 H1) as (S1 & _).
  destruct (digit_not_special c2 H2) as (_ & U2).
  destruct (digit_not_special c3 H3) as (_ & U3).
  destruct (digit_not_special c4 H4) as (S4 & U4).
  unfold PyStr.to_int. rewrite strip_four by assumption.
  destruct (digit_cases c1 H1)
    as [->|[->|[->|[->|[->|[->|[->|[->|[->| ->]]]]]]]]];
    cbv beta iota;
    cbn [PyStr.parse_digits]; cbn [Ascii.eqb Bool.eqb];
    rewrite H1, U2, H2, U3, H3, U4, H4; f_equal;
    change (PyStr.digit_value "0") with 0%Z;
    change (PyStr.digit_value "1") with 1%Z;
    change (PyStr.digit_value "2") with 2%Z;
    change (PyStr.digit_value "3") with 3%Z;
    change (PyStr.digit_value "4") with 4%Z;
    change (PyStr.digit_value "5") with 5%Z;
    change (PyStr.digit_value "6") with 6%Z;
    change (PyStr.digit_value "7") with 7%Z;
    change (PyStr.digit_value "8") with 8%Z;
    change (PyStr.digit_value "9") with 9%Z; lia.
Qed.

(** [int] reads a year token as its value. *)
Lemma year_token_to_int :
  forall uc tok y, year_token uc tok y -> PyStr.int_of_chars uc tok = Some y.
Proof.
  intros uc tok y
    (c1 & c2 & u3 & u4 & d1 & d2 & d3 & d4 & -> & H1 & H2 & H3 & H4 & -> & _).
  apply digit_of_plain in H1, H2.
  destruct H1 as [H1 ->]. destruct H2 as [H2 ->].
  destruct (digit_of_to_ascii uc u3 H3) as [A3 <-].
  destruct (digit_of_to_ascii uc u4 H4) as [A4 <-].
  unfold PyStr.int_of_chars.
  cbn [map string_of_list_ascii PyStr.to_ascii].
  apply to_int_four_digits; assumption.
Qed.

Lemma year_token_firstn :
  forall uc tok y post,
    year_token uc tok y -> firstn 4 (tok ++ post) = tok.
Proof.
  intros uc tok y post (c1 & c2 & u3 & u4 & d1 & d2 & d3 & d4 & -> & _).
  reflexivity.
Qed.

Lemma occurs_at_head :
  forall uc after_word s tok post,
    occurs uc after_word s [] tok post ->
    negb after_word && Index.year_here uc s = true.
Proof.
  intros uc aw s tok post (Hs & (y & Hy) & Hp & He). simpl in *. subst aw.
  simpl. apply year_here_iff. exists tok, post, y. auto.
Qed.

Lemma occurs_in_tail :
  forall uc after_word u r u' pre tok post,
    occurs uc after_word (u :: r) (u' :: pre) tok post ->
    occurs uc (Index.is_word uc u) r pre tok post.
Proof.
  intros uc aw u r u' pre tok post (Hs & Hy & Hp & He).
  simpl in Hs. injection Hs as -> ->. simpl in He.
  rewrite is_word_word_char.
  repeat split; assumption.
Qed.

Lemma search_year_some :
  forall uc s after_word tok,
    Index.search_year uc after_word s = Some tok ->
    exists pre post,
      occurs uc after_word s pre tok post /\
      forall pre' tok' post',
        occurs uc after_word s pre' tok' post' ->
        List.length pre <= List.length pre'.
Proof.
  intros uc. induction s as [|u r IH]; intros aw tok H; [discriminate|].
  cbn [Index.search_year] in H.
  destruct (negb aw && Index.year_here uc (u :: r)) eqn:E.
  - apply andb_true_iff in E. destruct E as [Ea Ey].
    apply year_here_iff in Ey. destruct Ey as (tok0 & post & y & Hs & Hy & Hp).
    rewrite Hs, (year_token_firstn post Hy) in H. injection H as <-.
    exists [], post. split.
    + repeat split; eauto. apply negb_true_iff in Ea. exact Ea.
    + intros. simpl. lia.
  - destruct (IH _ _ H) as (pre & post & Hocc & Hmin).
    exists (u :: pre), post. split.
    + destruct Hocc as (Hs & Hy & Hp & He). repeat split; try assumption.
      * simpl. rewrite Hs. reflexivity.
      * simpl. rewrite <- is_word_word_char. exact He.
    + intros [|u' pre'] tok' post' Hocc'.
      * apply occurs_at_head in Hocc'. congruence.
      * apply occurs_in_tail in Hocc'. apply Hmin in Hocc'. simpl. lia.
Qed.

Lemma search_year_none :
  forall uc s after_word,
    Index.search_year uc after_word s = None ->
    forall pre tok post, ~ occurs uc after_word s pre tok post.
Proof.
  intros uc. induction s as [|u r IH]; intros aw H pre tok post Hocc.
  - destruct Hocc as (Hs & (y & c1 & c2 & u3 & u4 & d1 & d2 & d3 & d4 & -> & _)
                      & _).
    destruct pre; discriminate.
  - cbn [Index.search_year] in H.
    destruct (negb aw && Index.year_here uc (u :: r)) eqn:E; [discriminate|].
    destruct pre as [|u' pre].
    + apply occurs_at_head in Hocc. congruence.
    + apply occurs_in_tail in Hocc. exact (IH _ H _ _ _ Hocc).
Qed.

Lemma year_at_occurs :
  forall uc seg pre tok post y,
    year_at uc seg pre tok post y ->
    occurs uc false (PyStr.chars seg) pre tok post.
Proof.
  intros uc seg pre tok post y (Hs & Hy & He & Hp). repeat split; eauto.
Qed.

Lemma search_none_no_token :
  forall uc seg,
    Index.search_year uc false (PyStr.chars seg) = None ->
    ~ has_year_token uc seg.
Proof.
  intros uc seg H (pre & tok & post & y & Hat).
  apply year_at_occurs in Hat. eapply search_year_none; eassumption.
Qed.

Lemma search_some_first_year :
  forall uc seg tok,
    Index.search_year uc false (PyStr.chars seg) = Some tok ->
    exists y, PyStr.int_of_chars uc tok = Some y /\ first_year_of uc seg y.
Proof.
  intros uc seg tok H.
  destruct (@search_year_some _ _ _ _ H) as (pre & post & Hocc & Hmin).
  destruct Hocc as (Hs & (y & Hy) & Hp & He).
  exists y. split; [apply year_token_to_int; exact Hy|].
  exists pre, tok, post. split; [repeat split; assumption|].
  intros pre' tok' post' y' Hat. apply year_at_occurs in Hat.
  exact (Hmin _ _ _ Hat).
Qed.

Lemma extract_year_returns :
  forall uc parts,
    (exists y,
       Index.extract_year_from_path uc parts = Ok (Some y) /\
       exists earlier seg later,
         parts = earlier ++ seg :: later /\
         Forall (fun s => ~ has_year_token uc s) earlier /\
         first_year_of uc seg y) \/
    (Index.extract_year_from_path uc parts = Ok None /\
     Forall (fun s => ~ has_year_token uc s) parts).
Proof.
  intros uc. induction parts as [|part rest IH]; simpl.
  - right. split; [reflexivity|constructor].
  - destruct (Index.search_year uc false (PyStr.chars part)) as [tok|] eqn:E.
    + destruct (@search_some_first_year _ _ _ E) as (y & Hint & Hfirst).
      rewrite Hint. left. exists y. split; [reflexivity|].
      exists [], part, rest. repeat split; [constructor|exact Hfirst].
    + apply search_none_no_token in E.
      destruct IH as [(y & Hrun & earlier & seg & later & -> & Hall & Hf)
                     |[Hrun Hall]].
      * left. exists y. split; [exact Hrun|].
        exists (part :: earlier), seg, later. repeat split; auto.
      * right. split; [exact Hrun|]. constructor; assumption.
Qed.

(** C8.  Whatever the classes of the characters beyond ASCII, the year
    extraction never fails.  It returns a year exactly when some
    segment of the path holds a word-bounded token of four decimal
    digits that reads a year from 1900 to 2099 (its first two digits in
    ASCII, as the pattern spells them); the year returned is the
    leftmost such token of the first segment that holds one.  It
    returns [None] exactly when no segment holds such a token, and only
    then is the file grouped under the key "no-year". *)
Theorem year_extraction_finds_first_token :
  forall (uc : string -> PyStr.uclass) (parts : list string),
    (exists r, Index.extract_year_from_path uc parts = Ok r) /\
    ((exists y, Index.extract_year_from_path uc parts = Ok (Some y))
     <-> Exists (has_year_token uc) parts) /\
    (forall y,
       Index.extract_year_from_path uc parts = Ok (Some y) ->
       (1900 <= y <= 2099)%Z /\
       exists earlier seg later,
         parts = earlier ++ seg :: later /\
         Forall (fun s => ~ has_year_token uc s) earlier /\
         first_year_of uc seg y) /\
    (Index.extract_year_from_path uc parts = Ok None
     <-> Forall (fun s => ~ has_year_token uc s) parts) /\
    (forall r,
       Index.extract_year_from_path uc parts = Ok r ->
       (Index.year_key_of r = Index.NoYear <-> r = None)).
Proof.
  intros uc parts.
  assert (Hno : Forall (fun s => ~ has_year_token uc s) parts ->
                ~ Exists (has_year_token uc) parts).
  { intros Hall Hex. apply Exists_exists in Hex. destruct Hex as (s & Hin & Hs).
    rewrite Forall_forall in Hall. exact (Hall s Hin Hs). }
  assert (Hrange : forall seg y, first_year_of uc seg y -> (1900 <= y <= 2099)%Z).
  { intros seg y (pre & tok & post & (_ & Hy & _) & _).
    destruct Hy as (c1 & c2 & u3 & u4 & d1 & d2 & d3 & d4 & Hy).
    apply Hy. }
  destruct (extract_year_returns uc parts)
    as [(y & Hrun & earlier & seg & later & Hparts & Hall & Hfirst)|[Hrun Hall]];
    rewrite Hrun.
  - split; [eauto|]. split; [|split; [|split]].
    + split; [|eauto]. intros _. rewrite Hparts.
      apply Exists_app. right. constructor.
      destruct Hfirst as (pre & tok & post & Hat & _).
      exists pre, tok, post, y. exact Hat.
    + intros y' Hy'. injection Hy' as <-. split; [eapply Hrange; eauto|].
      exists earlier, seg, later. auto.
    + split; [discriminate|]. intros Hnone. exfalso.
      apply (Hno Hnone). rewrite Hparts. apply Exists_app. right. constructor.
      destruct Hfirst as (pre & tok & post & Hat & _).
      exists pre, tok, post, y. exact Hat.
    + intros r Hr. injection Hr as <-. simpl.
      apply Hrange in Hfirst.
      destruct (Z.eqb_spec y 0); [lia|]. split; discriminate.
  - split; [eauto|]. split; [|split; [|split]].
    + split; [intros [y Hy]; discriminate|]. intros Hex. exfalso.
      exact (Hno Hall Hex).
    + intros y Hy. discriminate.
    + split; auto.
    + intros r Hr. injection Hr as <-. simpl. split; reflexivity.
Qed.

(** The year of some paths: a year folder, a year inside a file name,
    and tokens the pattern does not take (an underscore and a letter are
    word characters; 1899 and 2100 are out of range). *)
Example year_of_a_year_folder :
  forall uc,
    Index.extract_year_from_path uc
      ["downloads"; "2013"; "12_ab12cd34_memo.pdf"]
    = Ok (Some 2013%Z).
Proof. intros uc. vm_compute. reflexivity. Qed.

Example year_inside_a_file_name :
  forall uc,
    Index.extract_year_from_path uc ["scans"; "memo-2021.pdf"]
    = Ok (Some 2021%Z).
Proof. intros uc. vm_compute. reflexivity. Qed.

Example year_glued_to_a_word :
  forall uc,
    Index.extract_year_from_path uc
      ["2013_docs"; "a1999b"; "1899"; "2100"; "x.pdf"]
    = Ok None.
Proof. intros uc. vm_compute. reflexivity. Qed.

(** Beyond ASCII: an accented letter and a superscript digit are word
    characters, so the year that follows them is not bounded; a byte
    that is no UTF-8 is none; the last two digits of a year may be
    fullwidth digits, the first two may not. *)
Example year_in_names_beyond_ascii :
  PyStr.chars accented_2013
  = [PyStr.Wide (text_of_bytes [195; 169]); PyStr.Plain "2"; PyStr.Plain "0";
     PyStr.Plain "1"; PyStr.Plain "3"] /\
  PyStr.chars stray_2013
  = [PyStr.Stray (ascii_of_nat 233); PyStr.Plain "2"; PyStr.Plain "0";
     PyStr.Plain "1"; PyStr.Plain "3"] /\
  Index.extract_year_from_path sample_classes [accented_2013] = Ok None /\
  Index.extract_year_from_path sample_classes
    [text_of_bytes [194; 178] +++ "2013"] = Ok None /\
  Index.extract_year_from_path sample_classes [stray_2013] = Ok (Some 2013%Z) /\
  Index.extract_year_from_path sample_classes [half_fullwidth_2013]
  = Ok (Some 2013%Z) /\
  Index.extract_year_from_path sample_classes [fullwidth_2013] = Ok None.
Proof. vm_compute. repeat split; reflexivity. Qed.

(* ================================================================== *)
(** * Further properties of the model                                  *)
(* ================================================================== *)

(** ** The bound on the number of pages does not matter once the loop
    has ended *)

Lemma year_ends_more_fuel :
  forall urljoin http fuel base_url yr page n,
    year_ends urljoin http fuel base_url yr page n = true ->
    forall k,
      year_ends urljoin http (k + fuel) base_url yr page n = true /\
      year_entries urljoin http (k + fuel) base_url yr page n
      = year_entries urljoin http fuel base_url yr page n.
Proof.
  intros urljoin http fuel. induction fuel as [|fuel IH];
    intros base_url yr page n H k; [discriminate|].
  rewrite Nat.add_succ_r. cbn [year_ends year_entries] in *.
  destruct (page_outcome urljoin http base_url yr page n) as [[why|]|e].
  - split; reflexivity.
  - destruct (IH _ _ _ _ H k) as [He Hs]. rewrite He, Hs. split; reflexivity.
  - discriminate.
Qed.

Lemma year_ends_does_not_raise :
  forall urljoin http fuel base_url yr page n,
    year_ends urljoin http fuel base_url yr page n = true ->
    forall k, year_raises urljoin http (k + fuel) base_url yr page n = None.
Proof.
  intros urljoin http fuel. induction fuel as [|fuel IH];
    intros base_url yr page n H k; [discriminate|].
  rewrite Nat.add_succ_r. cbn [year_ends year_raises] in *.
  destruct (page_outcome urljoin http base_url yr page n) as [[why|]|e].
  - reflexivity.
  - exact (IH _ _ _ _ H k).
  - discriminate.
Qed.

(** A crawl that ends within [fuel] pages returns the same list under
    every larger bound. *)
Lemma scrape_year_fuel_enough :
  forall urljoin http db_fails fuel base_url yr w pdfs w',
    Crawl.scrape_year urljoin http db_fails fuel base_url yr w
    = (Ok (Some pdfs), w') ->
    forall k,
      fst (Crawl.scrape_year urljoin http db_fails (k + fuel) base_url yr w)
      = Ok (Some pdfs).
Proof.
  intros urljoin http db_fails fuel base_url yr w pdfs w' H k.
  unfold Crawl.scrape_year in *.
  destruct (scrape_loop_run urljoin http db_fails fuel base_url yr 1 [] w)
    as (w1 & new1 & Hrun1 & _).
  destruct (scrape_loop_run urljoin http db_fails (k + fuel) base_url yr 1 [] w)
    as (w2 & new2 & Hrun2 & _).
  rewrite Hrun1 in H. rewrite Hrun2. unfold year_result in *.
  destruct (year_raises urljoin http fuel base_url yr 1 (net_clock w)) eqn:Er;
    [discriminate|].
  destruct (year_ends urljoin http fuel base_url yr 1 (net_clock w)) eqn:E;
    [|discriminate].
  destruct (year_ends_more_fuel urljoin http fuel base_url yr 1 (net_clock w) E k)
    as [He Hs].
  rewrite (year_ends_does_not_raise urljoin http fuel base_url yr 1
             (net_clock w) E k).
  rewrite He, Hs. simpl. injection H as <- _. reflexivity.
Qed.

(** ** The fallback always yields a URL the orchestrator accepts *)

Lemma contains_inside :
  forall sub pre post, PyStr.contains sub (pre +++ sub +++ post) = true.
Proof.
  intros sub pre post. induction pre as [|c pre IH].
  - simpl append. pose proof (prefix_append sub post) as Hp.
    destruct (sub +++ post); cbn [PyStr.contains]; rewrite Hp; reflexivity.
  - change (String c pre +++ sub +++ post)
      with (String c (pre +++ sub +++ post)).
    cbn [PyStr.contains]. rewrite IH. apply orb_true_r.
Qed.


Lemma truthy_append_r :
  forall a b, PyStr.truthy b = true -> PyStr.truthy (a +++ b) = true.
Proof. intros [|c a] b H; simpl; auto. Qed.


(** ** The flags the crawler writes *)

(** Every row an upsert leaves in the table is flagged 'Yes' or 'No'
    when the rows before it were. *)
Lemma upsert_keeps_flags_in_domain :
  forall c w,
    Forall flag_in_domain (view w) ->
    Forall flag_in_domain (view (upsert_ok c w)).
Proof.
  intros c w H. simpl. unfold Store.insert_or_replace.
  apply Forall_app. split.
  - unfold Store.rows_except. rewrite Forall_forall in *.
    intros r Hr. apply filter_In in Hr. apply H. tauto.
  - constructor; [|constructor]. unfold flag_in_domain, flag_for. simpl.
    destruct (Store.select_exists (call_page c) (view w)); auto.
Qed.

(** ** The models of the libraries on examples *)

Example urlparse_of_a_listing_url :
  Url.urlparse
    "https://www.aclu.org/foia-collections/nsa-documents-search/page/3?document_date=2013#listings"
  = Url.mkParsed "https" "www.aclu.org"
      "/foia-collections/nsa-documents-search/page/3" ""
      "document_date=2013" "listings".
Proof. vm_compute. reflexivity. Qed.

Example urlparse_params_of_the_last_segment :
  Url.urlparse "http://x/a;b/c;p?q;r#f"
  = Url.mkParsed "http" "x" "/a;b/c" "p" "q;r" "f".
Proof. vm_compute. reflexivity. Qed.

Example parse_qs_groups_and_drops_blanks :
  Url.parse_qs "a=1&b=&c&a=2&d=x+y%20z"
  = [("a", ["1"; "2"]); ("d", ["x y z"])].
Proof. vm_compute. reflexivity. Qed.

Example urlencode_quotes_again :
  Url.urlencode [("a", ["1"; "2"]); ("d", ["x y/z"])] = "a=1&a=2&d=x+y%2Fz".
Proof. vm_compute. reflexivity. Qed.

Example int_of_page_numbers :
  map PyStr.to_int ["1"; " 12 "; "+3"; "-7"; "1_000"; "Next"; ""; "1 2"; "_1"]
  = [Some 1; Some 12; Some 3; Some (-7); Some 1000; None; None; None; None]%Z.
Proof. vm_compute. reflexivity. Qed.

Example date_of_a_card :
  Crawl.card_date (card "/documents/memo-a" "Memo A" "May 1, 2013")
  = "May 1, 2013" /\
  Crawl.card_title (card "/documents/memo-a" "Memo A" "May 1, 2013")
  = "Memo A" /\
  Crawl.card_date (Soup.Tag "a" ["document-listing-card"] [("href", "/x")] [])
  = "Unknown Date".
Proof. repeat split; vm_compute; reflexivity. Qed.

Example string_of_nested_tags :
  Soup.string_of (Soup.Tag "a" [] [] [Soup.Tag "b" [] [] [Soup.Text "Download document"]])
  = Some "Download document" /\
  Soup.string_of (Soup.Tag "a" [] [] [Soup.Tag "i" [] [] []; Soup.Text "Download document"])
  = None.
Proof. split; reflexivity. Qed.

Example unique_file_name :
  Download.unique_fname (fun _ => "0a1b2c3d4e5f60718293a4b5c6d7e8f901234567")
    12 "https://www.aclu.org/files/assets/NSA%20memo.pdf?download=1"
  = "12_0a1b2c3d_NSA memo.pdf".
Proof. vm_compute. reflexivity. Qed.

(* ================================================================== *)
(** * The names of the downloaded files                                *)
(* ================================================================== *)

(** Replacing a character takes it out of the text. *)
Lemma replace_char_forall :
  forall (p : ascii -> bool) c new s,
    PyStr.forallb_str p new = true ->
    PyStr.forallb_str (fun a => Ascii.eqb a c || p a) s = true ->
    PyStr.forallb_str p (PyStr.replace (String c EmptyString) new s) = true.
Proof.
  intros p c new s Hnew. unfold PyStr.replace.
  induction s as [|a r IH]; intros Hs; [reflexivity|].
  simpl in Hs. apply andb_true_iff in Hs. destruct Hs as [Ha Hr].
  cbn [PyStr.replace_from String.prefix String.length Nat.sub].
  destruct (ascii_dec c a) as [->|Hne].
  - assert (E : String.prefix EmptyString r = true) by (destruct r; reflexivity).
    rewrite E, forallb_str_app, Hnew. simpl. apply IH. exact Hr.
  - simpl. rewrite (IH Hr), andb_true_r.
    apply orb_true_iff in Ha. destruct Ha as [Ha|Ha]; [|exact Ha].
    apply Ascii.eqb_eq in Ha. congruence.
Qed.

Lemma split_once_fst_forall :
  forall (p : ascii -> bool) c s,
    PyStr.forallb_str p s = true ->
    PyStr.forallb_str p (fst (PyStr.split_once c s)) = true.
Proof.
  intros p c s. induction s as [|a r IH]; intros H; [reflexivity|].
  simpl in *. apply andb_true_iff in H. destruct H as [Ha Hr].
  destruct (Ascii.eqb a c); [reflexivity|].
  destruct (PyStr.split_once c r) as [before after]. simpl in *.
  rewrite Ha. exact (IH Hr).
Qed.

Lemma split_once_fst_avoids :
  forall c s,
    PyStr.forallb_str (fun a => negb (Ascii.eqb a c))
                      (fst (PyStr.split_once c s)) = true.
Proof.
  intros c s. induction s as [|a r IH]; [reflexivity|].
  simpl. destruct (Ascii.eqb a c) eqn:E; [reflexivity|].
  destruct (PyStr.split_once c r) as [before after]. simpl in *.
  rewrite E. exact IH.
Qed.

Lemma substring_forall :
  forall (p : ascii -> bool) m s n,
    PyStr.forallb_str p s = true ->
    PyStr.forallb_str p (String.substring n m s) = true.
Proof.
  intros p m s. revert m. induction s as [|a r IH]; intros m n H.
  - destruct n, m; reflexivity.
  - simpl in H. apply andb_true_iff in H. destruct H as [Ha Hr].
    destruct n as [|n].
    + destruct m as [|m]; [reflexivity|]. simpl. rewrite Ha. apply IH. exact Hr.
    + simpl. apply IH. exact Hr.
Qed.

Lemma substring_length_le :
  forall m s, String.length (String.substring 0 m s) <= m.
Proof.
  induction m as [|m IH]; intros s.
  - destruct s; simpl; lia.
  - destruct s as [|a r]; simpl; [lia|]. specialize (IH r). lia.
Qed.

Lemma forallb_str_and :
  forall (p q : ascii -> bool) s,
    PyStr.forallb_str p s = true -> PyStr.forallb_str q s = true ->
    PyStr.forallb_str (fun a => p a && q a) s = true.
Proof.
  intros p q s. induction s as [|a r IH]; intros Hp Hq; [reflexivity|].
  simpl in *. apply andb_true_iff in Hp. apply andb_true_iff in Hq.
  destruct Hp as [-> Hp], Hq as [-> Hq]. simpl. exact (IH Hp Hq).
Qed.

Lemma sanitize_filename_plain :
  forall name,
    plain_name (Download.sanitize_filename name) = true /\
    String.length (Download.sanitize_filename name) <= 200.
Proof.
  intros name. unfold Download.sanitize_filename.
  set (s0 := PyStr.strip name).
  set (s1 := PyStr.replace "/" "_" s0).
  set (s2 := PyStr.replace Download.backslash "_" s1).
  set (s3 := fst (PyStr.split_once "?"%char s2)).
  set (s4 := fst (PyStr.split_once "#"%char s3)).
  assert (H1 : PyStr.forallb_str (fun a => negb (Ascii.eqb a "/"%char)) s1 = true).
  { apply replace_char_forall; [reflexivity|].
    clear. induction s0 as [|a r IH]; [reflexivity|].
    simpl. rewrite IH. destruct (Ascii.eqb a "/"); reflexivity. }
  assert (H2 : PyStr.forallb_str
                 (fun a => negb (Ascii.eqb a "/"%char)
                           && negb (Ascii.eqb a (ascii_of_nat 92))) s2 = true).
  { apply replace_char_forall; [reflexivity|].
    revert H1. apply forallb_str_impl. intros c Hc. rewrite Hc.
    destruct (Ascii.eqb c (ascii_of_nat 92)); reflexivity. }
  assert (H3 : PyStr.forallb_str
                 (fun a => (negb (Ascii.eqb a "/"%char)
                            && negb (Ascii.eqb a (ascii_of_nat 92)))
                           && negb (Ascii.eqb a "?"%char)) s3 = true).
  { apply forallb_str_and.
    - apply split_once_fst_forall. exact H2.
    - apply split_once_fst_avoids. }
  assert (H4 : plain_name s4 = true).
  { unfold plain_name.
    apply forallb_str_impl
      with (p := fun a => ((negb (Ascii.eqb a "/"%char)
                            && negb (Ascii.eqb a (ascii_of_nat 92)))
                           && negb (Ascii.eqb a "?"%char))
                          && negb (Ascii.eqb a "#"%char)).
    - intros c Hc. unfold is_reserved. rewrite !negb_orb. exact Hc.
    - apply forallb_str_and.
      + apply split_once_fst_forall. exact H3.
      + apply split_once_fst_avoids. }
  destruct (200 <? String.length s4)%nat eqn:E.
  - split.
    + apply substring_forall. exact H4.
    + apply substring_length_le.
  - split; [exact H4|]. apply Nat.ltb_ge in E. exact E.
Qed.

Lemma graphic_not_space :
  forall c, is_graphic c = true -> PyStr.is_space c = false.
Proof.
  intros [[] [] [] [] [] [] [] []]; vm_compute; intros H;
    try discriminate H; reflexivity.
Qed.

Lemma lstrip_by_keeps :
  forall p s,
    PyStr.forallb_str (fun x => negb (p x)) s = true ->
    PyStr.lstrip_by p s = s.
Proof.
  intros p [|x s]; simpl; [reflexivity|].
  intros H. apply andb_true_iff in H. destruct H as [Hx _].
  apply negb_true_iff in Hx. rewrite Hx. reflexivity.
Qed.

Lemma sanitize_filename_keeps :
  forall name,
    graphic_plain_name name = true -> String.length name <= 200 ->
    Download.sanitize_filename name = name.
Proof.
  intros name Hg Hlen. unfold graphic_plain_name in Hg.
  assert (Hsp : PyStr.forallb_str (fun x => negb (PyStr.is_space x)) name = true).
  { revert Hg. apply forallb_str_impl. intros c Hc.
    apply andb_true_iff in Hc. destruct Hc as [Hc _].
    rewrite (graphic_not_space c Hc). reflexivity. }
  assert (Hno : forall c, is_reserved c = true ->
            PyStr.forallb_str (fun x => negb (Ascii.eqb x c)) name = true).
  { intros c Hc. revert Hg. apply forallb_str_impl. intros x Hx.
    apply andb_true_iff in Hx. destruct Hx as [_ Hx].
    destruct (Ascii.eqb x c) eqn:E; [|reflexivity].
    apply Ascii.eqb_eq in E. subst x. rewrite Hc in Hx. discriminate Hx. }
  unfold Download.sanitize_filename, PyStr.strip.
  rewrite (rstrip_by_keeps _ _ Hsp), (lstrip_by_keeps _ _ Hsp).
  rewrite (replace_absent "/" "_" name)
    by (apply contains_char_absent, Hno; reflexivity).
  unfold Download.backslash.
  rewrite (replace_absent _ "_" name)
    by (apply contains_char_absent, Hno; reflexivity).
  rewrite (split_once_absent "?"%char name) by (apply Hno; reflexivity).
  simpl fst.
  rewrite (split_once_absent "#"%char name) by (apply Hno; reflexivity).
  simpl fst.
  destruct (200 <? String.length name)%nat eqn:E; [|reflexivity].
  apply Nat.ltb_lt in E. lia.
Qed.

(** X1.  Whatever the name, [sanitize_filename] returns at most 200
    characters, none of which is a slash, a backslash, a question mark
    or a hash sign; and it returns unchanged a name of at most 200
    printable ASCII characters that has neither a blank nor one of
    these four characters. *)
Theorem sanitized_names_are_plain :
  (forall name,
     plain_name (Download.sanitize_filename name) = true /\
     String.length (Download.sanitize_filename name) <= 200) /\
  (forall name,
     graphic_plain_name name = true -> String.length name <= 200 ->
     Download.sanitize_filename name = name) /\
  Download.sanitize_filename " a/b?c#d " = "a_b".
Proof.
  split; [exact sanitize_filename_plain|].
  split; [exact sanitize_filename_keeps|]. reflexivity.
Qed.

(** ** No two rows share a destination *)

(** [str] is injective on the integers. *)
Lemma of_Z_inj : forall a b, PyStr.of_Z a = PyStr.of_Z b -> a = b.
Proof.
  intros a b H. unfold PyStr.of_Z in H.
  assert (E : Z.to_int a = Z.to_int b).
  { pose proof (NilEmpty.isi (Z.to_int a)) as Ha.
    pose proof (NilEmpty.isi (Z.to_int b)) as Hb.
    rewrite H in Ha. congruence. }
  rewrite <- (DecimalZ.of_to a), <- (DecimalZ.of_to b), E. reflexivity.
Qed.

Lemma append_inj_l : forall a b c : string, a +++ b = a +++ c -> b = c.
Proof.
  induction a as [|x a IH]; intros b c H; simpl in H; [exact H|].
  injection H as H. exact (IH _ _ H).
Qed.

(** A printed integer followed by a character no integer holds ends at
    that character. *)
Lemma of_Z_prefix_inj :
  forall c a b x y,
    is_sign_or_digit c = false ->
    PyStr.of_Z a +++ String c x = PyStr.of_Z b +++ String c y ->
    a = b /\ x = y.
Proof.
  intros c a b x y Hc H.
  assert (Hav : forall n,
            PyStr.forallb_str (fun z => negb (Ascii.eqb z c)) (PyStr.of_Z n)
            = true).
  { intros n. apply forallb_str_impl with (p := is_sign_or_digit).
    - intros z Hz. destruct (Ascii.eqb z c) eqn:E; [|reflexivity].
      apply Ascii.eqb_eq in E. congruence.
    - apply of_Z_chars. }
  pose proof (cut_at c (PyStr.of_Z a) x (Hav a)) as Ea.
  pose proof (cut_at c (PyStr.of_Z b) y (Hav b)) as Eb.
  rewrite H in Ea. rewrite Ea in Eb. injection Eb as E1 E2.
  split; [apply of_Z_inj; exact E1|exact E2].
Qed.

Lemma unique_fname_inj :
  forall sha1 rid1 rid2 url1 url2,
    Download.unique_fname sha1 rid1 url1 = Download.unique_fname sha1 rid2 url2 ->
    rid1 = rid2.
Proof.
  intros sha1 rid1 rid2 url1 url2 H. unfold Download.unique_fname in H.
  apply (of_Z_prefix_inj "_"%char) in H; [tauto|reflexivity].
Qed.

(** The name of a year directory: not empty and without a slash. *)
Lemma year_str_segment :
  forall yr,
    PyStr.truthy (Download.year_str yr) = true /\
    PyStr.forallb_str (fun c => negb (Ascii.eqb c "/"%char))
                      (Download.year_str yr) = true.
Proof.
  intros [y|]; simpl; [|split; reflexivity].
  split; [apply of_Z_truthy|].
  apply (of_Z_avoids (fun c => Ascii.eqb c "/"%char)). by_sign_or_digit.
Qed.

Lemma truthy_app_r : forall a b, PyStr.truthy b = true -> PyStr.truthy (a +++ b) = true.
Proof. intros [|x a] b H; simpl; auto. Qed.

(** The destination of a row: a prefix that depends on the output
    directory alone, the year directory, a slash and the file name. *)
Lemma dest_path_shape :
  forall out,
  exists pre,
    forall sha1 rid url yr,
      Download.dest_path_of sha1 out (rid, url, yr)
      = pre +++ Download.year_str yr +++ "/" +++ Download.unique_fname sha1 rid url.
Proof.
  intros out.
  assert (Hdir : forall pre yr b,
            Download.path_join (pre +++ Download.year_str yr) b
            = (pre +++ Download.year_str yr) +++ "/" +++ b).
  { intros pre yr b. destruct (year_str_segment yr) as [Ht Hs].
    unfold Download.path_join.
    destruct (pre +++ Download.year_str yr) eqn:E.
    - pose proof (truthy_app_r pre _ Ht) as Hn. rewrite E in Hn. discriminate.
    - rewrite <- E. unfold PyStr.rstrip_char.
      rewrite rstrip_by_app; [rewrite String.eqb_refl; reflexivity|exact Ht|].
      revert Hs. apply forallb_str_impl. intros c Hc.
      rewrite Ascii.eqb_sym. exact Hc. }
  unfold Download.dest_path_of.
  destruct out as [|c out'] eqn:Eo.
  - exists "". intros. exact (Hdir "" yr _).
  - rewrite <- Eo.
    assert (Ej : forall b,
              Download.path_join out b
              = if String.eqb (PyStr.rstrip_char "/" out) out
                then out +++ "/" +++ b else out +++ b).
    { intros b. rewrite Eo. reflexivity. }
    destruct (String.eqb (PyStr.rstrip_char "/" out) out).
    + exists (out +++ "/"). intros. rewrite Ej.
      replace (out +++ "/" +++ Download.year_str yr)
        with ((out +++ "/") +++ Download.year_str yr)
        by (rewrite append_assoc; reflexivity).
      rewrite Hdir. rewrite !append_assoc. reflexivity.
    + exists out. intros. rewrite Ej, Hdir. rewrite !append_assoc. reflexivity.
Qed.

Lemma dest_path_inj :
  forall sha1 out x1 x2,
    Download.dest_path_of sha1 out x1 = Download.dest_path_of sha1 out x2 ->
    rowid_of x1 = rowid_of x2.
Proof.
  intros sha1 out [[r1 u1] y1] [[r2 u2] y2] H.
  destruct (dest_path_shape out) as [pre Hshape].
  rewrite !Hshape in H. apply append_inj_l in H.
  destruct (year_str_segment y1) as [_ H1].
  destruct (year_str_segment y2) as [_ H2].
  pose proof (cut_at "/"%char _ (Download.unique_fname sha1 r1 u1) H1) as E1.
  pose proof (cut_at "/"%char _ (Download.unique_fname sha1 r2 u2) H2) as E2.
  change (Download.year_str y1 +++ "/" +++ Download.unique_fname sha1 r1 u1)
    with (Download.year_str y1 +++ String "/" (Download.unique_fname sha1 r1 u1)) in H.
  change (Download.year_str y2 +++ "/" +++ Download.unique_fname sha1 r2 u2)
    with (Download.year_str y2 +++ String "/" (Download.unique_fname sha1 r2 u2)) in H.
  rewrite H in E1. rewrite E1 in E2. injection E2 as _ E2.
  apply unique_fname_inj in E2. exact E2.
Qed.

Lemma load_rows_rowids :
  forall t inc,
    NoDup (map Store.rowid t) ->
    NoDup (map rowid_of (Download.load_rows t inc)).
Proof.
  intros t inc. induction t as [|r t IH]; intros H; simpl.
  - constructor.
  - inversion H as [|? ? Hnot Hrest]; subst.
    rewrite map_app. specialize (IH Hrest).
    assert (Hin : forall z, In z (map rowid_of (Download.load_rows t inc)) ->
                            In z (map Store.rowid t)).
    { intros z Hz. apply in_map_iff in Hz. destruct Hz as (x & <- & Hx).
      apply load_rows_selects in Hx. destruct Hx as (r' & link & Hr' & -> & _).
      apply in_map_iff. exists r'. split; [reflexivity|exact Hr']. }
    destruct (Store.DirectPDF_Link r) as [link|]; [|exact IH].
    destruct (Download.has_link r && (inc || Download.null_or_no r)); [|exact IH].
    simpl. constructor; [|exact IH].
    intro Hz. apply Hnot. apply Hin. exact Hz.
Qed.

(** X2.  Rows with different rowids never have the same destination,
    whatever their links, their years, the output directory and the
    digest: the rowid that starts the file name tells them apart.  So
    the destinations of the rows of a run are pairwise distinct as soon
    as the rowids of the table are. *)
Theorem destinations_are_distinct :
  forall (sha1 : string -> string) (out : string),
    (forall x1 x2,
       rowid_of x1 <> rowid_of x2 ->
       Download.dest_path_of sha1 out x1 <> Download.dest_path_of sha1 out x2) /\
    (forall (t : Store.table) (include_duplicates : bool),
       NoDup (map Store.rowid t) ->
       NoDup (map (Download.dest_path_of sha1 out)
                  (processed t include_duplicates))).
Proof.
  intros sha1 out. split.
  - intros x1 x2 Hne H. apply Hne. exact (dest_path_inj sha1 out x1 x2 H).
  - intros t inc Ht.
    assert (Hr : NoDup (map rowid_of (processed t inc))).
    { apply (Permutation_NoDup (l := map rowid_of (Download.load_rows t inc))).
      - apply Permutation_map. apply sort_rows_perm.
      - apply load_rows_rowids. exact Ht. }
    revert Hr. generalize (processed t inc). intros l.
    induction l as [|x l IH]; intros Hr; simpl; [constructor|].
    inversion Hr as [|? ? Hnot Hrest]; subst.
    constructor; [|exact (IH Hrest)].
    intro Hin. apply in_map_iff in Hin. destruct Hin as (x' & E & Hx').
    apply Hnot. apply in_map_iff. exists x'. split; [|exact Hx'].
    apply (dest_path_inj sha1 out). exact E.
Qed.

Lemma destinations_are_distinct_fetched_table :
  NoDup (map Store.rowid fetched_table) /\
  NoDup (map (Download.dest_path_of constant_digest "downloads")
             (processed fetched_table false)).
Proof.
  assert (H : NoDup (map Store.rowid fetched_table)).
  { simpl. repeat constructor; simpl; intuition discriminate. }
  split; [exact H|].
  exact (proj2 (destinations_are_distinct constant_digest "downloads")
               fetched_table false H).
Defined.

(** ** A second run over files that are in place *)

Lemma path_exists_with_year_dir :
  forall out x fs p,
    Download.path_exists fs p = true ->
    Download.path_exists (with_year_dir out x fs) p = true.
Proof.
  intros out x fs p H. unfold with_year_dir.
  destruct (Download.path_exists fs (Download.path_join out _)); [exact H|].
  simpl. rewrite H. apply orb_true_r.
Qed.

Lemma download_loop_all_in_place :
  forall sha1 aria2c out rows fs,
    (forall x, In x rows ->
       Download.path_exists fs (Download.dest_path_of sha1 out x) = true) ->
    Download.download_loop sha1 aria2c false out rows fs
    = (map (skip_of sha1 out) rows,
       fold_left (fun fs x => with_year_dir out x fs) rows fs).
Proof.
  intros sha1 aria2c out rows. induction rows as [|x rest IH]; intros fs H.
  - reflexivity.
  - pose proof (download_loop_head sha1 aria2c false out x rest fs) as [Hskip _].
    cbv zeta in Hskip. rewrite Hskip.
    + rewrite IH.
      * reflexivity.
      * intros y Hy. apply path_exists_with_year_dir. apply H. right. exact Hy.
    + split; [|reflexivity].
      apply path_exists_with_year_dir. apply H. left. reflexivity.
Qed.

(** X3.  When the file of every selected row is already at its
    destination and [--force] is not given, [main] transfers nothing:
    every row is skipped, in the order of the run, whatever the transfer
    program would do; the file system only gains the year directories
    that were missing, and every path that existed still exists. *)
Theorem run_over_files_in_place_skips_all :
  forall (sha1 : string -> string)
         (aria2c : Download.filesystem -> string -> string ->
                   Download.filesystem + exn)
         (t : Store.table) (include_duplicates : bool) (out : string)
         (fs : Download.filesystem),
    (forall x,
       In x (Download.load_rows t include_duplicates) ->
       Download.path_exists fs (Download.dest_path_of sha1 out x) = true) ->
    let run := Download.main sha1 aria2c t false include_duplicates out fs in
    fst run = map (skip_of sha1 out) (processed t include_duplicates) /\
    snd run = fold_left (fun fs x => with_year_dir out x fs)
                        (processed t include_duplicates) fs /\
    (forall p, Download.path_exists fs p = true ->
               Download.path_exists (snd run) p = true).
Proof.
  intros sha1 aria2c t inc out fs H run. subst run.
  rewrite main_is_loop_over_sorted.
  fold (processed t inc).
  rewrite download_loop_all_in_place.
  - split; [reflexivity|]. split; [reflexivity|].
    simpl. clear H. generalize (processed t inc). intros l. revert fs.
    induction l as [|x l IH]; intros fs p Hp; simpl; [exact Hp|].
    apply IH. apply path_exists_with_year_dir. exact Hp.
  - intros x Hx. apply H.
    apply (Permutation_in x (Permutation_sym (sort_rows_perm _))). exact Hx.
Qed.

Lemma run_over_files_in_place_skips_all_fetched_table :
  fst (Download.main constant_digest no_transfer fetched_table false false
                     "downloads" fetched_files)
  = [ Download.Skipped 1 "downloads/2013/1_0a1b2c3d_a.pdf";
      Download.Skipped 2 "downloads/unknown/2_0a1b2c3d_b.pdf" ].
Proof.
  refine (eq_trans
            (proj1 (@run_over_files_in_place_skips_all constant_digest no_transfer
                      fetched_table false "downloads" fetched_files _)) _).
  - intros x Hx. simpl in Hx.
    destruct Hx as [<-|[<-|[]]]; vm_compute; reflexivity.
  - vm_compute. reflexivity.
Defined.

(* ================================================================== *)
(** * The pagination resolver and the end of a year                    *)
(* ================================================================== *)

Lemma current_page_fold :
  forall l acc,
    fold_left
      (fun current_page a =>
         match PyStr.to_int (Soup.get_text_strip a) with
         | Some page_num =>
             if Soup.has_class "current" a || Soup.named "span" a
             then Some page_num
             else current_page
         | None => current_page
         end) l acc
    = fold_left (fun current_page a =>
                   match gives_page a with
                   | Some k => Some k
                   | None => current_page
                   end) l acc.
Proof.
  induction l as [|a l IH]; intros acc; simpl; [reflexivity|].
  rewrite IH. f_equal. unfold gives_page.
  destruct (PyStr.to_int (Soup.get_text_strip a)); [|reflexivity].
  destruct (Soup.has_class "current" a || Soup.named "span" a); reflexivity.
Qed.

Lemma last_giving_fold :
  forall l acc,
    let r := fold_left (fun current_page a =>
                          match gives_page a with
                          | Some k => Some k
                          | None => current_page
                          end) l acc in
    (Forall (fun b => gives_page b = None) l /\ r = acc) \/
    (exists a k, last_giving l a k /\ r = Some k).
Proof.
  intros l. induction l as [|a l IH] using rev_ind; intros acc r; subst r.
  - left. split; [constructor|reflexivity].
  - rewrite fold_left_app. simpl.
    destruct (gives_page a) as [k|] eqn:Ea.
    + right. exists a, k. split; [|reflexivity].
      exists l, []. repeat split; [exact Ea|constructor].
    + destruct (IH acc) as [[Hall Hr]|(b & k & (before & after & El & Hb & Hafter) & Hr)].
      * left. split; [|exact Hr].
        apply Forall_app. split; [exact Hall|]. constructor; [exact Ea|constructor].
      * right. exists b, k. split; [|exact Hr].
        exists before, (after ++ [a]). split.
        -- rewrite El, <- app_assoc. reflexivity.
        -- split; [exact Hb|].
           apply Forall_app. split; [exact Hafter|].
           constructor; [exact Ea|constructor].
Qed.

Lemma last_giving_unique :
  forall l a k a' k',
    last_giving l a k -> last_giving l a' k' -> k = k'.
Proof.
  intros l a k a' k' (b1 & c1 & E1 & G1 & F1) (b2 & c2 & E2 & G2 & F2).
  revert b2 E1 E2. revert l.
  induction b1 as [|x b1 IH]; intros l b2 E1 E2.
  - destruct b2 as [|y b2]; simpl in *; subst l.
    + injection E2 as -> _. congruence.
    + injection E2 as <- E2. subst c1.
      apply Forall_app in F1. destruct F1 as [_ F1].
      inversion F1; subst. congruence.
  - destruct b2 as [|y b2]; simpl in *; subst l.
    + injection E2 as <- E2. subst c2.
      apply Forall_app in F2. destruct F2 as [_ F2].
      inversion F2; subst. congruence.
    + injection E2 as _ E2. exact (IH _ b2 eq_refl E2).
Qed.


(** X4.  The current page the fallback starts from is the number of the
    LAST page-number element that reads as an integer and is marked
    [current] or is a [span] (any span, marked or not); elements whose
    text is no integer are passed over; there is no current page exactly
    when no element qualifies. *)
Theorem current_page_is_the_last_that_qualifies :
  forall soup : Soup.node,
    let elements := Crawl.page_number_elements soup in
    (Crawl.current_page_of soup = None <->
     Forall (fun a => gives_page a = None) elements) /\
    (forall k,
       Crawl.current_page_of soup = Some k <->
       exists a, last_giving elements a k).
Proof.
  intros soup elements. subst elements.
  unfold Crawl.current_page_of. rewrite current_page_fold.
  destruct (last_giving_fold (Crawl.page_number_elements soup) None)
    as [[Hall Hr]|(a & k & Hlast & Hr)]; cbv zeta in Hr; rewrite Hr.
  - split.
    + split; auto.
    + intros k. split; [discriminate|].
      intros (a & before & after & E & G & _). rewrite E in Hall.
      apply Forall_app in Hall. destruct Hall as [_ Hall].
      inversion Hall; subst. congruence.
  - split.
    + split; [discriminate|].
      intros Hall. destruct Hlast as (before & after & E & G & _).
      rewrite E in Hall. apply Forall_app in Hall. destruct Hall as [_ Hall].
      inversion Hall; subst. congruence.
    + intros k'. split.
      * intros E. injection E as <-. exists a. exact Hlast.
      * intros (a' & Hlast'). f_equal.
        exact (last_giving_unique Hlast Hlast').
Qed.

Example current_page_of_spans :
  Crawl.current_page_of page_numbered_by_spans = Some 9%Z.
Proof. reflexivity. Qed.


(** ** The three ends of the loop over the pages *)

Lemma prefix_split :
  forall a s, String.prefix a s = true -> exists b, s = a +++ b.
Proof.
  induction a as [|c a IH]; intros s H.
  - exists s. reflexivity.
  - destruct s as [|d s]; [discriminate|]. simpl in H.
    destruct (ascii_dec c d) as [->|]; [|discriminate].
    destruct (IH s H) as [b ->]. exists b. reflexivity.
Qed.

(** [sub in s] holds exactly when [s] is some text, [sub], and some
    text. *)
Lemma contains_iff :
  forall sub s,
    PyStr.contains sub s = true <-> exists pre post, s = pre +++ sub +++ post.
Proof.
  intros sub s. split.
  - induction s as [|c s IH]; cbn [PyStr.contains]; intros H.
    + rewrite orb_false_r in H. apply prefix_split in H. destruct H as [b Hb].
      exists "", b. exact Hb.
    + apply orb_true_iff in H. destruct H as [H|H].
      * apply prefix_split in H. destruct H as [b Hb]. exists "", b. exact Hb.
      * destruct (IH H) as (pre & post & ->). exists (String c pre), post.
        reflexivity.
  - intros (pre & post & ->). apply contains_inside.
Qed.

(** The test of the loop, [next_url and 'page/' in next_url], holds
    exactly of a URL that holds the marker. *)
Lemma valid_next_iff :
  forall next_url,
    Crawl.valid_next next_url = true
    <-> exists u, next_url = Some u /\ has_page_marker u.
Proof.
  intros [u|]; simpl.
  - split.
    + intros H. apply andb_true_iff in H. destruct H as [_ H].
      exists u. split; [reflexivity|]. apply contains_iff. exact H.
    + intros (u' & E & Hm). injection E as <-.
      assert (Hc : PyStr.contains "page/" u = true) by (apply contains_iff; exact Hm).
      rewrite Hc, andb_true_r.
      destruct Hm as (pre & post & ->). apply truthy_append_r. reflexivity.
  - split; [discriminate|]. intros (u & E & _). discriminate.
Qed.

Lemma valid_next_false_iff :
  forall next_url,
    Crawl.valid_next next_url = false
    <-> forall u, next_url = Some u -> ~ has_page_marker u.
Proof.
  intros next_url. split.
  - intros H u E Hm.
    assert (Ht : Crawl.valid_next next_url = true)
      by (apply valid_next_iff; eauto).
    congruence.
  - intros H. destruct (Crawl.valid_next next_url) eqn:E; [|reflexivity].
    apply valid_next_iff in E. destruct E as (u & Eu & Hm).
    exfalso. exact (H u Eu Hm).
Qed.

(** C4, the behaviour of the code.  A turn of the loop over the pages of
    a year, whatever the site
    answers and whichever database operations fail.  The turn raises
    only through the two calls no [try] covers: the parser raises on the
    page, or the parser returns entries and the pagination resolver
    raises (both only by the [ValueError] of [urljoin]); the exception
    ends the crawl of the year.  In every other case the turn ends
    normally, and it ends the loop exactly when the page could not be
    fetched, or the parser found no entry on it, or the pagination
    resolver gave no URL containing "page/"; each of the three is enough
    on its own.  The reason recorded is the first of them that applies.
    When the turn ends the loop, the crawl of the year returns the saved
    list; in the one remaining case (a page with entries whose resolver
    gives a URL containing "page/") it goes on with the next page
    number. *)
Theorem crawl_loop_stops_exactly_when :
  forall (urljoin : string -> string -> result string)
         (http : nat -> string -> Crawl.http_outcome)
         (db_fails : nat -> bool) (fuel : nat)
         (base_url : string) (yr page : Z) (all_pdfs : list Crawl.saved)
         (w : World),
    let n := net_clock w in
    exists res w',
      Crawl.page_step urljoin http db_fails base_url yr page all_pdfs w
      = (res, w') /\
      (forall e,
         res = Raise e
         <-> parser_raises urljoin http base_url yr page n e
             \/ (some_entries urljoin http base_url yr page n /\
                 resolver_raises urljoin http base_url yr page n e)) /\
      (forall outcome pdfs,
         res = Ok (outcome, pdfs) ->
         ((exists why, outcome = Crawl.Stop why)
          <-> fetch_fails http base_url yr page n
              \/ zero_entries urljoin http base_url yr page n
              \/ no_next_with_marker urljoin http base_url yr page n) /\
         (outcome = Crawl.Stop Crawl.FetchFailed
          <-> fetch_fails http base_url yr page n) /\
         (outcome = Crawl.Stop Crawl.EmptyPage
          <-> zero_entries urljoin http base_url yr page n) /\
         (outcome = Crawl.Stop Crawl.NoNextPage
          <-> no_next_with_marker urljoin http base_url yr page n /\
              ~ zero_entries urljoin http base_url yr page n) /\
         (outcome = Crawl.Advance
          <-> some_entries urljoin http base_url yr page n /\
              next_with_marker urljoin http base_url yr page n)) /\
      Crawl.scrape_loop urljoin http db_fails (S fuel) base_url yr page
                        all_pdfs w
      = match res with
        | Ok (Crawl.Stop _, pdfs) => (Ok (Some pdfs), w')
        | Ok (Crawl.Advance, pdfs) =>
            Crawl.scrape_loop urljoin http db_fails fuel base_url yr
                              (page + 1)%Z pdfs w'
        | Raise e => (Raise e, w')
        end.
Proof.
  intros urljoin http db_fails fuel base_url yr page all_pdfs w n. subst n.
  destruct (page_step_run urljoin http db_fails base_url yr page all_pdfs w)
    as (w' & Hrun & _).
  do 2 eexists. split; [exact Hrun|].
  split; [|split].
  - intros e.
    unfold page_outcome, parser_raises, some_entries, resolver_raises.
    destruct (listing_page http base_url yr page (net_clock w)) as [soup|].
    + destruct (Crawl.get_detail_pages_from_listing urljoin soup)
        as [[|it items]|e0] eqn:Ei; cbn [turn_result].
      * split; [discriminate|].
        intros [(s & Hs & H)|[(s & it & items & Hs & H) _]];
          injection Hs as <-; congruence.
      * destruct (Crawl.get_next_page_url urljoin soup
                    (Crawl.listing_url base_url page yr)) as [next_url|e1] eqn:En.
        -- split.
           ++ destruct (Crawl.valid_next next_url); discriminate.
           ++ intros [(s & Hs & H)|[_ (s & Hs & H)]];
                injection Hs as <-; congruence.
        -- split.
           ++ intros E. injection E as <-. right. split; eauto.
           ++ intros [(s & Hs & H)|[_ (s & Hs & H)]]; injection Hs as <-.
              ** rewrite Ei in H. discriminate.
              ** rewrite En in H. injection H as <-. reflexivity.
      * split.
        -- intros E. injection E as <-. left. eauto.
        -- intros [(s & Hs & H)|[(s & it & items & Hs & H) _]];
             injection Hs as <-; congruence.
    + cbn [turn_result]. split; [discriminate|].
      intros [(s & Hs & _)|[(s & it & items & Hs & _) _]]; discriminate.
  - intros outcome pdfs Hres.
    unfold page_outcome, fetch_fails, zero_entries, no_next_with_marker,
      some_entries, next_with_marker in *.
    destruct (listing_page http base_url yr page (net_clock w)) as [soup|].
    + assert (Hsame : forall (P : Soup.node -> Prop),
                 (exists s, Some soup = Some s /\ P s) <-> P soup).
      { intros P. split; [intros (s & Hs & H); injection Hs as <-; exact H|eauto]. }
      destruct (Crawl.get_detail_pages_from_listing urljoin soup)
        as [[|it items]|e0] eqn:Ei; cbn [turn_result] in Hres;
        [| |discriminate].
      * injection Hres as <- _.
        split; [split; [intros _; right; left; eauto|eauto]|].
        split; [split; discriminate|].
        split; [split; [eauto|reflexivity]|].
        split.
        -- split; [discriminate|]. intros [_ Hn]. exfalso. apply Hn. eauto.
        -- split; [discriminate|].
           intros [(s & it & items & Hs & H) _]. injection Hs as <-.
           rewrite Ei in H. discriminate.
      * destruct (Crawl.get_next_page_url urljoin soup
                    (Crawl.listing_url base_url page yr)) as [next_url|e1] eqn:En;
          [|discriminate].
        destruct (Crawl.valid_next next_url) eqn:Ev; injection Hres as <- _.
        -- apply valid_next_iff in Ev. destruct Ev as (u & -> & Hm).
           assert (Hno : ~ (exists s nx,
                              Some soup = Some s /\
                              Crawl.get_next_page_url urljoin s
                                (Crawl.listing_url base_url page yr) = Ok nx /\
                              (forall u0, nx = Some u0 -> ~ has_page_marker u0))).
           { intros (s & nx & Hs & Hn & Hall). injection Hs as <-.
             rewrite En in Hn. injection Hn as <-. exact (Hall u eq_refl Hm). }
           split.
           { split; [intros [why H]; discriminate|].
             intros [H|[(s & Hs & H)|H]]; [discriminate| |exact (False_ind _ (Hno H))].
             injection Hs as <-. rewrite Ei in H. discriminate. }
           split; [split; discriminate|].
           split.
           { split; [discriminate|]. intros (s & Hs & H).
             injection Hs as <-. rewrite Ei in H. discriminate. }
           split.
           { split; [discriminate|]. intros [H _]. exact (False_ind _ (Hno H)). }
           split; [intros _|reflexivity].
           split; [exists soup, it, items; auto|exists soup, u; auto].
        -- pose proof (proj1 (valid_next_false_iff next_url) Ev) as Hev.
           clear Ev. rename Hev into Ev.
           split.
           { split; [intros _|eauto]. right. right. exists soup, next_url. auto. }
           split; [split; discriminate|].
           split.
           { split; [discriminate|]. intros (s & Hs & H).
             injection Hs as <-. rewrite Ei in H. discriminate. }
           split.
           { split; [intros _|reflexivity]. split.
             - exists soup, next_url. auto.
             - intros (s & Hs & H). injection Hs as <-. rewrite Ei in H.
               discriminate. }
           split; [discriminate|].
           intros [_ (s & u & Hs & Hn & Hm)]. injection Hs as <-.
           rewrite En in Hn. injection Hn as ->. exact (False_ind _ (Ev u eq_refl Hm)).
    + cbn [turn_result] in Hres. injection Hres as <- _.
      split; [split; [auto|eauto]|].
      split; [split; reflexivity|].
      split; [split; [discriminate|intros (s & Hs & _); discriminate]|].
      split.
      * split; [discriminate|]. intros [(s & nx & Hs & _) _]. discriminate.
      * split; [discriminate|]. intros [(s & it & items & Hs & _) _]. discriminate.
  - cbn [Crawl.scrape_loop]. unfold bind at 1. rewrite Hrun.
    destruct (page_outcome urljoin http base_url yr page (net_clock w))
      as [[why|]|e]; reflexivity.
Qed.

(** The three ends and the one exception on examples: the first page of
    the scenario moves on, its second page has no entry, and a page
    whose first card links to ["//[x"] ends the crawl of the year with
    the exception of [urljoin]. *)
Example turns_of_the_scenario :
  fst (Crawl.page_step join_absolute_path two_entry_site Sqlite.no_faults
         search_url 2013 1 [] empty_world)
  = Ok (Crawl.Advance,
        [ Crawl.mkSaved memo_a "https://www.aclu.org/files/memo-a.pdf" 2013;
          Crawl.mkSaved memo_b "https://www.aclu.org/files/memo-b.pdf" 2013 ]) /\
  fst (Crawl.page_step join_absolute_path two_entry_site Sqlite.no_faults
         search_url 2013 2 [] empty_world)
  = Ok (Crawl.Stop Crawl.EmptyPage, []) /\
  fst (Crawl.page_step join_absolute_path two_entry_site Sqlite.no_faults
         search_url 2013 3 [] empty_world)
  = Ok (Crawl.Stop Crawl.FetchFailed, []) /\
  fst (Crawl.page_step join_absolute_path one_entry_site Sqlite.no_faults
         search_url 2013 1 [] empty_world)
  = Ok (Crawl.Stop Crawl.NoNextPage,
        [ Crawl.mkSaved memo_a "https://www.aclu.org/files/memo-a.pdf" 2013 ]) /\
  fst (Crawl.scrape_year join_absolute_path
         (fun _ _ => Crawl.HttpResponse 200 page_with_malformed_link)
         Sqlite.no_faults 3 search_url 2013 empty_world)
  = Raise invalid_ipv6_url.
Proof. repeat split; vm_compute; reflexivity. Qed.

(* ================================================================== *)
(** * The crawl, step by step, and the store it leaves                 *)
(* ================================================================== *)

Lemma same_store_refl : forall w, same_store w w.
Proof. intros w. repeat split. Qed.

Lemma same_store_trans :
  forall a b c, same_store a b -> same_store b c -> same_store a c.
Proof.
  intros a b c (H1 & H2 & H3) (K1 & K2 & K3).
  repeat split; congruence.
Qed.

(** An upsert reads and writes the database alone. *)
Lemma insert_into_db_same_store :
  forall db_fails k d p y w1 w2,
    same_store w1 w2 ->
    same_store (snd (Sqlite.insert_into_db db_fails k d p y w1))
               (snd (Sqlite.insert_into_db db_fails k d p y w2)).
Proof.
  intros db_fails k d p y w1 w2 (Hc & Hv & Hd).
  unfold Sqlite.insert_into_db. unfold_monad.
  unfold Sqlite.execute_select, Sqlite.execute_insert_or_replace,
    Sqlite.commit, Sqlite.tick_db, same_store.
  simpl. rewrite <- Hc.
  destruct (db_fails (db_clock w1)); simpl.
  { repeat split; congruence. }
  destruct (db_fails (S (db_clock w1))); simpl.
  { repeat split; congruence. }
  destruct (db_fails (S (S (db_clock w1)))); simpl; rewrite Hv;
    repeat split; congruence.
Qed.

Lemma upsert_all_ok :
  forall db_fails calls w, fst (upsert_all db_fails calls w) = Ok tt.
Proof.
  intros db_fails calls. induction calls as [|c calls IH]; intros w; simpl.
  - reflexivity.
  - unfold bind.
    destruct (insert_into_db_run db_fails (call_page c) (call_date c)
                (call_pdf c) (call_year c) w) as (line & w1 & Hrun & _).
    rewrite Hrun. apply IH.
Qed.

Lemma upsert_all_cons :
  forall db_fails c calls w,
    snd (upsert_all db_fails (c :: calls) w)
    = snd (upsert_all db_fails calls
             (snd (Sqlite.insert_into_db db_fails (call_page c) (call_date c)
                     (call_pdf c) (call_year c) w))).
Proof.
  intros db_fails c calls w. simpl. unfold bind.
  destruct (insert_into_db_run db_fails (call_page c) (call_date c)
              (call_pdf c) (call_year c) w) as (line & w1 & Hrun & _).
  rewrite Hrun. reflexivity.
Qed.

Lemma upsert_all_app :
  forall db_fails a b w,
    snd (upsert_all db_fails (a ++ b) w)
    = snd (upsert_all db_fails b (snd (upsert_all db_fails a w))).
Proof.
  intros db_fails a. induction a as [|c a IH]; intros b w.
  - reflexivity.
  - rewrite <- app_comm_cons, !upsert_all_cons. apply IH.
Qed.

Lemma upsert_all_same_store :
  forall db_fails calls w1 w2,
    same_store w1 w2 ->
    same_store (snd (upsert_all db_fails calls w1))
               (snd (upsert_all db_fails calls w2)).
Proof.
  intros db_fails calls. induction calls as [|c calls IH]; intros w1 w2 H.
  - exact H.
  - rewrite !upsert_all_cons. apply IH. apply insert_into_db_same_store. exact H.
Qed.

Lemma steps_app : forall a b, steps (a ++ b) = steps a ++ steps b.
Proof. intros. apply filter_app. Qed.

Section CrawlEffects.

Variable urljoin : string -> string -> result string.
Variable http : nat -> string -> Crawl.http_outcome.

Lemma steps_resolution_log :
  forall o, steps (resolution_log urljoin o) = [].
Proof.
  intros [e|st doc]; simpl; [reflexivity|].
  destruct (st =? 200)%Z; [|reflexivity].
  destruct (Crawl.pdf_link_of urljoin doc); reflexivity.
Qed.

Lemma process_item_effect :
  forall db_fails yr it all_pdfs w,
    let r := resolution urljoin (http (net_clock w) (Crawl.detail_url it)) in
    exists w',
      Crawl.process_item urljoin http db_fails yr it all_pdfs w
      = (Ok (all_pdfs ++ saved_for yr it r), w') /\
      net_clock w' = S (net_clock w) /\
      (exists new, trace w' = trace w ++ new /\
                   steps new = entry_steps yr (it, r)) /\
      same_store w' (snd (upsert_all db_fails (map call_of (saved_for yr it r)) w)).
Proof.
  intros db_fails yr it all_pdfs w r.
  unfold Crawl.process_item.
  unfold bind at 1. rewrite get_direct_pdf_url_run. fold r.
  set (w1 := after_request w _).
  unfold saved_for, entry_steps, events_for. cbn [fst snd].
  destruct r as [p|].
  - destruct (PyStr.truthy p) eqn:Tp.
    + unfold_monad.
      match goal with
      | |- context [Sqlite.insert_into_db ?f ?k ?d ?q ?y ?w0] =>
          pose proof (insert_into_db_same_store f k d q y (w1 := w0) (w2 := w)) as Hsame;
          destruct (insert_into_db_run f k d q y w0)
            as (line & w2 & Hrun & Hnet & Htr & _)
      end.
      rewrite Hrun in *. simpl in Hsame.
      eexists. split; [reflexivity|]. simpl. split; [exact Hnet|].
      split.
      * rewrite Htr. simpl. eexists. split.
        -- rewrite <- !app_assoc. reflexivity.
        -- rewrite !steps_app.
           change (steps (EvRequest ?u :: ?l)) with (EvRequest u :: steps l).
           rewrite steps_resolution_log. reflexivity.
      * unfold bind.
        destruct (insert_into_db_run db_fails (Crawl.detail_url it)
                    (Some (Crawl.doc_date it)) (Some p) (Some yr) w)
          as (line' & w3 & Hrun' & _).
        unfold call_of. simpl. rewrite Hrun' in *. simpl in *.
        apply Hsame. repeat split.
    + unfold_monad. simpl.
      eexists. split; [rewrite app_nil_r; reflexivity|]. simpl.
      split; [reflexivity|]. split.
      * eexists. split.
        -- rewrite <- !app_assoc. reflexivity.
        -- rewrite !steps_app.
           change (steps (EvRequest ?u :: ?l)) with (EvRequest u :: steps l).
           rewrite steps_resolution_log. reflexivity.
      * repeat split.
  - unfold_monad. simpl.
    eexists. split; [rewrite app_nil_r; reflexivity|]. simpl.
    split; [reflexivity|]. split.
    + eexists. split.
      * rewrite <- !app_assoc. reflexivity.
      * rewrite !steps_app.
        change (steps (EvRequest ?u :: ?l)) with (EvRequest u :: steps l).
        rewrite steps_resolution_log. reflexivity.
    + repeat split.
Qed.

Lemma page_steps_app :
  forall yr (a b : list (Crawl.item * option string)),
    flat_map (entry_steps yr) (a ++ b)
    = flat_map (entry_steps yr) a ++ flat_map (entry_steps yr) b.
Proof. intros. apply flat_map_app. Qed.

Lemma process_items_effect :
  forall db_fails yr items all_pdfs w,
    exists w',
      Crawl.process_items urljoin http db_fails yr items all_pdfs w
      = (Ok (all_pdfs ++ page_saved urljoin http yr (net_clock w) items), w') /\
      net_clock w' = List.length items + net_clock w /\
      (exists new,
         trace w' = trace w ++ new /\
         steps new
         = flat_map (entry_steps yr)
             (combine items (resolutions urljoin http (net_clock w) items))) /\
      same_store w'
        (snd (upsert_all db_fails
                (map call_of (page_saved urljoin http yr (net_clock w) items)) w)).
Proof.
  intros db_fails yr items. induction items as [|it rest IH]; intros all_pdfs w.
  - exists w. unfold page_saved. simpl. unfold ret.
    rewrite app_nil_r. split; [reflexivity|]. split; [reflexivity|].
    split; [|apply same_store_refl].
    exists []. rewrite app_nil_r. split; reflexivity.
  - destruct (process_item_effect db_fails yr it all_pdfs w)
      as (w1 & Hrun & Hnet & (new1 & Htr1 & Hev1) & Hst1).
    destruct (IH (all_pdfs ++ saved_for yr it
                    (resolution urljoin (http (net_clock w) (Crawl.detail_url it)))) w1)
      as (w2 & Hrun2 & Hnet2 & (new2 & Htr2 & Hev2) & Hst2).
    exists w2. simpl. unfold bind. rewrite Hrun, Hrun2.
    rewrite Hnet in *. unfold page_saved in *. simpl.
    rewrite <- app_assoc. split; [reflexivity|].
    split; [rewrite Hnet2; lia|]. split.
    + exists (new1 ++ new2). split.
      * rewrite Htr2, Htr1, app_assoc. reflexivity.
      * rewrite steps_app, Hev1, Hev2. reflexivity.
    + rewrite map_app, upsert_all_app.
      eapply same_store_trans; [exact Hst2|].
      apply upsert_all_same_store. exact Hst1.
Qed.

Lemma page_step_effect :
  forall db_fails base_url yr page all_pdfs w,
    let n := net_clock w in
    let items := page_items urljoin http base_url yr page n in
    exists w',
      Crawl.page_step urljoin http db_fails base_url yr page all_pdfs w
      = (turn_result (page_outcome urljoin http base_url yr page n)
           (all_pdfs ++ page_saved urljoin http yr (S n) items),
         w') /\
      net_clock w' = S (List.length items + n) /\
      (exists new,
         trace w' = trace w ++ new /\
         steps new
         = EvRequest (Crawl.listing_url base_url page yr) ::
           flat_map (entry_steps yr)
                    (combine items (resolutions urljoin http (S n) items)) ++
           match page_outcome urljoin http base_url yr page n with
           | Ok Crawl.Advance => [EvSleep]
           | _ => []
           end) /\
      same_store w'
        (snd (upsert_all db_fails
                (map call_of (page_saved urljoin http yr (S n) items)) w)).
Proof.
  intros db_fails base_url yr page all_pdfs w n items. subst n items.
  unfold Crawl.page_step, page_outcome, page_items, listing_page, listing_fetch,
    Crawl.requests_get, Crawl.raise_for_status, turn_result.
  set (url := Crawl.listing_url base_url page yr).
  unfold_monad. unfold lift.
  destruct (http (net_clock w) url) as [e|st doc]; crawl_simpl.
  - eexists. unfold page_saved. simpl. rewrite app_nil_r.
    split; [reflexivity|]. simpl. split; [reflexivity|].
    split; [|repeat split].
    eexists. split; [rewrite <- app_assoc; reflexivity|]. reflexivity.
  - destruct ((400 <=? st) && (st <? 600))%Z; crawl_simpl.
    + eexists. unfold page_saved. simpl. rewrite app_nil_r.
      split; [reflexivity|]. simpl. split; [reflexivity|].
      split; [|repeat split].
      eexists. split; [rewrite <- app_assoc; reflexivity|]. reflexivity.
    + destruct (Crawl.get_detail_pages_from_listing urljoin doc)
        as [[|it items]|e] eqn:Eitems.
      * eexists. unfold page_saved. simpl. rewrite app_nil_r.
        split; [reflexivity|]. simpl. split; [reflexivity|].
        split; [|repeat split].
        eexists. split; [rewrite <- app_assoc; reflexivity|]. reflexivity.
      * match goal with
        | |- context [Crawl.process_items _ _ ?f ?y ?l ?a ?w0] =>
            destruct (process_items_effect f y l a w0)
              as (w1 & Hrun & Hnet & (new & Htr & Hev) & Hst)
        end.
        rewrite Hrun. simpl in Hnet, Htr, Hev. cbn [net_clock] in Hst.
        assert (Hst' : same_store w1
                  (snd (upsert_all db_fails
                          (map call_of
                             (page_saved urljoin http yr (S (net_clock w))
                                         (it :: items))) w))).
        { eapply same_store_trans; [exact Hst|].
          apply upsert_all_same_store. repeat split. }
        destruct (Crawl.get_next_page_url urljoin doc url) as [next_url|e].
        -- destruct (Crawl.valid_next next_url).
           ++ eexists. split; [reflexivity|]. simpl. split; [lia|]. split.
              ** eexists. split.
                 --- rewrite Htr, <- !app_assoc. reflexivity.
                 --- rewrite !steps_app. simpl. rewrite Hev. reflexivity.
              ** exact Hst'.
           ++ eexists. split; [reflexivity|]. simpl. split; [lia|]. split.
              ** eexists. split.
                 --- rewrite Htr, <- !app_assoc. reflexivity.
                 --- rewrite !steps_app. simpl. rewrite Hev, !app_nil_r.
                     reflexivity.
              ** exact Hst'.
        -- eexists. split; [reflexivity|]. simpl. split; [lia|]. split.
           ++ eexists. split.
              ** rewrite Htr, <- !app_assoc. reflexivity.
              ** rewrite !steps_app. simpl. rewrite Hev, !app_nil_r.
                 reflexivity.
           ++ exact Hst'.
      * eexists. unfold page_saved. simpl.
        split; [reflexivity|]. simpl. split; [reflexivity|].
        split; [|repeat split].
        eexists. split; [reflexivity|]. reflexivity.
Qed.

Lemma scrape_loop_effect :
  forall db_fails fuel base_url yr page all_pdfs w,
    let n := net_clock w in
    let entries := year_entries urljoin http fuel base_url yr page n in
    exists w' new,
      Crawl.scrape_loop urljoin http db_fails fuel base_url yr page all_pdfs w
      = (year_result urljoin http fuel base_url yr page n
           (all_pdfs ++ saved_of_entries yr entries), w') /\
      net_clock w' = year_clock urljoin http fuel base_url yr page n /\
      trace w' = trace w ++ new /\
      steps new = year_steps urljoin http fuel base_url yr page n /\
      same_store w'
        (snd (upsert_all db_fails (map call_of (saved_of_entries yr entries)) w)).
Proof.
  intros db_fails fuel. induction fuel as [|fuel IH];
    intros base_url yr page all_pdfs w n entries; subst n entries.
  - exists w, []. unfold year_result. simpl. unfold ret. rewrite app_nil_r.
    repeat split.
  - destruct (page_step_effect db_fails base_url yr page all_pdfs w)
      as (w1 & Hrun & Hnet & (new1 & Htr1 & Hev1) & Hst1).
    unfold year_result.
    cbn [Crawl.scrape_loop year_entries year_ends year_raises year_steps
         year_clock].
    unfold bind at 1. rewrite Hrun.
    unfold saved_of_entries.
    rewrite !flat_map_app.
    fold (page_saved urljoin http yr (S (net_clock w))
            (page_items urljoin http base_url yr page (net_clock w))).
    destruct (page_outcome urljoin http base_url yr page (net_clock w))
      as [[why|]|e] eqn:Eout; cbn [turn_result].
    + exists w1, new1. unfold ret. simpl. rewrite !app_nil_r in *.
      split; [reflexivity|]. repeat split; try assumption; apply Hst1.
    + destruct (IH base_url yr (page + 1)%Z
                  (all_pdfs ++ page_saved urljoin http yr (S (net_clock w))
                                 (page_items urljoin http base_url yr page (net_clock w))) w1)
        as (w2 & new2 & Hrun2 & Hnet2 & Htr2 & Hev2 & Hst2).
      rewrite Hnet in Hrun2, Hnet2, Hev2, Hst2.
      exists w2, (new1 ++ new2). rewrite Hrun2.
      split.
      * unfold year_result, saved_of_entries. rewrite <- app_assoc. reflexivity.
      * split; [exact Hnet2|]. split.
        -- rewrite Htr2, Htr1, app_assoc. reflexivity.
        -- split.
           ++ rewrite steps_app, Hev1, Hev2. simpl.
              rewrite <- app_assoc. reflexivity.
           ++ rewrite map_app, upsert_all_app.
              eapply same_store_trans; [exact Hst2|].
              apply upsert_all_same_store. exact Hst1.
    + exists w1, new1. simpl. rewrite !app_nil_r in *.
      split; [reflexivity|]. repeat split; try assumption; apply Hst1.
Qed.

End CrawlEffects.

(* ================================================================== *)
(** * The invariants of the store                                      *)
(* ================================================================== *)

Lemma rowid_below_next :
  forall t r, In r t -> (Store.rowid r < Store.next_rowid t)%Z.
Proof.
  intros t r H. unfold Store.next_rowid.
  induction t as [|x t IH]; [contradiction|].
  cbn [map fold_right].
  destruct H as [->|H]; [lia|]. specialize (IH H). lia.
Qed.

Lemma sorted_filter :
  forall (p : Store.row -> bool) t,
    rowids_ascend t -> rowids_ascend (filter p t).
Proof.
  intros p t. unfold rowids_ascend. induction t as [|x t IH]; intros H; simpl.
  - constructor.
  - inversion H as [|? ? Hs Hall]; subst.
    destruct (p x); simpl; [|exact (IH Hs)].
    constructor; [exact (IH Hs)|].
    rewrite Forall_forall in *. intros z Hz. apply Hall.
    apply in_map_iff in Hz. destruct Hz as (r & <- & Hr).
    apply filter_In in Hr. apply in_map. tauto.
Qed.

Lemma sorted_snoc :
  forall (l : list Z) z,
    StronglySorted Z.lt l -> Forall (fun x => (x < z)%Z) l ->
    StronglySorted Z.lt (l ++ [z]).
Proof.
  induction l as [|x l IH]; intros z Hs Hall; simpl.
  - repeat constructor.
  - inversion Hs as [|? ? Hs' Hx]; subst.
    inversion Hall as [|? ? Hxz Hall']; subst.
    constructor; [exact (IH z Hs' Hall')|].
    apply Forall_app. split; [exact Hx|]. constructor; [exact Hxz|constructor].
Qed.

Lemma insert_keeps_rowids :
  forall k d p f y t,
    rowids_ascend t -> rowids_ascend (Store.insert_or_replace k d p f y t).
Proof.
  intros k d p f y t H. unfold Store.insert_or_replace, rowids_ascend.
  rewrite map_app. simpl. apply sorted_snoc.
  - apply (sorted_filter _ H).
  - rewrite Forall_forall. intros z Hz.
    apply in_map_iff in Hz. destruct Hz as (r & <- & Hr).
    apply filter_In in Hr. apply rowid_below_next. tauto.
Qed.

Lemma insert_keeps_unique_pages :
  forall k d p f y t,
    unique_pages t -> unique_pages (Store.insert_or_replace k d p f y t).
Proof.
  intros k d p f y t H. unfold Store.insert_or_replace, unique_pages.
  rewrite map_app. simpl.
  assert (Hsub : NoDup (map Store.Page (Store.rows_except k t))).
  { unfold Store.rows_except, unique_pages in *.
    induction t as [|x t IH]; simpl; [constructor|].
    inversion H as [|? ? Hnot Hrest]; subst.
    destruct (negb (String.eqb (Store.Page x) k)); simpl; [|exact (IH Hrest)].
    constructor; [|exact (IH Hrest)].
    intro Hin. apply Hnot. apply in_map_iff in Hin.
    destruct Hin as (r & E & Hr). apply filter_In in Hr.
    apply in_map_iff. exists r. tauto. }
  apply NoDup_app; [exact Hsub|repeat constructor; simpl; tauto|].
  intros z Hz [<-|[]].
  apply in_map_iff in Hz. destruct Hz as (r & E & Hr).
  apply filter_In in Hr. destruct Hr as [_ Hr].
  rewrite E, String.eqb_refl in Hr. discriminate.
Qed.

Lemma insert_keeps_pages :
  forall k d p f y t k',
    Store.select_exists k' t = true ->
    Store.select_exists k' (Store.insert_or_replace k d p f y t) = true.
Proof.
  intros k d p f y t k' H.
  destruct (String.eqb k' k) eqn:E.
  - apply String.eqb_eq in E. subst k'.
    rewrite select_exists_rows_for, rows_for_insert_same. reflexivity.
  - apply String.eqb_neq in E.
    rewrite select_exists_rows_for, rows_for_insert_other by exact E.
    rewrite <- select_exists_rows_for. exact H.
Qed.

Lemma rows_except_absent :
  forall k t,
    ~ In k (map Store.Page t) -> Store.rows_except k t = t.
Proof.
  intros k t. unfold Store.rows_except.
  induction t as [|z t IH]; intros Hnot; simpl; [reflexivity|].
  destruct (String.eqb (Store.Page z) k) eqn:Ez.
  - apply String.eqb_eq in Ez. exfalso. apply Hnot. left. exact Ez.
  - simpl. f_equal. apply IH. intro Hin. apply Hnot. right. exact Hin.
Qed.

Lemma rows_except_length :
  forall k t,
    List.length (Store.rows_except k t) <= List.length t /\
    (unique_pages t -> List.length t <= S (List.length (Store.rows_except k t))).
Proof.
  intros k t. unfold unique_pages.
  induction t as [|x t [IH1 IH2]].
  - simpl. split; [lia|intros; lia].
  - change (Store.rows_except k (x :: t))
      with (if negb (String.eqb (Store.Page x) k)
            then x :: Store.rows_except k t else Store.rows_except k t).
    destruct (String.eqb (Store.Page x) k) eqn:E; simpl.
    + split; [lia|]. intros H. inversion H as [|? ? Hnot Hrest]; subst.
      apply String.eqb_eq in E. rewrite <- E.
      rewrite rows_except_absent by exact Hnot. lia.
    + split; [lia|]. intros H. inversion H as [|? ? Hnot Hrest]; subst.
      specialize (IH2 Hrest). lia.
Qed.

Lemma insert_length :
  forall k d p f y t,
    List.length (Store.insert_or_replace k d p f y t) <= S (List.length t) /\
    (unique_pages t ->
     List.length t <= List.length (Store.insert_or_replace k d p f y t)).
Proof.
  intros k d p f y t. unfold Store.insert_or_replace.
  rewrite length_app. simpl.
  destruct (rows_except_length k t) as [H1 H2].
  split; [lia|]. intros H. specialize (H2 H). lia.
Qed.



(** What a run of [insert_into_db] leaves: the view is kept or holds the
    new row, and the file is kept or holds what the view holds. *)
Lemma insert_into_db_store :
  forall db_fails k d p y w,
    let w' := snd (Sqlite.insert_into_db db_fails k d p y w) in
    (view w' = view w \/
     view w' = Store.insert_or_replace k d p (Some (flag_for k (view w))) y
                                       (view w)) /\
    (durable w' = durable w \/ durable w' = view w').
Proof.
  intros db_fails k d p y w.
  unfold Sqlite.insert_into_db, flag_for. unfold_monad.
  unfold Sqlite.execute_select, Sqlite.execute_insert_or_replace,
    Sqlite.commit, Sqlite.tick_db.
  simpl.
  destruct (db_fails (db_clock w)); simpl; [auto|].
  destruct (db_fails (S (db_clock w))); simpl; [auto|].
  destruct (db_fails (S (S (db_clock w)))); simpl; auto.
Qed.

(** X6.  One call of [insert_into_db], whatever the arguments and
    whichever of its database operations fail: it ends normally; a view
    without two rows for a page and with ascending rowids stays so; no
    page that had a row loses it; the number of rows grows by one at
    most and, under the primary key, never shrinks; the committed file
    is left as it was or becomes the view. *)
Theorem upsert_keeps_the_table_well_formed :
  forall (db_fails : nat -> bool) (k : string) (d p : option string)
         (y : option Z) (w : World),
    let run := Sqlite.insert_into_db db_fails k d p y w in
    fst run = Ok tt /\
    (unique_pages (view w) -> unique_pages (view (snd run))) /\
    (rowids_ascend (view w) -> rowids_ascend (view (snd run))) /\
    (forall k',
       Store.select_exists k' (view w) = true ->
       Store.select_exists k' (view (snd run)) = true) /\
    List.length (view (snd run)) <= S (List.length (view w)) /\
    (unique_pages (view w) ->
     List.length (view w) <= List.length (view (snd run))) /\
    (durable (snd run) = durable w \/ durable (snd run) = view (snd run)).
Proof.
  intros db_fails k d p y w run. subst run.
  destruct (insert_into_db_run db_fails k d p y w) as (line & w1 & Hrun & _).
  destruct (insert_into_db_store db_fails k d p y w) as [Hv Hd].
  rewrite Hrun in *. simpl in *.
  split; [reflexivity|].
  destruct Hv as [Hv|Hv]; rewrite Hv.
  - rewrite Hv in Hd. repeat split; auto; lia.
  - split; [apply insert_keeps_unique_pages|].
    split; [apply insert_keeps_rowids|].
    split; [intros k'; apply insert_keeps_pages|].
    split; [apply insert_length|].
    split; [apply insert_length|rewrite <- Hv; exact Hd].
Qed.



Lemma saved_for_calls :
  forall yr it r s,
    In s (saved_for yr it r) -> crawler_call (call_of s) /\ Crawl.year s = yr.
Proof.
  intros yr it r s H. unfold saved_for in H.
  destruct r as [p|]; [|contradiction].
  destruct (PyStr.truthy p) eqn:Tp; [|contradiction].
  destruct H as [<-|[]]. unfold crawler_call, call_of. simpl.
  split; [|reflexivity].
  split; [eexists; reflexivity|]. split; [|eexists; reflexivity].
  exists p. split; [reflexivity|]. intros ->. discriminate.
Qed.

Lemma saved_of_entries_calls :
  forall yr es s,
    In s (saved_of_entries yr es) -> crawler_call (call_of s) /\ Crawl.year s = yr.
Proof.
  intros yr es s H. unfold saved_of_entries in H.
  apply in_flat_map in H. destruct H as ([it r] & _ & H).
  exact (saved_for_calls _ _ _ _ H).
Qed.


(* ================================================================== *)
(** * The crawl of a year and the loop over the years                  *)
(* ================================================================== *)

Lemma upsert_calls_app :
  forall a b, upsert_calls (a ++ b) = upsert_calls a ++ upsert_calls b.
Proof. intros. apply filter_app. Qed.

Lemma upsert_calls_steps :
  forall tr, upsert_calls (steps tr) = upsert_calls tr.
Proof.
  induction tr as [|e tr IH]; [reflexivity|].
  destruct e; simpl; rewrite ?IH; reflexivity.
Qed.

Lemma upsert_calls_entries :
  forall yr es,
    List.length (upsert_calls (flat_map (entry_steps yr) es))
    = List.length (saved_of_entries yr es).
Proof.
  intros yr es. unfold saved_of_entries.
  induction es as [|[it r] es IH]; [reflexivity|].
  cbn [flat_map]. rewrite upsert_calls_app, !length_app, IH. f_equal.
  unfold entry_steps, events_for, saved_for. simpl.
  destruct r as [p|]; [destruct (PyStr.truthy p)|]; reflexivity.
Qed.

Lemma upsert_calls_year :
  forall urljoin http fuel base_url yr page n,
    List.length (upsert_calls (year_steps urljoin http fuel base_url yr page n))
    = List.length
        (saved_of_entries yr (year_entries urljoin http fuel base_url yr page n)).
Proof.
  intros urljoin http fuel. induction fuel as [|fuel IH];
    intros base_url yr page n; [reflexivity|].
  cbn [year_steps year_entries].
  unfold saved_of_entries. rewrite flat_map_app.
  fold (saved_of_entries yr
          (combine (page_items urljoin http base_url yr page n)
             (resolutions urljoin http (S n)
                (page_items urljoin http base_url yr page n)))).
  change (upsert_calls (EvRequest ?u :: ?l)) with (upsert_calls l).
  rewrite upsert_calls_app, !length_app, upsert_calls_entries. f_equal.
  destruct (page_outcome urljoin http base_url yr page n) as [[why|]|e];
    [reflexivity| |reflexivity].
  change (upsert_calls (EvSleep :: ?l)) with (upsert_calls l).
  rewrite IH. reflexivity.
Qed.

(** The requests of a year: the listings of the pages from [page] on,
    and the detail pages of the entries. *)
Lemma year_steps_requests :
  forall urljoin http fuel base_url yr page n url,
    In (EvRequest url) (year_steps urljoin http fuel base_url yr page n) ->
    (exists p, (page <= p)%Z /\ url = Crawl.listing_url base_url p yr) \/
    (exists ir,
       In ir (year_entries urljoin http fuel base_url yr page n) /\
       url = Crawl.detail_url (fst ir)).
Proof.
  intros urljoin http fuel. induction fuel as [|fuel IH];
    intros base_url yr page n url H; [contradiction|].
  cbn [year_steps year_entries] in *.
  destruct H as [H|H].
  - injection H as <-. left. exists page. split; [lia|reflexivity].
  - apply in_app_or in H. destruct H as [H|H].
    + right. apply in_flat_map in H. destruct H as (ir & Hir & H).
      exists ir. split; [apply in_or_app; left; exact Hir|].
      unfold entry_steps, events_for in H.
      destruct H as [H|H]; [congruence|].
      exfalso. destruct (snd ir) as [p|]; simpl in H;
        [destruct (PyStr.truthy p); simpl in H|]; intuition discriminate.
    + destruct (page_outcome urljoin http base_url yr page n) as [[why|]|e];
        [contradiction| |contradiction].
      destruct H as [H|H]; [discriminate|].
      apply IH in H. destruct H as [(p & Hp & ->)|(ir & Hir & ->)].
      * left. exists p. split; [lia|reflexivity].
      * right. exists ir. split; [apply in_or_app; right; exact Hir|reflexivity].
Qed.

Lemma in_steps : forall e tr, In e (steps tr) <-> In e tr /\ is_step e = true.
Proof. intros. apply filter_In. Qed.

(** A crawl that returns a list has ended its loop without an
    exception, and the list is the one it has built. *)
Lemma year_result_some :
  forall urljoin http fuel base_url yr page n l pdfs,
    year_result urljoin http fuel base_url yr page n l = Ok (Some pdfs) ->
    pdfs = l /\
    year_ends urljoin http fuel base_url yr page n = true /\
    year_raises urljoin http fuel base_url yr page n = None.
Proof.
  intros urljoin http fuel base_url yr page n l pdfs H. unfold year_result in H.
  destruct (year_raises urljoin http fuel base_url yr page n); [discriminate|].
  destruct (year_ends urljoin http fuel base_url yr page n); [|discriminate].
  injection H as <-. auto.
Qed.

(** X7.  The network schedule of the crawl of a year, whatever the site
    answers and whichever database operations fail.  Leaving the printed
    lines aside, the run consists, page after page from page 1, of the
    request of the listing URL of the page, then for every entry of the
    page the request of its detail URL, its resolution, one upsert when
    a URL was resolved and a pause, then one more pause before the next
    page.  So every request is the listing URL of a page or the detail
    URL of an entry: the address the pagination resolver returns is
    tested but never requested. *)
Theorem crawl_requests_listings_and_details_only :
  forall (urljoin : string -> string -> result string)
         (http : nat -> string -> Crawl.http_outcome)
         (db_fails : nat -> bool) (fuel : nat) (base_url : string) (yr : Z)
         (w : World),
    let run := Crawl.scrape_year urljoin http db_fails fuel base_url yr w in
    exists new,
      trace (snd run) = trace w ++ new /\
      steps new = year_steps urljoin http fuel base_url yr 1 (net_clock w) /\
      (forall url,
         In (EvRequest url) new ->
         (exists page, (1 <= page)%Z /\
                       url = Crawl.listing_url base_url page yr) \/
         (exists ir,
            In ir (year_entries urljoin http fuel base_url yr 1 (net_clock w)) /\
            url = Crawl.detail_url (fst ir))).
Proof.
  intros urljoin http db_fails fuel base_url yr w run. subst run.
  unfold Crawl.scrape_year.
  destruct (scrape_loop_effect urljoin http db_fails fuel base_url yr 1 [] w)
    as (w' & new & Hrun & _ & Htr & Hst & _).
  rewrite Hrun. simpl. exists new.
  split; [exact Htr|]. split; [exact Hst|].
  intros url Hin.
  apply (year_steps_requests urljoin http fuel base_url yr 1 (net_clock w)).
  rewrite <- Hst. apply in_steps. split; [exact Hin|reflexivity].
Qed.

(** X8.  What the crawl of a year leaves in the database is what the
    upsert calls of the entries it returns leave, made in their order on
    the connection the crawl started from and meeting the same failures:
    the same view, the same committed file, the same number of database
    operations.  Nothing else of the crawl touches the database. *)
Theorem crawl_store_is_the_upserts_of_the_saved :
  forall (urljoin : string -> string -> result string)
         (http : nat -> string -> Crawl.http_outcome)
         (db_fails : nat -> bool) (fuel : nat) (base_url : string) (yr : Z)
         (w w' : World) (pdfs : list Crawl.saved),
    Crawl.scrape_year urljoin http db_fails fuel base_url yr w
    = (Ok (Some pdfs), w') ->
    same_store w' (snd (upsert_all db_fails (map call_of pdfs) w)).
Proof.
  intros urljoin http db_fails fuel base_url yr w w' pdfs H.
  unfold Crawl.scrape_year in H.
  destruct (scrape_loop_effect urljoin http db_fails fuel base_url yr 1 [] w)
    as (w1 & new & Hrun & _ & _ & _ & Hst).
  rewrite Hrun in H. injection H as Hres <-.
  apply year_result_some in Hres. destruct Hres as (-> & _ & _). exact Hst.
Qed.

(** On the site of the scenario, with a database whose commits fail:
    both entries are returned, the view holds their rows, the file holds
    none. *)
Lemma crawl_store_is_the_upserts_of_the_saved_scenario :
  let run := Crawl.scrape_year join_absolute_path two_entry_site commits_fail
                               3 search_url 2013 empty_world in
  let saved := [ Crawl.mkSaved memo_a "https://www.aclu.org/files/memo-a.pdf" 2013;
                 Crawl.mkSaved memo_b "https://www.aclu.org/files/memo-b.pdf" 2013 ] in
  fst run = Ok (Some saved) /\
  same_store (snd run) (snd (upsert_all commits_fail (map call_of saved) empty_world)) /\
  map Store.Page (view (snd run))
  = [ "https://www.aclu.org/documents/memo-a";
      "https://www.aclu.org/documents/memo-b" ] /\
  durable (snd run) = [].
Proof.
  intros run saved.
  assert (E : run = (Ok (Some saved), snd run)).
  { vm_compute. reflexivity. }
  split; [rewrite E; reflexivity|].
  split; [exact (crawl_store_is_the_upserts_of_the_saved _ _ _ _ _ _ _ E)|].
  split; vm_compute; reflexivity.
Defined.

(** ** What the orchestrator does with the entries of a year *)

Lemma upsert_of_entries_calls :
  forall yr es,
    Forall (fun ir => url_or_none (snd ir)) es ->
    map call_of (saved_of_entries yr es) = flat_map (upsert_of_entry yr) es.
Proof.
  intros yr es H. unfold saved_of_entries.
  induction H as [|[it r] es Hr _ IH]; [reflexivity|].
  cbn [flat_map]. rewrite map_app, IH. f_equal.
  unfold saved_for, upsert_of_entry. cbn [fst snd] in *.
  destruct r as [p|]; [rewrite (Hr p eq_refl)|]; reflexivity.
Qed.

Lemma crawl_events_steps :
  forall tr, crawl_events (steps tr) = crawl_events tr.
Proof.
  induction tr as [|e tr IH]; [reflexivity|].
  destruct e; simpl; rewrite ?IH; reflexivity.
Qed.

Lemma crawl_events_entry_steps :
  forall yr es,
    crawl_events (flat_map (entry_steps yr) es) = events_of_entries yr es.
Proof.
  intros yr es. unfold events_of_entries.
  induction es as [|[it r] es IH]; [reflexivity|].
  cbn [flat_map]. rewrite crawl_events_app, IH. f_equal.
  unfold entry_steps, events_for. cbn [fst snd].
  destruct r as [p|]; [destruct (PyStr.truthy p)|]; reflexivity.
Qed.

Lemma crawl_events_year_steps :
  forall urljoin http fuel base_url yr page n,
    crawl_events (year_steps urljoin http fuel base_url yr page n)
    = events_of_entries yr (year_entries urljoin http fuel base_url yr page n).
Proof.
  intros urljoin http fuel. induction fuel as [|fuel IH];
    intros base_url yr page n; [reflexivity|].
  cbn [year_steps year_entries].
  change (crawl_events (EvRequest ?u :: ?l)) with (crawl_events l).
  unfold events_of_entries. rewrite crawl_events_app, flat_map_app.
  rewrite crawl_events_entry_steps. unfold events_of_entries. f_equal.
  destruct (page_outcome urljoin http base_url yr page n) as [[why|]|e];
    [reflexivity| |reflexivity].
  change (crawl_events (EvSleep :: ?l)) with (crawl_events l).
  apply IH.
Qed.

Lemma view_of_upserts :
  forall calls w,
    view (fold_left (fun w c => upsert_ok c w) calls w)
    = fold_left (fun t c => written c t) calls (view w).
Proof.
  induction calls as [|c calls IH]; intros w; [reflexivity|].
  simpl. rewrite IH. reflexivity.
Qed.

Lemma durable_of_upserts :
  forall calls w,
    calls <> [] ->
    durable (fold_left (fun w c => upsert_ok c w) calls w)
    = view (fold_left (fun w c => upsert_ok c w) calls w).
Proof.
  intros calls. induction calls as [|c calls IH] using rev_ind; intros w H.
  - contradiction.
  - rewrite fold_left_app. reflexivity.
Qed.

(** C5.  In the crawl of a year, take the entries the parser yields,
    page after page, each with what the detail resolver returned for it.
    The resolutions and upserts of the run are, entry by entry and in
    order: the resolution alone when it returned [None] (no upsert for
    that entry), and the resolution followed by exactly one upsert when
    it returned a URL.  That upsert is the call of [insert_into_db] with
    the entry's detail URL, its date, the PDF URL returned and the year
    of the crawl: the database the crawl leaves (the view of the
    connection, the committed file, the number of operations) is the one
    these calls leave, made in this order on the connection the crawl
    started from, and nothing else touches it.  When the loop ends, the
    saved list it returns holds exactly the entries of the second kind,
    so that the count reported for the year includes them and excludes
    the others. *)
Theorem upserts_are_the_resolved_entries :
  forall (urljoin : string -> string -> result string)
         (http : nat -> string -> Crawl.http_outcome)
         (db_fails : nat -> bool) (fuel : nat) (base_url : string) (yr : Z)
         (w : World),
    joins_to_nonempty urljoin ->
    let entries := year_entries urljoin http fuel base_url yr 1 (net_clock w) in
    exists result w' new,
      Crawl.scrape_year urljoin http db_fails fuel base_url yr w
      = (result, w') /\
      trace w' = trace w ++ new /\
      crawl_events new = flat_map (steps_of_entry yr) entries /\
      same_store w'
        (snd (upsert_all db_fails (flat_map (upsert_of_entry yr) entries) w)) /\
      (db_fails = Sqlite.no_faults ->
       view w' = fold_left (fun t c => written c t)
                           (flat_map (upsert_of_entry yr) entries) (view w) /\
       (flat_map (upsert_of_entry yr) entries <> [] -> durable w' = view w')) /\
      (forall pdfs,
         result = Ok (Some pdfs) ->
         pdfs = flat_map (saved_of_entry yr) entries /\
         List.length pdfs
         = List.length (filter (fun ir => match snd ir with
                                          | Some _ => true
                                          | None => false
                                          end) entries)).
Proof.
  intros urljoin http db_fails fuel base_url yr w Hj entries.
  destruct (scrape_loop_effect urljoin http db_fails fuel base_url yr 1 [] w)
    as (w' & new & Hrun & _ & Htr & Hsteps & Hst).
  fold entries in Hrun, Hst.
  assert (Hes : Forall (fun ir => url_or_none (snd ir)) entries)
    by (apply year_entries_url_or_none; exact Hj).
  rewrite (upsert_of_entries_calls yr Hes) in Hst.
  unfold Crawl.scrape_year. rewrite Hrun.
  do 3 eexists. split; [reflexivity|]. split; [exact Htr|].
  split.
  { rewrite <- crawl_events_steps, Hsteps.
    rewrite <- (events_of_entries_steps yr Hes).
    apply crawl_events_year_steps. }
  split; [exact Hst|].
  split.
  { intros ->. rewrite upsert_all_no_faults in Hst.
    destruct Hst as (_ & Hv & Hd). cbn [snd] in Hv, Hd.
    split; [rewrite Hv; apply view_of_upserts|].
    intros Hne. rewrite Hd, Hv. apply durable_of_upserts. exact Hne. }
  intros pdfs Hp. apply year_result_some in Hp. destruct Hp as (Hp & _ & _).
  assert (E : pdfs = flat_map (saved_of_entry yr) entries).
  { rewrite Hp. simpl. apply saved_of_entries_each. exact Hes. }
  split; [exact E|]. rewrite E. clear.
  induction entries as [|[it [p|]] es IH]; simpl; auto.
Qed.

(** ** The scenario of the specification: two entries, then an empty page *)

(** The year 2013 of that site: both entries are saved, the loop ends on
    the empty second page, and the store holds the two rows, with the
    date and the link of each entry, found in 2013 and not flagged. *)
Lemma upserts_are_the_resolved_entries_scenario :
  exists w',
    Crawl.scrape_year join_absolute_path two_entry_site Sqlite.no_faults
                      3 search_url 2013 empty_world
    = (Ok (Some [ Crawl.mkSaved memo_a "https://www.aclu.org/files/memo-a.pdf" 2013;
                  Crawl.mkSaved memo_b "https://www.aclu.org/files/memo-b.pdf" 2013 ]),
       w') /\
    crawl_events (trace w')
    = [ EvResolved "https://www.aclu.org/documents/memo-a"
                   (Some "https://www.aclu.org/files/memo-a.pdf");
        EvUpsert "https://www.aclu.org/documents/memo-a" "May 1, 2013"
                 "https://www.aclu.org/files/memo-a.pdf" 2013;
        EvResolved "https://www.aclu.org/documents/memo-b"
                   (Some "https://www.aclu.org/files/memo-b.pdf");
        EvUpsert "https://www.aclu.org/documents/memo-b" "June 2, 2013"
                 "https://www.aclu.org/files/memo-b.pdf" 2013 ] /\
    durable w'
    = [ Store.mkRow 1 "https://www.aclu.org/documents/memo-a"
          (Some "May 1, 2013") (Some "https://www.aclu.org/files/memo-a.pdf")
          (Some "No") (Some 2013%Z);
        Store.mkRow 2 "https://www.aclu.org/documents/memo-b"
          (Some "June 2, 2013") (Some "https://www.aclu.org/files/memo-b.pdf")
          (Some "No") (Some 2013%Z) ].
Proof.
  destruct (@upserts_are_the_resolved_entries join_absolute_path two_entry_site
              Sqlite.no_faults 3 search_url 2013 empty_world
              join_absolute_path_nonempty)
    as (result & w' & new & Hrun & Htr & Hev & Hst & Hrows & _).
  destruct (Hrows eq_refl) as [Hv Hd].
  assert (E : Crawl.scrape_year join_absolute_path two_entry_site
                Sqlite.no_faults 3 search_url 2013 empty_world
              = (Ok (Some [ Crawl.mkSaved memo_a
                              "https://www.aclu.org/files/memo-a.pdf" 2013;
                            Crawl.mkSaved memo_b
                              "https://www.aclu.org/files/memo-b.pdf" 2013 ]),
                 w')).
  { rewrite Hrun. f_equal. vm_compute in Hrun. injection Hrun as <- _.
    reflexivity. }
  exists w'. split; [exact E|].
  split.
  - rewrite Htr. simpl. rewrite Hev. vm_compute. reflexivity.
  - rewrite Hd, Hv by (vm_compute; discriminate). vm_compute. reflexivity.
Defined.

(** ** The loop over the years *)

Lemma year_raises_not_ends :
  forall urljoin http fuel base_url yr page n e,
    year_raises urljoin http fuel base_url yr page n = Some e ->
    year_ends urljoin http fuel base_url yr page n = false.
Proof.
  intros urljoin http fuel. induction fuel as [|fuel IH];
    intros base_url yr page n e H; [reflexivity|].
  cbn [year_raises year_ends] in *.
  destruct (page_outcome urljoin http base_url yr page n) as [[why|]|e0].
  - discriminate.
  - exact (IH _ _ _ _ _ H).
  - reflexivity.
Qed.

Lemma crawl_years_effect :
  forall urljoin http db_fails fuel base_url years total w,
    let n := net_clock w in
    let saved := years_saved urljoin http fuel base_url years n in
    exists w' new,
      Crawl.crawl_years urljoin http db_fails fuel base_url years total w
      = (years_result urljoin http fuel base_url years n
           (total + Z.of_nat (List.length saved))%Z, w') /\
      trace w' = trace w ++ new /\
      List.length (upsert_calls new) = List.length saved /\
      same_store w' (snd (upsert_all db_fails (map call_of saved) w)).
Proof.
  intros urljoin http db_fails fuel base_url years.
  induction years as [|yr rest IH]; intros total w n saved; subst n saved.
  - exists w, []. unfold years_result. simpl. unfold ret.
    rewrite app_nil_r, Z.add_0_r. repeat split.
  - unfold years_result.
    cbn [Crawl.crawl_years years_saved years_end years_raise].
    unfold Crawl.scrape_year. unfold bind at 1.
    destruct (scrape_loop_effect urljoin http db_fails fuel base_url yr 1 [] w)
      as (w1 & new1 & Hrun & Hnet & Htr1 & Hst1 & Hdb1).
    rewrite Hrun.
    assert (Hup1 : List.length (upsert_calls new1)
                   = List.length
                       (saved_of_entries yr
                          (year_entries urljoin http fuel base_url yr 1
                                        (net_clock w)))).
    { rewrite <- upsert_calls_steps, Hst1. apply upsert_calls_year. }
    unfold year_result.
    destruct (year_raises urljoin http fuel base_url yr 1 (net_clock w))
      as [e|] eqn:Er.
    { rewrite (year_raises_not_ends _ _ _ _ _ _ _ Er).
      exists w1, new1. rewrite app_nil_r.
      repeat split; try assumption; apply Hdb1. }
    destruct (year_ends urljoin http fuel base_url yr 1 (net_clock w)).
    + destruct (IH (total + Z.of_nat
                      (List.length
                         ([] ++ saved_of_entries yr
                                  (year_entries urljoin http fuel base_url yr 1
                                                (net_clock w)))))%Z w1)
        as (w2 & new2 & Hrun2 & Htr2 & Hup2 & Hdb2).
      rewrite Hnet in Hrun2, Hup2, Hdb2.
      exists w2, (new1 ++ new2). rewrite Hrun2. split.
      * unfold years_result. simpl.
        rewrite length_app, Nat2Z.inj_add, Z.add_assoc. reflexivity.
      * split; [rewrite Htr2, Htr1, app_assoc; reflexivity|].
        split.
        -- rewrite upsert_calls_app, !length_app, Hup1, Hup2. reflexivity.
        -- rewrite map_app, upsert_all_app.
           eapply same_store_trans; [exact Hdb2|].
           apply upsert_all_same_store. exact Hdb1.
    + exists w1, new1. unfold ret. simpl. rewrite app_nil_r.
      repeat split; try assumption; apply Hdb1.
Qed.

(** X9.  The total the script reports is the number of upsert calls it
    made over all the years: an entry found again under another year is
    counted again, and a call the database refused is counted too. *)
Theorem cumulative_total_counts_upsert_calls :
  forall (urljoin : string -> string -> result string)
         (http : nat -> string -> Crawl.http_outcome)
         (db_fails : nat -> bool) (fuel : nat) (base_url : string)
         (years : list Z) (total total' : Z) (w w' : World),
    Crawl.crawl_years urljoin http db_fails fuel base_url years total w
    = (Ok (Some total'), w') ->
    exists new,
      trace w' = trace w ++ new /\
      total' = (total + Z.of_nat (List.length (upsert_calls new)))%Z.
Proof.
  intros urljoin http db_fails fuel base_url years total total' w w' H.
  destruct (crawl_years_effect urljoin http db_fails fuel base_url years total w)
    as (w1 & new & Hrun & Htr & Hup & _).
  rewrite Hrun in H. injection H as Hres <-.
  exists new. split; [exact Htr|].
  unfold years_result in Hres.
  destruct (years_raise urljoin http fuel base_url years (net_clock w));
    [discriminate|].
  destruct (years_end urljoin http fuel base_url years (net_clock w));
    [|discriminate].
  injection Hres as <-. rewrite Hup. reflexivity.
Qed.

(** The page of the scenario crawled under 2013 and again under 2012,
    where the site has nothing, with a database that refuses every
    operation: the total is 2 and the table is empty. *)
Lemma cumulative_total_counts_upsert_calls_scenario :
  exists w' new,
    Crawl.crawl_years join_absolute_path two_entry_site always_fails
                      3 search_url [2013; 2012]%Z 0 empty_world
    = (Ok (Some 2%Z), w') /\
    trace w' = new /\
    2%Z = (0 + Z.of_nat (List.length (upsert_calls new)))%Z /\
    view w' = [].
Proof.
  assert (E : Crawl.crawl_years join_absolute_path two_entry_site always_fails
                3 search_url [2013; 2012]%Z 0 empty_world
              = (Ok (Some 2%Z),
                 snd (Crawl.crawl_years join_absolute_path two_entry_site
                        always_fails 3 search_url [2013; 2012]%Z 0 empty_world))).
  { vm_compute. reflexivity. }
  destruct (@cumulative_total_counts_upsert_calls _ _ _ _ _ _ _ _ _ _ E)
    as (new & Htr & Htot).
  eexists. exists new. split; [exact E|].
  split; [exact Htr|]. split; [exact Htot|].
  vm_compute. reflexivity.
Defined.

Lemma select_exists_in :
  forall k t, Store.select_exists k t = true <-> In k (map Store.Page t).
Proof.
  intros k t. unfold Store.select_exists. rewrite existsb_exists. split.
  - intros (r & Hr & E). apply String.eqb_eq in E. subst k.
    apply in_map. exact Hr.
  - intros H. apply in_map_iff in H. destruct H as (r & <- & Hr).
    exists r. split; [exact Hr|apply String.eqb_refl].
Qed.

(** ** The exceptions of a crawl come from [urljoin] *)








(** A site whose first listing page has a link [urljoin] refuses: the
    script ends on the exception with nothing written. *)
Example script_stopped_by_a_malformed_link :
  Crawl.main join_absolute_path
    (fun _ _ => Crawl.HttpResponse 200 page_with_malformed_link)
    Sqlite.no_faults 3 None
  = (Raise invalid_ipv6_url, []).
Proof. vm_compute. reflexivity. Qed.

Lemma map_page_call_of :
  forall l, map call_page (map call_of l) = map page_of l.
Proof. intros l. rewrite map_map. reflexivity. Qed.

(** X11.  The rows a year's crawl leaves when the database does not
    fail.  Take an entry the crawl returns and no later entry of which
    has the same detail URL.  Afterwards the store holds exactly one row
    for that URL, in the view and in the committed file, with the date
    and the link of that entry and the year of the crawl; the row is
    flagged 'No' when the page had no row before the crawl and no
    earlier entry of this crawl has its URL, and 'Yes' otherwise: a page
    found again under another year is flagged and carries the later
    year.  The rows of the pages the crawl did not return are left
    alone. *)
Theorem crawl_rows_without_faults :
  forall (urljoin : string -> string -> result string)
         (http : nat -> string -> Crawl.http_outcome)
         (fuel : nat) (base_url : string) (yr : Z) (w w' : World)
         (earlier later : list Crawl.saved) (s : Crawl.saved),
    Crawl.scrape_year urljoin http Sqlite.no_faults fuel base_url yr w
    = (Ok (Some (earlier ++ s :: later)), w') ->
    ~ In (page_of s) (map page_of later) ->
    let first :=
      negb (Store.select_exists (page_of s) (view w)) &&
      negb (existsb (String.eqb (page_of s)) (map page_of earlier)) in
    (exists r,
       Store.rows_for (page_of s) (view w') = [r] /\
       Store.rows_for (page_of s) (durable w') = [r] /\
       Store.payload r
       = (Some (Crawl.doc_date (Crawl.saved_item s)), Some (Crawl.pdf_url s),
          Some yr) /\
       Store.Duplicate r = Some (if first then "No" else "Yes")) /\
    (forall k,
       ~ In k (map page_of (earlier ++ s :: later)) ->
       Store.rows_for k (view w') = Store.rows_for k (view w)).
Proof.
  intros urljoin http fuel base_url yr w w' earlier later s H Hlast first.
  subst first. unfold Crawl.scrape_year in H.
  destruct (scrape_loop_effect urljoin http Sqlite.no_faults fuel base_url yr
              1 [] w) as (w1 & new & Hrun & _ & _ & _ & Hst).
  rewrite Hrun in H. injection H as Hres <-.
  apply year_result_some in Hres. destruct Hres as (Hres & _ & _).
  simpl in Hres. symmetry in Hres.
  assert (Hyr : Crawl.year s = yr).
  { apply (saved_of_entries_calls yr
             (year_entries urljoin http fuel base_url yr 1 (net_clock w))).
    rewrite Hres. apply in_or_app. right. left. reflexivity. }
  rewrite Hres in Hst. clear Hres Hrun.
  rewrite upsert_all_no_faults in Hst. simpl in Hst.
  destruct Hst as (_ & Hv & Hd). rewrite Hv, Hd. clear Hv Hd. split.
  - rewrite map_app, fold_left_app. simpl.
    set (w0 := fold_left (fun w c => upsert_ok c w) (map call_of earlier) w).
    rewrite (upserts_durable (map call_of later) (call_of s) w0).
    rewrite upserts_rows_for_other
      by (rewrite map_page_call_of; exact Hlast).
    simpl. unfold page_of. rewrite rows_for_insert_same.
    eexists. split; [reflexivity|]. split; [reflexivity|].
    split; [simpl; rewrite Hyr; reflexivity|]. simpl.
    unfold flag_for. subst w0. rewrite upserts_exists, map_page_call_of.
    rewrite <- negb_orb. unfold page_of.
    destruct (Store.select_exists _ (view w) || existsb _ _); reflexivity.
  - intros k Hk. apply upserts_rows_for_other.
    rewrite map_page_call_of. exact Hk.
Qed.

(** The scenario of the specification at the level of the crawl: the
    year 2013 of the site is crawled into a store that already has a
    row for the first memo; its row is flagged, the row of the second
    memo is not. *)
Lemma crawl_rows_without_faults_scenario :
  let w := upsert_ok found_memo_a_2014 empty_world in
  let w' := snd (Crawl.scrape_year join_absolute_path two_entry_site
                   Sqlite.no_faults 3 search_url 2013 w) in
  map (fun r => (Store.Page r, Store.Year_From_URL r, Store.Duplicate r))
      (Store.rows_for "https://www.aclu.org/documents/memo-a" (view w'))
  = [("https://www.aclu.org/documents/memo-a", Some 2013%Z, Some "Yes")] /\
  exists r,
    Store.rows_for "https://www.aclu.org/documents/memo-b" (durable w') = [r] /\
    Store.Year_From_URL r = Some 2013%Z /\
    Store.Duplicate r = Some "No".
Proof.
  intros w w'.
  split; [vm_compute; reflexivity|].
  assert (E : Crawl.scrape_year join_absolute_path two_entry_site
                Sqlite.no_faults 3 search_url 2013 w
              = (Ok (Some ([ Crawl.mkSaved memo_a
                               "https://www.aclu.org/files/memo-a.pdf" 2013 ]
                           ++ Crawl.mkSaved memo_b
                                "https://www.aclu.org/files/memo-b.pdf" 2013
                           :: [])), w')).
  { vm_compute. reflexivity. }
  destruct (@crawl_rows_without_faults _ _ _ _ _ _ _ _ _ _ E
              (fun H : In _ [] => H)) as [(r & _ & Hd & Hp & Hf) _].
  exists r. split; [exact Hd|]. split.
  - unfold Store.payload in Hp. injection Hp as _ _ Hy. exact Hy.
  - exact Hf.
Defined.

(* ================================================================== *)
(** * Reading back a printed integer                                   *)
(* ================================================================== *)

Lemma parse_digits_step :
  forall c acc b r,
    PyStr.is_digit c = true ->
    PyStr.parse_digits acc b (String c r)
    = PyStr.parse_digits (10 * acc + PyStr.digit_value c)%Z true r.
Proof.
  intros c acc b r Hc. cbn [PyStr.parse_digits].
  destruct (digit_not_special c Hc) as (_ & ->). rewrite Hc. reflexivity.
Qed.

Ltac read_digit :=
  cbn [NilEmpty.string_of_uint Pos.of_uint_acc Pos.of_uint];
  rewrite parse_digits_step by reflexivity;
  match goal with
  | |- context [PyStr.digit_value ?c] =>
      let v := eval vm_compute in (PyStr.digit_value c) in
      change (PyStr.digit_value c) with v
  end.

Lemma parse_digits_acc :
  forall d acc,
    PyStr.parse_digits (Zpos acc) true (NilEmpty.string_of_uint d)
    = Some (Zpos (Pos.of_uint_acc d acc)).
Proof.
  induction d; intros acc; [reflexivity|..];
    read_digit; rewrite <- IHd; f_equal; lia.
Qed.

Lemma parse_digits_uint :
  forall d b,
    d <> Decimal.Nil \/ b = true ->
    PyStr.parse_digits 0 b (NilEmpty.string_of_uint d)
    = Some (Z.of_uint d).
Proof.
  unfold Z.of_uint.
  induction d; intros b H.
  - destruct H as [H|H]; [congruence|]. subst b. reflexivity.
  - read_digit. apply IHd. right. reflexivity.
  - read_digit. apply parse_digits_acc.
  - read_digit. apply parse_digits_acc.
  - read_digit. apply parse_digits_acc.
  - read_digit. apply parse_digits_acc.
  - read_digit. apply parse_digits_acc.
  - read_digit. apply parse_digits_acc.
  - read_digit. apply parse_digits_acc.
  - read_digit. apply parse_digits_acc.
  - read_digit. apply parse_digits_acc.
Qed.

Lemma lstrip_by_keeps_head :
  forall p c r, p c = false -> PyStr.lstrip_by p (String c r) = String c r.
Proof. intros p c r H. simpl. rewrite H. reflexivity. Qed.

Lemma uint_not_blank :
  forall d,
    PyStr.forallb_str (fun c => negb (PyStr.is_blank c))
                      (NilEmpty.string_of_uint d) = true.
Proof.
  intros d. apply forallb_str_impl with (p := PyStr.is_digit);
    [|apply uint_chars].
  intros c Hc. destruct (digit_not_special c Hc) as [-> _]. reflexivity.
Qed.

Lemma uint_head :
  forall d,
    d <> Decimal.Nil ->
    exists c r,
      NilEmpty.string_of_uint d = String c r /\ PyStr.is_digit c = true.
Proof.
  intros d H. pose proof (uint_chars d) as Hc.
  destruct d; try congruence; simpl in *; eexists; eexists;
    (split; [reflexivity|reflexivity]).
Qed.

(** [int(str(n)) == n]. *)
Lemma to_int_of_Z : forall n, PyStr.to_int (PyStr.of_Z n) = Some n.
Proof.
  intros n. unfold PyStr.of_Z.
  rewrite <- (DecimalZ.of_to n) at 2.
  assert (Hnn : match Z.to_int n with
                | Decimal.Pos d | Decimal.Neg d => d <> Decimal.Nil
                end).
  { destruct n; simpl; try apply Unsigned.to_uint_nonnil. discriminate. }
  destruct (Z.to_int n) as [d|d]; unfold PyStr.to_int; simpl NilEmpty.string_of_int.
  - rewrite rstrip_by_keeps by apply uint_not_blank.
    destruct (uint_head Hnn) as (c & r & E & Hc).
    pose proof (parse_digits_uint (b := false) (or_introl Hnn)) as Hp.
    rewrite E in *.
    destruct (digit_not_special c Hc) as (Hb & _).
    rewrite lstrip_by_keeps_head by exact Hb.
    simpl Z.of_int.
    destruct (digit_cases c Hc)
      as [->|[->|[->|[->|[->|[->|[->|[->|[->| ->]]]]]]]]]; exact Hp.
  - assert (Hr : PyStr.rstrip_by PyStr.is_blank
                   (String "-" (NilEmpty.string_of_uint d))
                 = String "-" (NilEmpty.string_of_uint d)).
    { apply rstrip_by_keeps. simpl. apply uint_not_blank. }
    rewrite Hr. rewrite lstrip_by_keeps_head by reflexivity.
    rewrite parse_digits_uint by (left; exact Hnn). reflexivity.
Qed.

(* ================================================================== *)
(** * Sorting and dictionaries                                         *)
(* ================================================================== *)

Section SortFacts.

Variable A : Type.
Variable lt : A -> A -> bool.

Lemma insert_sorted_permutation :
  forall x l, Permutation (x :: l) (PyList.insert_sorted lt x l).
Proof.
  intros x l. induction l as [|y l IH]; simpl; [apply Permutation_refl|].
  destruct (lt y x); [|apply Permutation_refl].
  eapply perm_trans; [apply perm_swap|]. apply perm_skip. exact IH.
Qed.

Lemma sorted_permutation :
  forall l, Permutation l (PyList.sorted lt l).
Proof.
  induction l as [|x l IH]; simpl; [constructor|].
  eapply perm_trans; [apply perm_skip; exact IH|].
  apply insert_sorted_permutation.
Qed.

Hypothesis lt_asym : forall x y, lt x y = true -> lt y x = false.
Hypothesis lt_negtrans :
  forall x y z, lt y x = false -> lt z y = false -> lt z x = false.

Lemma insert_sorted_ordered :
  forall x l,
    StronglySorted (fun a b => lt b a = false) l ->
    StronglySorted (fun a b => lt b a = false) (PyList.insert_sorted lt x l).
Proof.
  intros x l H. induction H as [|y l Hs IH Hall]; simpl.
  - repeat constructor.
  - destruct (lt y x) eqn:E.
    + constructor; [exact IH|].
      rewrite Forall_forall in *. intros z Hz.
      apply (Permutation_in z (Permutation_sym (insert_sorted_permutation x l)))
        in Hz.
      destruct Hz as [<-|Hz]; [apply lt_asym; exact E|apply Hall; exact Hz].
    + constructor; [constructor; assumption|].
      constructor; [exact E|].
      rewrite Forall_forall in *. intros z Hz.
      apply lt_negtrans with (y := y); [exact E|apply Hall; exact Hz].
Qed.

Lemma sorted_ordered :
  forall l, StronglySorted (fun a b => lt b a = false) (PyList.sorted lt l).
Proof.
  induction l as [|x l IH]; simpl; [constructor|].
  apply insert_sorted_ordered. exact IH.
Qed.

End SortFacts.

(** A sort commutes with a map that keeps the order. *)
Lemma sorted_map :
  forall (A B : Type) (lt : A -> A -> bool) (lt' : B -> B -> bool)
         (f : A -> B) l,
    (forall a b, lt' (f a) (f b) = lt a b) ->
    PyList.sorted lt' (map f l) = map f (PyList.sorted lt l).
Proof.
  intros A B lt lt' f l H. induction l as [|x l IH]; simpl; [reflexivity|].
  rewrite IH. generalize (PyList.sorted lt l). intros s.
  induction s as [|y s IHs]; simpl; [reflexivity|].
  rewrite H. destruct (lt y x); simpl; [rewrite IHs|]; reflexivity.
Qed.

Lemma strongly_sorted_strict :
  forall (A : Type) (R S : A -> A -> Prop) l,
    (forall a b, R a b -> a <> b -> S a b) ->
    NoDup l -> StronglySorted R l -> StronglySorted S l.
Proof.
  intros A R S l H Hnd Hs. induction Hs as [|x l Hs IH Hall].
  - constructor.
  - inversion Hnd as [|? ? Hnot Hrest]; subst.
    constructor; [exact (IH Hrest)|].
    rewrite Forall_forall in *. intros z Hz.
    apply H; [apply Hall; exact Hz|]. intros ->. contradiction.
Qed.

(** ** The order of the strings *)

Lemma ascii_compare_refl : forall a, Ascii.compare a a = Eq.
Proof. intros a. apply N.compare_refl. Qed.

Lemma ascii_compare_lt_trans :
  forall a b c,
    Ascii.compare a b = Lt -> Ascii.compare b c = Lt -> Ascii.compare a c = Lt.
Proof.
  unfold Ascii.compare. intros a b c H1 H2.
  rewrite N.compare_lt_iff in *. lia.
Qed.

Lemma string_compare_lt_trans :
  forall a b c,
    String.compare a b = Lt -> String.compare b c = Lt ->
    String.compare a c = Lt.
Proof.
  induction a as [|x a IH]; intros [|y b] [|z c] H1 H2; simpl in *;
    try discriminate; try reflexivity.
  destruct (Ascii.compare x y) eqn:Exy; try discriminate;
    destruct (Ascii.compare y z) eqn:Eyz; try discriminate.
  - apply Ascii.compare_eq_iff in Exy, Eyz. subst.
    rewrite ascii_compare_refl. exact (IH _ _ H1 H2).
  - apply Ascii.compare_eq_iff in Exy. subst. rewrite Eyz. reflexivity.
  - apply Ascii.compare_eq_iff in Eyz. subst. rewrite Exy. reflexivity.
  - rewrite (ascii_compare_lt_trans _ _ _ Exy Eyz). reflexivity.
Qed.

Lemma string_ltb_asym :
  forall a b, String.ltb a b = true -> String.ltb b a = false.
Proof.
  intros a b. unfold String.ltb. rewrite (String.compare_antisym b a).
  destruct (String.compare a b); simpl; congruence.
Qed.

Lemma string_ltb_negtrans :
  forall a b c,
    String.ltb b a = false -> String.ltb c b = false -> String.ltb c a = false.
Proof.
  intros a b c H1 H2. unfold String.ltb in *.
  destruct (String.compare c a) eqn:Eca; try reflexivity. exfalso.
  destruct (String.compare b a) eqn:Eba; try discriminate.
  - apply String.compare_eq_iff in Eba. subst. rewrite Eca in H2. discriminate.
  - destruct (String.compare c b) eqn:Ecb; try discriminate.
    + apply String.compare_eq_iff in Ecb. subst. congruence.
    + rewrite (String.compare_antisym c b) in Ecb.
      rewrite (String.compare_antisym b a) in Eba.
      destruct (String.compare b c) eqn:Ebc; try discriminate.
      destruct (String.compare a b) eqn:Eab; try discriminate.
      pose proof (string_compare_lt_trans _ _ _ Eab Ebc) as Hac.
      rewrite (String.compare_antisym c a), Hac in Eca. discriminate.
Qed.

Lemma string_ltb_total :
  forall a b, String.ltb b a = false -> a <> b -> String.ltb a b = true.
Proof.
  intros a b H Hne. unfold String.ltb in *.
  rewrite (String.compare_antisym b a) in H.
  destruct (String.compare a b) eqn:E; simpl in *; try congruence.
  apply String.compare_eq_iff in E. contradiction.
Qed.

Lemma string_not_ltb_leb :
  forall a b, String.ltb b a = false -> String.leb a b = true.
Proof.
  intros a b. unfold String.ltb, String.leb.
  rewrite (String.compare_antisym b a).
  destruct (String.compare a b); simpl; congruence.
Qed.

(** ** Dictionaries *)

Section DictFacts.

Variables K V : Type.
Variable eqb : K -> K -> bool.
Hypothesis eqb_spec : forall a b, eqb a b = true <-> a = b.

Lemma eqb_false : forall a b, a <> b -> eqb a b = false.
Proof.
  intros a b H. destruct (eqb a b) eqn:E; [|reflexivity].
  apply eqb_spec in E. contradiction.
Qed.

Lemma eqb_same : forall a, eqb a a = true.
Proof. intros a. apply eqb_spec. reflexivity. Qed.

Lemma get_present :
  forall k (v : V) d,
    NoDup (map fst d) -> In (k, v) d -> PyList.get eqb k d = Some v.
Proof.
  intros k v d. induction d as [|[k' v'] d IH]; intros Hnd Hin;
    [contradiction|].
  simpl in *. inversion Hnd as [|? ? Hnot Hrest]; subst.
  destruct Hin as [E|Hin].
  - injection E as -> ->. rewrite eqb_same. reflexivity.
  - rewrite eqb_false; [exact (IH Hrest Hin)|].
    intros ->. apply Hnot. apply in_map_iff. exists (k, v). auto.
Qed.

Lemma set_absent :
  forall k (v : V) d,
    ~ In k (map fst d) -> PyList.set eqb k v d = d ++ [(k, v)].
Proof.
  intros k v d. induction d as [|[k' v'] d IH]; intros H; [reflexivity|].
  simpl in *. rewrite eqb_false by (intros ->; apply H; auto).
  rewrite IH; [reflexivity|]. intro Hin. apply H. auto.
Qed.

(** The keys after an update: the same, or one more at the end. *)
Lemma update_keys :
  forall k dflt (f : V -> V) d,
    map fst (PyList.update eqb k dflt f d)
    = if existsb (eqb k) (map fst d) then map fst d else map fst d ++ [k].
Proof.
  intros k dflt f d. induction d as [|[k' v'] d IH]; [reflexivity|].
  simpl. destruct (eqb k' k) eqn:E.
  - apply eqb_spec in E. subst. rewrite eqb_same. reflexivity.
  - assert (E' : eqb k k' = false).
    { apply eqb_false. intros ->. rewrite eqb_same in E. discriminate. }
    rewrite E'. simpl. rewrite IH.
    destruct (existsb (eqb k) (map fst d)); reflexivity.
Qed.

Lemma update_keys_nodup :
  forall k dflt (f : V -> V) d,
    NoDup (map fst d) -> NoDup (map fst (PyList.update eqb k dflt f d)).
Proof.
  intros k dflt f d H. rewrite update_keys.
  destruct (existsb (eqb k) (map fst d)) eqn:E; [exact H|].
  apply NoDup_app; [exact H|repeat constructor; simpl; tauto|].
  intros z Hz [<-|[]].
  assert (Hex : existsb (eqb k) (map fst d) = true).
  { apply existsb_exists. exists k. split; [exact Hz|apply eqb_same]. }
  congruence.
Qed.

(** What an update holds: the other entries as they were, and under the
    key the new value. *)
Lemma update_entries :
  forall (P : K -> V -> Prop) k dflt (f : V -> V) d,
    (forall v, P k v -> P k (f v)) ->
    P k (f dflt) ->
    Forall (fun kv => P (fst kv) (snd kv)) d ->
    Forall (fun kv => P (fst kv) (snd kv)) (PyList.update eqb k dflt f d).
Proof.
  intros P k dflt f d Hf Hd. induction d as [|[k' v'] d IH]; intros H; simpl.
  - repeat constructor. exact Hd.
  - inversion H as [|? ? Hkv Hrest]; subst. simpl in Hkv.
    destruct (eqb k' k) eqn:E.
    + apply eqb_spec in E. subst. constructor; [apply Hf; exact Hkv|exact Hrest].
    + constructor; [exact Hkv|exact (IH Hrest)].
Qed.

(** The values of a dictionary, flattened, gain what the update adds. *)
Lemma update_flat :
  forall (X : Type) (fl : V -> list X) (x : X) k dflt (f : V -> V) d,
    (forall v, Permutation (fl (f v)) (x :: fl v)) ->
    fl dflt = [] ->
    Permutation (flat_map (fun kv => fl (snd kv)) (PyList.update eqb k dflt f d))
                (x :: flat_map (fun kv => fl (snd kv)) d).
Proof.
  intros X fl x k dflt f d Hf Hd. induction d as [|[k' v'] d IH]; simpl.
  - rewrite app_nil_r. specialize (Hf dflt). rewrite Hd in Hf. exact Hf.
  - destruct (eqb k' k); simpl.
    + eapply perm_trans; [apply Permutation_app_tail; apply Hf|].
      reflexivity.
    + eapply perm_trans; [apply Permutation_app_head; exact IH|].
      apply Permutation_sym, Permutation_middle.
Qed.

End DictFacts.

Lemma year_key_eqb_spec :
  forall a b, Index.year_key_eqb a b = true <-> a = b.
Proof.
  intros [x|] [y|]; simpl; split; intros H; try discriminate; try reflexivity.
  - apply Z.eqb_eq in H. congruence.
  - injection H as ->. apply Z.eqb_refl.
Qed.

(* ================================================================== *)
(** * The index: scan, groups and sections                             *)
(* ================================================================== *)

Lemma extract_year_ok :
  forall uc parts,
    Index.extract_year_from_path uc parts = Ok (year_of_parts uc parts) /\
    (year_of_parts uc parts = None \/
     exists y, year_of_parts uc parts = Some y /\ (1900 <= y <= 2099)%Z).
Proof.
  intros uc parts. unfold year_of_parts.
  destruct (extract_year_returns uc parts)
    as [(y & E & earlier & seg & later & _ & _ & Hfirst)|[E _]]; rewrite E.
  - split; [reflexivity|]. right. exists y. split; [reflexivity|].
    destruct Hfirst as (pre & tok & post & (_ & Htok & _) & _).
    destruct Htok as (c1 & c2 & u3 & u4 & d1 & d2 & d3 & d4 & Htok).
    apply Htok.
  - split; [reflexivity|]. left. reflexivity.
Qed.

Lemma scan_run :
  forall uc candidates pdf_files excluded,
    Index.scan uc candidates pdf_files excluded
    = Ok (pdf_files ++ map (pdf_of uc) (filter listed candidates),
          List.length (filter in_dot_files candidates) + excluded).
Proof.
  intros uc.
  induction candidates as [|p rest IH]; intros pdf_files excluded.
  - simpl. rewrite app_nil_r. reflexivity.
  - cbn [Index.scan filter]. unfold listed at 1.
    fold (in_dot_files p).
    destruct (in_dot_files p); simpl negb; cbn [andb].
    + rewrite IH. simpl. f_equal. f_equal. lia.
    + destruct (Index.is_file p); simpl negb; cbv iota.
      * rewrite (proj1 (extract_year_ok uc (Index.parts p))).
        rewrite IH. simpl. rewrite <- app_assoc. reflexivity.
      * rewrite IH. reflexivity.
Qed.

(** X12.  The scan never fails.  It lists, in the order of the walk,
    exactly the paths that are files and have no part named [.files],
    each with its path joined by slashes, its last part as its name and
    the year [extract_year_from_path] finds, which is absent or a year
    from 1900 to 2099.  The count of the excluded paths is the number of
    candidates with a part named [.files], files or not; a folder whose
    name only ends in [.files] excludes nothing. *)
Theorem scan_lists_the_files_outside_dot_files :
  forall (uc : string -> PyStr.uclass) (candidates : list Index.found),
    Index.scan uc candidates [] 0
    = Ok (map (pdf_of uc) (filter listed candidates),
          List.length (filter in_dot_files candidates)) /\
    Forall plausible_year (map (pdf_of uc) (filter listed candidates)).
Proof.
  intros uc candidates. split.
  - rewrite scan_run. simpl. rewrite Nat.add_0_r. reflexivity.
  - rewrite Forall_forall. intros f Hf.
    apply in_map_iff in Hf. destruct Hf as (p & <- & _).
    unfold plausible_year, pdf_of. simpl.
    exact (proj2 (extract_year_ok uc (Index.parts p))).
Qed.

Example scan_of_the_example_tree :
  forall uc,
    Index.scan uc example_tree [] 0
    = Ok ([ Index.mkPdf "downloads/2014/b.pdf" "b.pdf" (Some 2014%Z);
            Index.mkPdf "downloads/2013/B.pdf" "B.pdf" (Some 2013%Z);
            Index.mkPdf "downloads/2013/a.pdf" "a.pdf" (Some 2013%Z);
            Index.mkPdf "downloads/unknown/z.pdf" "z.pdf" None;
            Index.mkPdf "page.files/2013/q.pdf" "q.pdf" (Some 2013%Z);
            Index.mkPdf "root.pdf" "root.pdf" None ], 1).
Proof. intros uc. vm_compute. reflexivity. Qed.

(** ** The groups *)

Lemma string_eqb_spec : forall a b, String.eqb a b = true <-> a = b.
Proof. intros. apply String.eqb_eq. Qed.

Lemma add_file_well_formed :
  forall g f, groups_well_formed g -> groups_well_formed (Index.add_file g f).
Proof.
  intros g f [Hnd Hall]. unfold Index.add_file. split.
  - apply (@update_keys_nodup _ _ String.eqb string_eqb_spec). exact Hnd.
  - apply (@update_entries _ _ String.eqb string_eqb_spec
             (fun (t : string) (d : Index.year_groups) =>
                NoDup (map fst d) /\
                Forall (fun kf =>
                          snd kf <> [] /\
                          Forall (fun f' =>
                                    Index.top_dir f' = t /\
                                    Index.year_key_of (Index.pdf_year f') = fst kf)
                                 (snd kf)) d)); [| |exact Hall].
    + intros d [Hd1 Hd2]. split.
      * apply (@update_keys_nodup _ _ Index.year_key_eqb year_key_eqb_spec). exact Hd1.
      * apply (@update_entries _ _ Index.year_key_eqb year_key_eqb_spec
                 (fun (k : Index.year_key) (files : list Index.pdf) =>
                    files <> [] /\
                    Forall (fun f' =>
                              Index.top_dir f' = Index.top_dir f /\
                              Index.year_key_of (Index.pdf_year f') = k) files));
          [| |exact Hd2].
        -- intros files [_ Hfs]. split; [destruct files; discriminate|].
           apply Forall_app. split; [exact Hfs|]. repeat constructor.
        -- split; [discriminate|]. repeat constructor.
    + split; [repeat constructor; simpl; tauto|].
      repeat constructor; simpl; discriminate.
Qed.

Lemma add_file_permutation :
  forall g f, Permutation (all_files (Index.add_file g f)) (f :: all_files g).
Proof.
  intros g f. unfold all_files, Index.add_file.
  apply (@update_flat _ _ String.eqb _ files_in f).
  - intros d. unfold files_in.
    apply (@update_flat _ _ Index.year_key_eqb _ (fun files : list Index.pdf => files) f).
    + intros files. apply Permutation_sym, Permutation_cons_append.
    + reflexivity.
  - reflexivity.
Qed.

Lemma group_files_run :
  forall pdf_files g,
    groups_well_formed g ->
    groups_well_formed (fold_left Index.add_file pdf_files g) /\
    Permutation (all_files (fold_left Index.add_file pdf_files g))
                (all_files g ++ pdf_files).
Proof.
  induction pdf_files as [|f rest IH]; intros g Hg; simpl.
  - rewrite app_nil_r. split; [exact Hg|apply Permutation_refl].
  - destruct (IH (Index.add_file g f) (add_file_well_formed f Hg)) as [Hw Hp].
    split; [exact Hw|].
    eapply perm_trans; [exact Hp|].
    eapply perm_trans;
      [apply Permutation_app_tail; apply add_file_permutation|].
    simpl. apply Permutation_middle.
Qed.

Lemma group_files_well_formed :
  forall pdf_files,
    groups_well_formed (Index.group_files pdf_files) /\
    Permutation (all_files (Index.group_files pdf_files)) pdf_files.
Proof.
  intros pdf_files. unfold Index.group_files.
  apply (group_files_run pdf_files (g := [])).
  split; constructor.
Qed.

(** ** The year sections of a directory *)

Lemma display_year_is_not_the_folder :
  forall y, String.eqb (PyStr.of_Z y) Index.no_year_folder = false.
Proof.
  intros y. apply String.eqb_neq. intros H.
  pose proof (of_Z_chars y) as Hc. rewrite H in Hc. discriminate.
Qed.

Lemma display_inj :
  forall a b, Index.display a = Index.display b -> a = b.
Proof.
  intros [x|] [y|] H; simpl in H; try reflexivity.
  - f_equal. apply of_Z_inj. exact H.
  - pose proof (display_year_is_not_the_folder x) as E.
    rewrite H, String.eqb_refl in E. discriminate.
  - pose proof (display_year_is_not_the_folder y) as E.
    rewrite <- H, String.eqb_refl in E. discriminate.
Qed.

Lemma nodup_map_inj :
  forall (A B : Type) (f : A -> B) l,
    (forall a b, f a = f b -> a = b) -> NoDup l -> NoDup (map f l).
Proof.
  intros A B f l Hf H. induction H as [|x l Hnot Hnd IH]; simpl; constructor.
  - intro Hin. apply in_map_iff in Hin. destruct Hin as (y & E & Hy).
    apply Hf in E. subst. contradiction.
  - exact IH.
Qed.

Lemma year_map_run :
  forall d acc,
    NoDup (map fst acc ++ map (fun kv => Index.display (fst kv)) d) ->
    fold_left
      (fun m kv =>
         PyList.set String.eqb (Index.display (fst kv))
                    (Index.sort_files (snd kv)) m) d acc
    = acc ++ map (fun kv => (Index.display (fst kv), Index.sort_files (snd kv))) d.
Proof.
  induction d as [|[k files] d IH]; intros acc H; simpl.
  - rewrite app_nil_r. reflexivity.
  - simpl in H.
    assert (Hk : ~ In (Index.display k) (map fst acc)).
    { apply NoDup_remove_2 in H. intro Hin. apply H.
      apply in_or_app. left. exact Hin. }
    rewrite (@set_absent _ _ String.eqb string_eqb_spec) by exact Hk.
    rewrite IH.
    + rewrite <- app_assoc. reflexivity.
    + rewrite map_app, <- app_assoc. simpl. exact H.
Qed.

Lemma year_map_eq :
  forall d,
    NoDup (map fst d) ->
    Index.year_map d
    = map (fun kv => (Index.display (fst kv), Index.sort_files (snd kv))) d.
Proof.
  intros d H. unfold Index.year_map. rewrite year_map_run; [reflexivity|].
  simpl. rewrite <- map_map. apply nodup_map_inj; [exact display_inj|exact H].
Qed.

Lemma year_names_filter :
  forall keys,
    filter (fun y => negb (String.eqb y Index.no_year_folder))
           (map Index.display keys)
    = map PyStr.of_Z (years_in keys).
Proof.
  induction keys as [|[y|] keys IH];
    cbn [map filter Index.display years_in flat_map app]; [reflexivity| |].
  - rewrite display_year_is_not_the_folder. cbn [negb]. rewrite IH. reflexivity.
  - rewrite String.eqb_refl. cbn [negb]. exact IH.
Qed.

Lemma year_names_folder :
  forall keys,
    existsb (String.eqb Index.no_year_folder) (map Index.display keys)
    = existsb is_no_year keys.
Proof.
  induction keys as [|[y|] keys IH];
    cbn [map existsb Index.display is_no_year]; [reflexivity| |].
  - rewrite String.eqb_sym, display_year_is_not_the_folder. exact IH.
  - rewrite String.eqb_refl. reflexivity.
Qed.

Lemma int_keys_of_years :
  forall ys,
    Index.int_keys (map PyStr.of_Z ys)
    = Some (map (fun y => (y, PyStr.of_Z y)) ys).
Proof.
  induction ys as [|y ys IH]; simpl; [reflexivity|].
  rewrite to_int_of_Z, IH. reflexivity.
Qed.

Lemma sorted_years_eq :
  forall d,
    NoDup (map fst d) ->
    Index.sorted_years (Index.year_map d)
    = Ok (map Index.display (ordered_keys (map fst d))).
Proof.
  intros d H. unfold Index.sorted_years. rewrite (@year_map_eq _ H).
  rewrite map_map. simpl. rewrite <- (map_map fst Index.display).
  rewrite year_names_filter, int_keys_of_years, year_names_folder.
  rewrite (sorted_map Z.ltb (fun a b : Z * string => (fst a <? fst b)%Z)
             (fun y => (y, PyStr.of_Z y)))
    by (intros; reflexivity).
  unfold ordered_keys. rewrite map_app, !map_map. simpl.
  destruct (existsb is_no_year (map fst d)); simpl;
    rewrite ?app_nil_r; reflexivity.
Qed.

Lemma for_each_ok :
  forall (A B C : Type) (g : A -> B) (f : B -> result C) (h : A -> C) l,
    (forall x, In x l -> f (g x) = Ok (h x)) ->
    Index.for_each f (map g l) = Ok (map h l).
Proof.
  intros A B C g f h l. induction l as [|x l IH]; intros H; simpl.
  - reflexivity.
  - rewrite (H x) by (left; reflexivity).
    rewrite IH; [reflexivity|]. intros y Hy. apply H. right. exact Hy.
Qed.

Lemma in_years_in :
  forall y keys, In y (years_in keys) <-> In (Index.YearKey y) keys.
Proof.
  intros y keys. induction keys as [|[z|] keys IH]; simpl.
  - tauto.
  - rewrite IH. split; intros [H|H]; auto; left; congruence.
  - rewrite IH. split; [auto|]. intros [H|H]; [discriminate|exact H].
Qed.

Lemma in_ordered_keys :
  forall k keys, In k (ordered_keys keys) -> In k keys.
Proof.
  intros k keys H. unfold ordered_keys in H. apply in_app_or in H.
  destruct H as [H|H].
  - apply in_map_iff in H. destruct H as (y & <- & Hy).
    apply (Permutation_in y (Permutation_sym (sorted_permutation Z.ltb _))) in Hy.
    apply in_years_in. exact Hy.
  - destruct (existsb is_no_year keys) eqn:E; [|contradiction].
    destruct H as [<-|[]].
    apply existsb_exists in E. destruct E as ([z|] & Hz & Ez);
      [discriminate|exact Hz].
Qed.

Lemma files_under_present :
  forall k files d,
    NoDup (map fst d) -> In (k, files) d -> files_under k d = files.
Proof.
  intros k files d Hnd Hin. unfold files_under.
  rewrite (@get_present _ _ Index.year_key_eqb year_key_eqb_spec k files d Hnd Hin).
  reflexivity.
Qed.

Lemma year_sections_eq :
  forall d,
    NoDup (map fst d) ->
    Index.year_sections d
    = Ok (map (section_of d) (ordered_keys (map fst d))).
Proof.
  intros d H. unfold Index.year_sections. rewrite (@sorted_years_eq _ H).
  apply for_each_ok. intros k Hk. apply in_ordered_keys in Hk.
  apply in_map_iff in Hk. destruct Hk as ([k' files] & E & Hin).
  simpl in E. subst k'. unfold Index.lookup.
  rewrite (@year_map_eq _ H).
  rewrite (@get_present _ _ String.eqb string_eqb_spec (Index.display k)
             (Index.sort_files files)).
  - unfold section_of. rewrite (@files_under_present k files _ H Hin). reflexivity.
  - rewrite map_map. simpl. rewrite <- (map_map fst Index.display).
    apply nodup_map_inj; [exact display_inj|exact H].
  - apply in_map_iff. exists (k, files). split; [reflexivity|exact Hin].
Qed.

Lemma ordered_keys_permutation :
  forall keys, NoDup keys -> Permutation (ordered_keys keys) keys.
Proof.
  intros keys H. unfold ordered_keys.
  eapply perm_trans.
  { apply Permutation_app_tail. apply Permutation_map.
    apply Permutation_sym. apply sorted_permutation. }
  induction H as [|[y|] keys Hnot Hnd IH]; simpl.
  - constructor.
  - apply perm_skip. exact IH.
  - assert (E : existsb is_no_year keys = false).
    { destruct (existsb is_no_year keys) eqn:E; [|reflexivity].
      apply existsb_exists in E. destruct E as ([z|] & Hz & Ez);
        [discriminate|contradiction]. }
    rewrite E in IH. rewrite app_nil_r in IH.
    eapply perm_trans; [apply Permutation_sym, Permutation_cons_append|].
    apply perm_skip. exact IH.
Qed.

Lemma flat_map_pointwise :
  forall (A B : Type) (f g : A -> list B) l,
    (forall x, In x l -> Permutation (f x) (g x)) ->
    Permutation (flat_map f l) (flat_map g l).
Proof.
  intros A B f g l. induction l as [|x l IH]; intros H; simpl.
  - constructor.
  - apply Permutation_app; [apply H; left; reflexivity|].
    apply IH. intros y Hy. apply H. right. exact Hy.
Qed.

Lemma flat_map_keys :
  forall (K V X : Type) (fl : K -> list X) (gl : K * V -> list X) (d : list (K * V)),
    (forall kv, In kv d -> fl (fst kv) = gl kv) ->
    flat_map fl (map fst d) = flat_map gl d.
Proof.
  intros K V X fl gl d. induction d as [|kv d IH]; intros H; simpl.
  - reflexivity.
  - rewrite (H kv) by (left; reflexivity). f_equal.
    apply IH. intros y Hy. apply H. right. exact Hy.
Qed.

(** The files of the year sections of a directory are its files. *)
Lemma year_sections_files :
  forall d,
    NoDup (map fst d) ->
    Permutation
      (flat_map snd (map (section_of d) (ordered_keys (map fst d))))
      (files_in d).
Proof.
  intros d H. rewrite flat_map_concat_map, map_map, <- flat_map_concat_map.
  unfold section_of. simpl.
  eapply perm_trans.
  { apply flat_map_pointwise with (g := fun k => files_under k d).
    intros k _. apply Permutation_sym. apply sorted_permutation. }
  eapply perm_trans.
  { apply Permutation_flat_map. apply ordered_keys_permutation. exact H. }
  unfold files_in.
  rewrite (flat_map_keys (fun k => files_under k d) snd d); [reflexivity|].
  intros [k files] Hin. simpl. apply files_under_present; assumption.
Qed.

(** ** The directory sections *)

Lemma groups_under_present :
  forall top d g,
    NoDup (map fst g) -> In (top, d) g -> groups_under top g = d.
Proof.
  intros top d g Hnd Hin. unfold groups_under.
  rewrite (@get_present _ _ String.eqb string_eqb_spec top d g Hnd Hin).
  reflexivity.
Qed.

Lemma directory_sections_eq :
  forall g,
    groups_well_formed g ->
    Index.directory_sections g
    = Ok (map (directory_section g) (PyList.sorted String.ltb (map fst g))).
Proof.
  intros g [Hnd Hall]. unfold Index.directory_sections.
  rewrite <- (map_id (PyList.sorted String.ltb (map fst g))) at 1.
  apply for_each_ok. intros top Htop.
  apply (Permutation_in top (Permutation_sym (sorted_permutation String.ltb _)))
    in Htop.
  apply in_map_iff in Htop. destruct Htop as ([top' d] & E & Hin).
  simpl in E. subst top'.
  unfold Index.lookup, directory_section.
  rewrite (@groups_under_present top d _ Hnd Hin).
  rewrite (@get_present _ _ String.eqb string_eqb_spec top d g Hnd Hin).
  rewrite Forall_forall in Hall. destruct (Hall _ Hin) as [Hd _]. simpl in Hd.
  rewrite (@year_sections_eq _ Hd). reflexivity.
Qed.

Lemma directory_sections_files :
  forall g,
    groups_well_formed g ->
    Permutation
      (files_of_sections
         (map (directory_section g) (PyList.sorted String.ltb (map fst g))))
      (all_files g).
Proof.
  intros g [Hnd Hall]. unfold files_of_sections.
  rewrite flat_map_concat_map, map_map, <- flat_map_concat_map.
  unfold directory_section. simpl.
  eapply perm_trans.
  { apply Permutation_flat_map. apply Permutation_sym, sorted_permutation. }
  unfold all_files.
  rewrite (flat_map_keys
             (fun top =>
                flat_map snd
                  (map (section_of (groups_under top g))
                       (ordered_keys (map fst (groups_under top g)))))
             (fun td => flat_map snd
                          (map (section_of (snd td))
                               (ordered_keys (map fst (snd td)))))).
  - apply flat_map_pointwise. intros [top d] Hin. simpl.
    rewrite Forall_forall in Hall. destruct (Hall _ Hin) as [Hd _].
    apply year_sections_files. exact Hd.
  - intros [top d] Hin. simpl. rewrite (@groups_under_present top d _ Hnd Hin).
    reflexivity.
Qed.

(** ** The text of the sections *)

Lemma for_each_returns_when :
  forall (A B : Type) (f : A -> result B) (P : A -> Prop) (l : list A),
    (forall x, (exists y, f x = Ok y) <-> P x) ->
    ((exists ys, Index.for_each f l = Ok ys) <-> Forall P l).
Proof.
  intros A B f P l Hf. induction l as [|x l IH]; simpl.
  - split; [constructor|eauto].
  - split.
    + intros [ys H]. destruct (f x) as [y|e] eqn:E; [|discriminate].
      destruct (Index.for_each f l) as [ys'|e]; [|discriminate].
      constructor; [apply Hf; eauto|]. apply IH. eauto.
    + intros H. inversion H as [|? ? Hx Hl]; subst.
      apply Hf in Hx. destruct Hx as [y ->].
      apply IH in Hl. destruct Hl as [ys ->]. eauto.
Qed.

Lemma for_each_raises :
  forall (A B : Type) (f : A -> result B) (l : list A) e,
    Index.for_each f l = Raise e -> exists x, In x l /\ f x = Raise e.
Proof.
  intros A B f. induction l as [|a l IH]; simpl; intros e H; [discriminate|].
  destruct (f a) as [y|e'] eqn:E.
  - destruct (Index.for_each f l) as [ys|e''] eqn:E2; [discriminate|].
    injection H as <-. destruct (IH _ eq_refl) as (x & Hin & Hx). eauto.
  - injection H as <-. eauto.
Qed.

Lemma file_row_returns_iff :
  forall f,
    (exists row, Index.file_row f = Ok row)
    <-> PyStr.encodable (Index.pdf_path f) = true.
Proof.
  intros f. unfold Index.file_row, Url.quote.
  destruct (PyStr.encodable (Index.pdf_path f)); split.
  - reflexivity.
  - intros _. eexists. reflexivity.
  - intros [row H]. discriminate H.
  - discriminate.
Qed.

Lemma file_row_raises :
  forall f e, Index.file_row f = Raise e -> e = Url.unicode_encode_error.
Proof.
  intros f e. unfold Index.file_row, Url.quote.
  destruct (PyStr.encodable (Index.pdf_path f)); [discriminate|].
  intros H. injection H as <-. reflexivity.
Qed.

Lemma year_text_returns_iff :
  forall ys,
    (exists t, Index.year_text ys = Ok t) <-> paths_encodable (snd ys).
Proof.
  intros ys. unfold paths_encodable.
  rewrite <- (for_each_returns_when Index.file_row _ (snd ys)
                file_row_returns_iff).
  unfold Index.year_text.
  destruct (Index.for_each Index.file_row (snd ys)); split; eauto;
    intros [t H]; discriminate H.
Qed.

Lemma year_text_raises :
  forall ys e, Index.year_text ys = Raise e -> e = Url.unicode_encode_error.
Proof.
  intros ys e. unfold Index.year_text.
  destruct (Index.for_each Index.file_row (snd ys)) as [rows|e'] eqn:E;
    [discriminate|].
  intros H. injection H as <-.
  destruct (for_each_raises _ _ E) as (f & _ & Hf).
  exact (file_row_raises _ Hf).
Qed.

Lemma directory_text_returns_iff :
  forall ds,
    (exists t, Index.directory_text ds = Ok t)
    <-> paths_encodable (flat_map snd (snd ds)).
Proof.
  intros ds. unfold paths_encodable. rewrite Forall_flat_map.
  rewrite <- (for_each_returns_when Index.year_text _ (snd ds)
                year_text_returns_iff).
  unfold Index.directory_text.
  destruct (Index.for_each Index.year_text (snd ds)); split; eauto;
    intros [t H]; discriminate H.
Qed.

Lemma directory_text_raises :
  forall ds e,
    Index.directory_text ds = Raise e -> e = Url.unicode_encode_error.
Proof.
  intros ds e. unfold Index.directory_text.
  destruct (Index.for_each Index.year_text (snd ds)) as [years|e'] eqn:E;
    [discriminate|].
  intros H. injection H as <-.
  destruct (for_each_raises _ _ E) as (ys & _ & Hys).
  exact (year_text_raises _ Hys).
Qed.

Lemma content_of_returns_iff :
  forall sections,
    (exists content, Index.content_of sections = Ok content)
    <-> paths_encodable (files_of_sections sections).
Proof.
  intros sections. unfold paths_encodable, files_of_sections.
  rewrite Forall_flat_map.
  rewrite <- (for_each_returns_when Index.directory_text _ sections
                directory_text_returns_iff).
  unfold Index.content_of.
  destruct (Index.for_each Index.directory_text sections); split; eauto;
    intros [t H]; discriminate H.
Qed.

Lemma content_of_raises :
  forall sections e,
    Index.content_of sections = Raise e -> e = Url.unicode_encode_error.
Proof.
  intros sections e. unfold Index.content_of.
  destruct (Index.for_each Index.directory_text sections) as [ds|e'] eqn:E;
    [discriminate|].
  intros H. injection H as <-.
  destruct (for_each_raises _ _ E) as (d & _ & Hd).
  exact (directory_text_raises _ Hd).
Qed.

Lemma paths_encodable_perm :
  forall a b, Permutation a b -> (paths_encodable a <-> paths_encodable b).
Proof.
  intros a b H. unfold paths_encodable. split; apply Permutation_Forall.
  - exact H.
  - apply Permutation_sym. exact H.
Qed.

(** The sections built for some files, and when their text is
    written. *)
Lemma sections_text_run :
  forall pdf_files : list Index.pdf,
    let sections := map (directory_section (Index.group_files pdf_files))
                        (PyList.sorted String.ltb
                           (map fst (Index.group_files pdf_files))) in
    Index.directory_sections (Index.group_files pdf_files) = Ok sections /\
    Permutation (files_of_sections sections) pdf_files /\
    ((exists content, Index.content_of sections = Ok content)
     <-> paths_encodable pdf_files) /\
    (forall e,
       Index.content_of sections = Raise e <->
       e = Url.unicode_encode_error /\ ~ paths_encodable pdf_files).
Proof.
  intros pdf_files sections.
  destruct (group_files_well_formed pdf_files) as [Hwf Hperm].
  split; [apply directory_sections_eq; exact Hwf|].
  assert (Hp : Permutation (files_of_sections sections) pdf_files).
  { eapply perm_trans; [apply directory_sections_files; exact Hwf|exact Hperm]. }
  assert (Hok : (exists content, Index.content_of sections = Ok content)
                <-> paths_encodable pdf_files).
  { rewrite content_of_returns_iff. apply paths_encodable_perm. exact Hp. }
  split; [exact Hp|]. split; [exact Hok|].
  intros e. split.
  - intros H. split; [exact (content_of_raises _ H)|].
    intros Henc. apply Hok in Henc. destruct Henc as [content Hc].
    rewrite Hc in H. discriminate H.
  - intros [-> Hno].
    destruct (Index.content_of sections) as [content|e] eqn:E.
    + exfalso. apply Hno. apply Hok. eauto.
    + rewrite (content_of_raises _ E). reflexivity.
Qed.

(** X13.  The sections of the index hold every file of [pdf_files], and
    hold it once: whatever the files, building the sections never fails
    (no year name fails to read as an integer, no lookup misses its
    key), and the files of all the year sections of all the directory
    sections are the files of [pdf_files], each as many times as it is
    there.  The text of the sections is written exactly when the path
    of every file can be encoded as UTF-8; otherwise the loop ends on
    the [UnicodeEncodeError] of [quote] (line 88), and on no other
    exception. *)
Theorem index_lists_every_file_once :
  forall pdf_files : list Index.pdf,
  exists sections,
    Index.directory_sections (Index.group_files pdf_files) = Ok sections /\
    Permutation (files_of_sections sections) pdf_files /\
    List.length (files_of_sections sections) = List.length pdf_files /\
    ((exists content, Index.content_of sections = Ok content)
     <-> paths_encodable pdf_files) /\
    (forall e,
       Index.content_of sections = Raise e <->
       e = Url.unicode_encode_error /\ ~ paths_encodable pdf_files).
Proof.
  intros pdf_files.
  destruct (sections_text_run pdf_files) as (Hsec & Hp & Hok & Hraise).
  eexists. split; [exact Hsec|]. split; [exact Hp|].
  split; [apply Permutation_length; exact Hp|].
  split; [exact Hok|exact Hraise].
Qed.

(** ** The order of the sections *)

Lemma strongly_sorted_weaken :
  forall (A : Type) (R S : A -> A -> Prop) l,
    (forall a b, R a b -> S a b) ->
    StronglySorted R l -> StronglySorted S l.
Proof.
  intros A R S l H Hs. induction Hs as [|x l Hs IH Hall]; constructor.
  - exact IH.
  - revert Hall. apply Forall_impl. intros b. apply H.
Qed.

Lemma nodup_years_in :
  forall keys, NoDup keys -> NoDup (years_in keys).
Proof.
  intros keys H. induction H as [|[y|] keys Hnot Hnd IH]; simpl.
  - constructor.
  - constructor; [|exact IH]. intro Hin. apply Hnot. apply in_years_in. exact Hin.
  - exact IH.
Qed.

Lemma ordered_keys_names :
  forall keys,
    NoDup keys -> year_names_in_order (map Index.display (ordered_keys keys)).
Proof.
  intros keys H. unfold ordered_keys. rewrite map_app, map_map. simpl.
  exists (PyList.sorted Z.ltb (years_in keys)).
  eexists. split; [reflexivity|]. split.
  - apply strongly_sorted_strict with (R := fun a b => (b <? a)%Z = false).
    + intros a b Hab Hne. apply Z.ltb_ge in Hab. lia.
    + apply (Permutation_NoDup (sorted_permutation Z.ltb (years_in keys))).
      apply nodup_years_in. exact H.
    + apply sorted_ordered.
      * intros x y Hxy. apply Z.ltb_lt in Hxy. apply Z.ltb_ge. lia.
      * intros x y z H1 H2. apply Z.ltb_ge in H1, H2. apply Z.ltb_ge. lia.
  - destruct (existsb is_no_year keys); [right|left]; reflexivity.
Qed.

Lemma sort_files_sorted :
  forall files, StronglySorted path_le (Index.sort_files files).
Proof.
  intros files. unfold Index.sort_files.
  apply strongly_sorted_weaken
    with (R := fun a b =>
                 String.ltb (PyStr.lower (Index.pdf_path b))
                            (PyStr.lower (Index.pdf_path a)) = false).
  - intros a b. apply string_not_ltb_leb.
  - apply (sorted_ordered
             (fun a b => String.ltb (PyStr.lower (Index.pdf_path a))
                                    (PyStr.lower (Index.pdf_path b)))).
    + intros x y. apply string_ltb_asym.
    + intros x y z. apply string_ltb_negtrans.
Qed.

Lemma sort_files_permutation :
  forall files, Permutation files (Index.sort_files files).
Proof. intros files. apply sorted_permutation. Qed.

(** X14.  The order and the contents of the sections of the index.  The
    directory sections come in the ascending order of their names,
    compared character by character, each name once.  In a directory,
    the year sections come by ascending year, each once, and the section
    [No Year Folder] comes last when the directory has files without a
    year.  No section is empty; the files of a year section are in the
    order of their lower-cased paths; and each file is under the
    directory named by the text before the first slash of its path (its
    own name for a file at the root) and under the year found in its
    path. *)
Theorem index_sections_are_ordered :
  forall (pdf_files : list Index.pdf)
         (sections : list (string * list (string * list Index.pdf))),
    Index.directory_sections (Index.group_files pdf_files) = Ok sections ->
    StronglySorted (fun a b => String.ltb a b = true) (map fst sections) /\
    Forall
      (fun ds =>
         year_names_in_order (map fst (snd ds)) /\
         Forall
           (fun ys =>
              snd ys <> [] /\
              StronglySorted path_le (snd ys) /\
              Forall
                (fun f =>
                   Index.top_dir f = fst ds /\
                   Index.display (Index.year_key_of (Index.pdf_year f)) = fst ys)
                (snd ys))
           (snd ds))
      sections.
Proof.
  intros pdf_files sections H.
  destruct (group_files_well_formed pdf_files) as [Hwf _].
  rewrite (directory_sections_eq Hwf) in H. injection H as <-.
  set (g := Index.group_files pdf_files) in *.
  destruct Hwf as [Hnd Hall]. rewrite Forall_forall in Hall.
  split.
  - rewrite map_map. simpl. rewrite map_id.
    apply strongly_sorted_strict
      with (R := fun a b => String.ltb b a = false).
    + intros a b. apply string_ltb_total.
    + apply (Permutation_NoDup (sorted_permutation String.ltb (map fst g))).
      exact Hnd.
    + apply sorted_ordered.
      * exact string_ltb_asym.
      * exact string_ltb_negtrans.
  - rewrite Forall_forall. intros ds Hds.
    apply in_map_iff in Hds. destruct Hds as (top & <- & Htop).
    apply (Permutation_in top (Permutation_sym (sorted_permutation String.ltb _)))
      in Htop.
    apply in_map_iff in Htop. destruct Htop as ([top' d] & E & Hin).
    simpl in E. subst top'.
    unfold directory_section. simpl.
    rewrite (@groups_under_present top d g Hnd Hin).
    destruct (Hall _ Hin) as [Hd Hgroups]. simpl in Hd, Hgroups.
    rewrite Forall_forall in Hgroups.
    split.
    + rewrite map_map. simpl. apply ordered_keys_names. exact Hd.
    + rewrite Forall_forall. intros ys Hys.
      apply in_map_iff in Hys. destruct Hys as (k & <- & Hk).
      apply in_ordered_keys in Hk.
      apply in_map_iff in Hk. destruct Hk as ([k' files] & E & Hfiles).
      simpl in E. subst k'.
      unfold section_of. simpl.
      rewrite (@files_under_present k files d Hd Hfiles).
      destruct (Hgroups _ Hfiles) as [Hne Hcls]. simpl in Hne, Hcls.
      split.
      * intros E. apply Hne.
        pose proof (Permutation_length (sort_files_permutation files)) as Hl.
        rewrite E in Hl. destruct files; [reflexivity|discriminate].
      * split; [apply sort_files_sorted|].
        rewrite Forall_forall in *. intros f Hf.
        apply (Permutation_in f (Permutation_sym (sort_files_permutation files)))
          in Hf.
        destruct (Hcls f Hf) as [Ht Hy]. split; [exact Ht|].
        rewrite Hy. reflexivity.
Qed.

(** The sections of the example tree. *)
Lemma index_sections_are_ordered_example_tree :
  exists files sections,
    Index.scan sample_classes example_tree [] 0 = Ok (files, 1) /\
    Index.directory_sections (Index.group_files files) = Ok sections /\
    map (fun ds => (fst ds, map fst (snd ds))) sections
    = [ ("downloads", ["2013"; "2014"; "No Year Folder"]);
        ("page.files", ["2013"]);
        ("root.pdf", ["No Year Folder"]) ] /\
    StronglySorted (fun a b => String.ltb a b = true) (map fst sections).
Proof.
  eexists. eexists.
  split; [reflexivity|].
  split; [vm_compute; reflexivity|].
  split; [vm_compute; reflexivity|].
  refine (proj1 (@index_sections_are_ordered
                   (map (pdf_of sample_classes) (filter listed example_tree))
                   _ _)).
  vm_compute. reflexivity.
Defined.

(** ** The text of the index *)

(** The script as a function of what the scan lists. *)
Lemma generate_run :
  forall uc template candidates,
    Index.generate uc template candidates
    = match Index.content_of
              (map (directory_section
                      (Index.group_files
                         (map (pdf_of uc) (filter listed candidates))))
                   (PyList.sorted String.ltb
                      (map fst
                         (Index.group_files
                            (map (pdf_of uc) (filter listed candidates))))))
      with
      | Ok content =>
          Ok (Index.inject template
                (List.length (filter listed candidates)) content)
      | Raise e => Raise e
      end.
Proof.
  intros uc template candidates.
  destruct (group_files_well_formed
              (map (pdf_of uc) (filter listed candidates))) as [Hwf _].
  unfold Index.generate. rewrite scan_run. cbn [app].
  rewrite (directory_sections_eq Hwf), length_map. reflexivity.
Qed.

(** X15.  The script produces a text exactly when the path of every
    file it lists can be encoded as UTF-8, whatever else the tree
    holds; otherwise it ends on the [UnicodeEncodeError] of [quote],
    and it ends on no other exception.  The text is the template with
    its two markers replaced by the number of the files and by the text
    of the sections; a template that has neither marker is written out
    unchanged, however many files were found. *)
Theorem template_without_markers_is_copied :
  forall (uc : string -> PyStr.uclass) (template : string)
         (candidates : list Index.found),
    let files := map (pdf_of uc) (filter listed candidates) in
    ((exists text, Index.generate uc template candidates = Ok text)
     <-> paths_encodable files) /\
    (forall e,
       Index.generate uc template candidates = Raise e <->
       e = Url.unicode_encode_error /\ ~ paths_encodable files) /\
    (forall text,
       Index.generate uc template candidates = Ok text ->
       exists sections content,
         Index.directory_sections (Index.group_files files) = Ok sections /\
         Index.content_of sections = Ok content /\
         text = Index.inject template (List.length files) content) /\
    (PyStr.contains "{TOTAL_FILES}" template = false ->
     PyStr.contains "<!-- INJECTED_CONTENT -->" template = false ->
     paths_encodable files ->
     Index.generate uc template candidates = Ok template).
Proof.
  intros uc template candidates files.
  destruct (sections_text_run files) as (Hsec & _ & Hok & Hraise).
  set (sections := map (directory_section (Index.group_files files))
                       (PyList.sorted String.ltb
                          (map fst (Index.group_files files)))) in *.
  assert (Hgen : Index.generate uc template candidates
                 = match Index.content_of sections with
                   | Ok content =>
                       Ok (Index.inject template (List.length files) content)
                   | Raise e => Raise e
                   end).
  { rewrite generate_run. subst sections files. rewrite length_map.
    reflexivity. }
  split; [|split; [|split]].
  - rewrite <- Hok. rewrite Hgen.
    destruct (Index.content_of sections); split; eauto;
      intros [t H]; discriminate H.
  - intros e. rewrite <- Hraise. rewrite Hgen.
    destruct (Index.content_of sections); split; intros H;
      try discriminate H; exact H.
  - intros text H. rewrite Hgen in H.
    destruct (Index.content_of sections) as [content|e] eqn:E;
      [|discriminate H].
    injection H as <-. exists sections, content. auto.
  - intros H1 H2 Henc. apply Hok in Henc. destruct Henc as [content Hc].
    rewrite Hgen, Hc. unfold Index.inject.
    rewrite (replace_absent "{TOTAL_FILES}" _ template H1).
    rewrite (replace_absent "<!-- INJECTED_CONTENT -->" _ template H2).
    reflexivity.
Qed.

Lemma template_without_markers_is_copied_example :
  Index.generate sample_classes "<html><body>No index here</body></html>"
                 example_tree
  = Ok "<html><body>No index here</body></html>".
Proof.
  apply (proj2 (proj2 (proj2 (template_without_markers_is_copied
                  sample_classes
                  "<html><body>No index here</body></html>" example_tree))));
    try reflexivity.
  unfold paths_encodable. repeat constructor.
Defined.

(** The tree with a file whose name is no UTF-8: no index is written,
    whatever the template. *)
Example index_of_a_tree_with_a_latin1_name :
  forall uc template,
    Index.generate uc template tree_with_a_latin1_name
    = Raise Url.unicode_encode_error.
Proof. intros uc template. vm_compute. reflexivity. Qed.

(* ================================================================== *)
(** * From one stage to the next                                       *)
(* ================================================================== *)

Lemma load_rows_of_complete_rows :
  forall t inc,
    Forall complete_row t ->
    map rowid_of (Download.load_rows t inc)
    = map Store.rowid (filter (fun r => inc || flagged_no r) t).
Proof.
  intros t inc H. induction H as [|r t Hr Hall IH]; [reflexivity|].
  change (Download.load_rows (r :: t) inc)
    with (match Store.DirectPDF_Link r with
          | Some link =>
              if Download.has_link r && (inc || Download.null_or_no r)
              then [(Store.rowid r, link, Store.Year_From_URL r)]
              else []
          | None => []
          end ++ Download.load_rows t inc).
  cbn [filter]. rewrite map_app.
  etransitivity; [apply (f_equal (app _)); exact IH|].
  destruct Hr as (_ & Hlink & Hflag & _).
  assert (Hno : Download.null_or_no r = flagged_no r).
  { unfold Download.null_or_no, flagged_no.
    destruct Hflag as [-> | ->]; reflexivity. }
  rewrite Hlink, Hno. unfold Download.has_link in Hlink.
  destruct (Store.DirectPDF_Link r) as [link|]; [|discriminate].
  destruct (inc || flagged_no r); reflexivity.
Qed.

(** X16.  From the crawl to the download.  On a file whose rows are as
    the crawler writes them (a link that is not empty, a flag 'Yes' or
    'No'), the download stage selects every row when duplicates are
    included, and otherwise exactly the rows flagged 'No', in the order
    of the table: no row of the crawler is left out for want of a
    link. *)
Theorem download_selects_the_rows_flagged_no :
  forall t : Store.table,
    Forall complete_row t ->
    map rowid_of (Download.load_rows t true) = map Store.rowid t /\
    map rowid_of (Download.load_rows t false)
    = map Store.rowid (filter flagged_no t).
Proof.
  intros t H. split.
  - rewrite (load_rows_of_complete_rows true H). f_equal.
    clear H. induction t as [|r t IH]; simpl; [reflexivity|]. f_equal. exact IH.
  - rewrite (load_rows_of_complete_rows false H). reflexivity.
Qed.

(** The file the script leaves on the site of the scenario after two
    passes over the year 2013: the rows of the second pass are flagged,
    and the download stage selects none of them. *)
Lemma download_selects_the_rows_flagged_no_second_pass :
  let w1 := snd (Crawl.scrape_year join_absolute_path two_entry_site
                   Sqlite.no_faults 3 search_url 2013 empty_world) in
  let w2 := snd (Crawl.scrape_year join_absolute_path two_entry_site
                   Sqlite.no_faults 3 search_url 2013 w1) in
  map rowid_of (Download.load_rows (durable w1) false) = [1; 2]%Z /\
  map rowid_of (Download.load_rows (durable w2) true) = [3; 4]%Z /\
  map rowid_of (Download.load_rows (durable w2) false) = [].
Proof.
  intros w1 w2.
  assert (H2 : Forall complete_row (durable w2)).
  { assert (E : exists a b, durable w2 = [a; b] /\ complete_row a /\ complete_row b).
    { eexists. eexists. split; [vm_compute; reflexivity|].
      unfold complete_row, Download.has_link. simpl.
      repeat split; eauto. }
    destruct E as (a & b & E & Ha & Hb). rewrite E.
    constructor; [exact Ha|]. constructor; [exact Hb|constructor]. }
  destruct (download_selects_the_rows_flagged_no H2) as [Ha Hb].
  split; [vm_compute; reflexivity|]. split.
  - rewrite Ha. vm_compute. reflexivity.
  - rewrite Hb. vm_compute. reflexivity.
Defined.

Lemma index_years_read_back :
  forall uc y, (1900 <= y <= 2099)%Z -> year_reads_back uc y = true.
Proof.
  intros uc.
  assert (H : forallb (year_reads_back uc) index_years = true)
    by (vm_compute; reflexivity).
  intros y Hy. rewrite forallb_forall in H. apply H.
  unfold index_years. apply in_map_iff. exists (Z.to_nat y).
  split; [lia|]. apply in_seq. lia.
Qed.

Lemma no_token_search_none :
  forall uc seg,
    ~ has_year_token uc seg ->
    Index.search_year uc false (PyStr.chars seg) = None.
Proof.
  intros uc seg Hno.
  destruct (Index.search_year uc false (PyStr.chars seg)) as [tok|] eqn:E;
    [|reflexivity].
  exfalso. apply Hno.
  destruct (@search_year_some _ _ _ _ E) as (pre & post & Hocc & _).
  destruct Hocc as (Hs & (y & Hy) & Hp & He).
  exists pre, tok, post, y. repeat split; assumption.
Qed.

Lemma split_at_separator :
  forall c p x,
    PyStr.forallb_str (fun a => negb (Ascii.eqb a c)) p = true ->
    PyStr.split c (p +++ String c x) = p :: PyStr.split c x.
Proof.
  intros c p x. induction p as [|a p IH]; intros H.
  - simpl. rewrite Ascii.eqb_refl. reflexivity.
  - simpl in H. apply andb_true_iff in H. destruct H as [Ha Hp].
    apply negb_true_iff in Ha.
    cbn [String.append PyStr.split]. rewrite Ha, (IH Hp). reflexivity.
Qed.

(** Joining a directory that is one segment and a name. *)
Lemma path_join_segment :
  forall a b,
    PyStr.truthy a = true ->
    PyStr.forallb_str (fun c => negb (Ascii.eqb "/"%char c)) a = true ->
    Download.path_join a b = a +++ "/" +++ b.
Proof.
  intros a b Ht Hs. unfold Download.path_join, PyStr.rstrip_char.
  destruct a as [|c a]; [discriminate Ht|].
  rewrite (rstrip_by_keeps _ _ Hs), String.eqb_refl. reflexivity.
Qed.

Lemma one_segment_sym :
  forall s,
    one_segment s = true ->
    PyStr.forallb_str (fun c => negb (Ascii.eqb "/"%char c)) s = true.
Proof.
  intros s. unfold one_segment. apply forallb_str_impl.
  intros c Hc. rewrite Ascii.eqb_sym. exact Hc.
Qed.

(** The name of a fetched file is one segment. *)
Lemma unique_fname_segment :
  forall sha1 rid url,
    (forall u, one_segment (sha1 u) = true) ->
    one_segment (Download.unique_fname sha1 rid url) = true.
Proof.
  intros sha1 rid url Hsha. unfold Download.unique_fname, one_segment.
  rewrite !forallb_str_app.
  rewrite (of_Z_avoids (fun c => Ascii.eqb c "/"%char)) by by_sign_or_digit.
  rewrite (substring_forall _ 8 (sha1 url) 0 (Hsha url)).
  cbn [PyStr.forallb_str Ascii.eqb Bool.eqb negb andb].
  unfold Download.basename_from_url.
  match goal with
  | |- PyStr.forallb_str _ (Download.sanitize_filename ?n) = true =>
      destruct (sanitize_filename_plain n) as [Hp _]
  end.
  revert Hp. unfold plain_name. apply forallb_str_impl.
  intros c Hc. unfold is_reserved in Hc.
  destruct (Ascii.eqb c "/"); [discriminate Hc|reflexivity].
Qed.

(** The destination of a row below an output directory that is one
    segment: the directory, the year, the name. *)
Lemma dest_path_parts :
  forall sha1 out rid url yr,
    out <> "" -> one_segment out = true ->
    (forall u, one_segment (sha1 u) = true) ->
    Download.dest_path_of sha1 out (rid, url, yr)
    = out +++ "/" +++ Download.year_str yr +++ "/" +++
      Download.unique_fname sha1 rid url /\
    PyStr.split "/" (Download.dest_path_of sha1 out (rid, url, yr))
    = [out; Download.year_str yr; Download.unique_fname sha1 rid url].
Proof.
  intros sha1 out rid url yr Hne Hout Hsha.
  destruct (year_str_segment yr) as [Hyt Hys].
  assert (Hot : PyStr.truthy out = true) by (destruct out; [congruence|reflexivity]).
  assert (E : Download.dest_path_of sha1 out (rid, url, yr)
              = out +++ "/" +++ Download.year_str yr +++ "/" +++
                Download.unique_fname sha1 rid url).
  { unfold Download.dest_path_of.
    rewrite (path_join_segment out _ Hot (one_segment_sym _ Hout)).
    unfold Download.path_join, PyStr.rstrip_char.
    destruct (out +++ "/" +++ Download.year_str yr) eqn:Ed.
    - destruct out; [congruence|discriminate Ed].
    - rewrite <- Ed.
      assert (Ea : out +++ "/" +++ Download.year_str yr
                   = (out +++ "/") +++ Download.year_str yr)
        by (rewrite append_assoc; reflexivity).
      rewrite Ea at 1 2.
      rewrite rstrip_by_app; [|exact Hyt|].
      + rewrite <- Ea, String.eqb_refl, !append_assoc. reflexivity.
      + revert Hys. apply forallb_str_impl. intros c Hc.
        rewrite Ascii.eqb_sym. exact Hc. }
  split; [exact E|]. rewrite E.
  change (out +++ "/" +++ Download.year_str yr +++ "/" +++
          Download.unique_fname sha1 rid url)
    with (out +++ String "/"%char
                    (Download.year_str yr +++ String "/"%char
                       (Download.unique_fname sha1 rid url))).
  rewrite split_at_separator by exact Hout.
  rewrite split_at_separator by exact Hys.
  rewrite split_absent by (apply unique_fname_segment; exact Hsha).
  reflexivity.
Qed.

Lemma download_loop_dests :
  forall sha1 aria2c force out rows fs,
    map action_dest
        (fst (Download.download_loop sha1 aria2c force out rows fs))
    = map (Download.dest_path_of sha1 out) rows.
Proof.
  intros sha1 aria2c force out rows.
  induction rows as [|[[rid link] yr] rows IH]; intros fs; [reflexivity|].
  cbn [Download.download_loop map].
  match goal with
  | |- context [if ?c then _ else _] => destruct c
  end.
  - match goal with
    | |- context [Download.download_loop _ _ _ _ rows ?f] =>
        specialize (IH f);
        destruct (Download.download_loop sha1 aria2c force out rows f)
    end.
    simpl in *. rewrite IH. reflexivity.
  - match goal with
    | |- context [match ?t with inl _ => _ | inr _ => _ end] => destruct t
    end;
    match goal with
    | |- context [Download.download_loop _ _ _ _ rows ?f] =>
        specialize (IH f);
        destruct (Download.download_loop sha1 aria2c force out rows f)
    end;
    simpl in *; rewrite IH; reflexivity.
Qed.

(** X17.  From the download to the index.  Let the output directory be
    one path segment that holds no year token (as [downloads], the
    default), and let the digest hold no slash.  Every action of the
    download loop bears the destination [dest_path_of] gives for its
    row, and this destination has three segments: the output directory,
    the directory of the year, and the name of the file.  For a row of
    a year from 1900 to 2099 (all the years the crawler visits are) the
    index finds that very year for the file, whatever its name, beyond
    ASCII or not; for a row without a year the file lies in [unknown]
    and gets the year found in its own name, if any. *)
Theorem downloads_are_indexed_under_their_year :
  forall (uc : string -> PyStr.uclass) (sha1 : string -> string)
         (out : string),
    out <> "" -> one_segment out = true -> ~ has_year_token uc out ->
    (forall u, one_segment (sha1 u) = true) ->
    (forall aria2c force rows fs,
       map action_dest
           (fst (Download.download_loop sha1 aria2c force out rows fs))
       = map (Download.dest_path_of sha1 out) rows) /\
    (forall x : Download.fetched,
       let dest := Download.dest_path_of sha1 out x in
       let fname := Download.unique_fname sha1 (rowid_of x) (snd (fst x)) in
       PyStr.split "/" dest = [out; Download.year_str (year_of x); fname] /\
       (forall y,
          year_of x = Some y -> (1900 <= y <= 2099)%Z ->
          Index.extract_year_from_path uc (PyStr.split "/" dest)
          = Ok (Some y)) /\
       (year_of x = None ->
        Index.extract_year_from_path uc (PyStr.split "/" dest)
        = Index.extract_year_from_path uc [fname])) /\
    Forall (fun y => 1900 <= y <= 2099)%Z Crawl.years.
Proof.
  intros uc sha1 out Hne Hseg Hno Hsha.
  apply no_token_search_none in Hno.
  split; [intros; apply download_loop_dests|]. split.
  - intros [[rid url] yr] dest fname. subst dest fname.
    unfold rowid_of, year_of. cbn [fst snd].
    destruct (dest_path_parts sha1 rid url yr Hne Hseg Hsha) as [_ Hsplit].
    rewrite Hsplit. split; [reflexivity|]. split.
    + intros y -> Hy.
      pose proof (index_years_read_back uc Hy) as H.
      unfold year_reads_back in H.
      cbn [Index.extract_year_from_path Download.year_str] in *.
      rewrite Hno.
      destruct (Index.search_year uc false (PyStr.chars (PyStr.of_Z y)))
        as [tok|]; [|discriminate H].
      destruct (PyStr.int_of_chars uc tok) as [y'|]; [|discriminate H].
      apply Z.eqb_eq in H. subst y'. reflexivity.
    + intros ->. cbn [Index.extract_year_from_path Download.year_str].
      rewrite Hno. reflexivity.
  - unfold Crawl.years. repeat constructor; lia.
Qed.

Lemma downloads_are_indexed_under_their_year_example :
  Index.extract_year_from_path sample_classes
    (PyStr.split "/"
       (Download.dest_path_of constant_digest "downloads"
          (7%Z, "https://www.aclu.org/files/memo-2013.pdf", Some 1905%Z)))
  = Ok (Some 1905%Z).
Proof.
  assert (Hno : ~ has_year_token sample_classes "downloads").
  { apply search_none_no_token. vm_compute. reflexivity. }
  assert (Hne : "downloads"%string <> ""%string) by discriminate.
  destruct (@downloads_are_indexed_under_their_year
              sample_classes constant_digest "downloads"
              Hne eq_refl Hno (fun _ => eq_refl)) as (_ & H & _).
  destruct (H (7%Z, "https://www.aclu.org/files/memo-2013.pdf", Some 1905%Z))
    as (_ & Hy & _).
  apply (Hy 1905%Z eq_refl). lia.
Defined.

(* ================================================================== *)
(** * The directories of a download run and the rows of the index      *)
(* ================================================================== *)

Lemma download_loop_step :
  forall sha1 aria2c force out x rest fs,
    snd (Download.download_loop sha1 aria2c force out (x :: rest) fs)
    = snd (Download.download_loop sha1 aria2c force out rest
             (fs_after_row sha1 aria2c force out x fs)).
Proof.
  intros sha1 aria2c force out [[rid link] yr] rest fs.
  unfold fs_after_row, with_year_dir, year_of. cbn [fst snd].
  cbn [Download.download_loop].
  match goal with
  | |- context [if ?c then _ else _] => destruct c
  end.
  - match goal with
    | |- context [Download.download_loop _ _ _ _ rest ?f] =>
        destruct (Download.download_loop sha1 aria2c force out rest f)
    end.
    reflexivity.
  - destruct (aria2c _ link _) as [fs2|e].
    + destruct (Download.download_loop sha1 aria2c force out rest fs2).
      reflexivity.
    + match goal with
      | |- context [Download.download_loop _ _ _ _ rest ?f] =>
          destruct (Download.download_loop sha1 aria2c force out rest f)
      end.
      reflexivity.
Qed.

Lemma with_year_dir_exists :
  forall out x fs,
    Download.path_exists (with_year_dir out x fs) (year_dir_of out x) = true.
Proof.
  intros out x fs. unfold with_year_dir, year_dir_of.
  destruct (Download.path_exists fs
              (Download.path_join out (Download.year_str (year_of x)))) eqn:E.
  - exact E.
  - simpl. rewrite String.eqb_refl. reflexivity.
Qed.

Lemma fs_after_row_keeps :
  forall sha1 aria2c force out x fs,
    keeps_paths aria2c ->
    (forall p, Download.path_exists fs p = true ->
               Download.path_exists (fs_after_row sha1 aria2c force out x fs) p
               = true) /\
    Download.path_exists (fs_after_row sha1 aria2c force out x fs)
                         (year_dir_of out x) = true.
Proof.
  intros sha1 aria2c force out x fs Hk.
  assert (H1 : forall p, Download.path_exists fs p = true ->
                         Download.path_exists (with_year_dir out x fs) p = true)
    by (intros p; apply path_exists_with_year_dir).
  pose proof (with_year_dir_exists out x fs) as H2.
  unfold fs_after_row.
  destruct (Download.path_exists (with_year_dir out x fs)
              (Download.dest_path_of sha1 out x) && negb force);
    [split; assumption|].
  destruct (aria2c (with_year_dir out x fs) (snd (fst x))
                   (Download.dest_path_of sha1 out x)) as [fs2|e] eqn:E;
    [|split; assumption].
  split.
  - intros p Hp. apply (Hk _ _ _ _ E). apply H1. exact Hp.
  - apply (Hk _ _ _ _ E). exact H2.
Qed.

(** X18.  With a transfer program that removes nothing, a run of the
    download loop removes nothing either, and when it ends the year
    directory of every row it went through exists, also for the rows
    that were skipped and for those whose transfer failed. *)
Theorem year_directories_exist_after_the_run :
  forall (sha1 : string -> string)
         (aria2c : Download.filesystem -> string -> string ->
                   Download.filesystem + exn)
         (force : bool) (out : string) (rows : list Download.fetched)
         (fs : Download.filesystem),
    keeps_paths aria2c ->
    let fs' := snd (Download.download_loop sha1 aria2c force out rows fs) in
    (forall p, Download.path_exists fs p = true ->
               Download.path_exists fs' p = true) /\
    (forall x, In x rows ->
               Download.path_exists fs' (year_dir_of out x) = true).
Proof.
  intros sha1 aria2c force out rows fs Hk. simpl. revert fs.
  induction rows as [|x rest IH]; intros fs.
  - split; [auto|contradiction].
  - rewrite download_loop_step.
    destruct (fs_after_row_keeps sha1 force out x fs Hk) as [H1 H2].
    destruct (IH (fs_after_row sha1 aria2c force out x fs)) as [K1 K2].
    split.
    + intros p Hp. apply K1, H1. exact Hp.
    + intros y [<-|Hy]; [apply K1; exact H2|apply K2; exact Hy].
Qed.

Lemma writes_file_keeps_paths : keeps_paths writes_file.
Proof.
  intros fs url dest fs' E p Hp. injection E as <-.
  simpl. rewrite Hp. apply orb_true_r.
Qed.

(** The table of the example, fetched into an empty file system. *)
Lemma year_directories_exist_after_the_run_fetched_table :
  let fs' := snd (Download.download_loop constant_digest writes_file false
                    "downloads" (processed fetched_table false) []) in
  Download.path_exists fs' "downloads/2013" = true /\
  Download.path_exists fs' "downloads/unknown" = true.
Proof.
  intros fs'.
  destruct (@year_directories_exist_after_the_run constant_digest writes_file
              false "downloads" (processed fetched_table false) []
              writes_file_keeps_paths) as [_ H].
  split.
  - apply (H (1%Z, "https://www.aclu.org/files/a.pdf", Some 2013%Z)).
    vm_compute. left. reflexivity.
  - apply (H (2%Z, "https://www.aclu.org/files/b.pdf", None)).
    vm_compute. right. left. reflexivity.
Defined.

(** ** The rows of the index *)

Lemma hex_digit_safe :
  forall n, n < 16 -> Url.always_safe (Url.hex_digit n) = true.
Proof.
  intros n H.
  do 16 (destruct n as [|n]; [reflexivity|]). lia.
Qed.

Lemma quote_chars :
  forall s, PyStr.forallb_str is_link_char (Url.quote_from_bytes s) = true.
Proof.
  induction s as [|c r IH]; [reflexivity|].
  cbn [Url.quote_from_bytes].
  destruct (Url.always_safe c || Ascii.eqb c "/"%char) eqn:E.
  - cbn [PyStr.forallb_str]. rewrite IH, andb_true_r.
    unfold is_link_char. rewrite E. reflexivity.
  - cbn [PyStr.forallb_str]. rewrite IH, andb_true_r.
    assert (Hb : nat_of_ascii c < 256) by apply nat_ascii_bounded.
    unfold is_link_char at 2 3.
    rewrite !hex_digit_safe.
    + reflexivity.
    + apply Nat.mod_upper_bound. lia.
    + apply Nat.Div0.div_lt_upper_bound. lia.
Qed.

(** A text of ASCII characters reads as these characters. *)
Lemma chars_of_ascii :
  forall s,
    PyStr.forallb_str (fun c => (nat_of_ascii c <? 128)%nat) s = true ->
    PyStr.chars s = map PyStr.Plain (list_ascii_of_string s).
Proof.
  unfold PyStr.chars. induction s as [|c r IH]; intros H; [reflexivity|].
  simpl in H. apply andb_true_iff in H. destruct H as [Hc Hr].
  cbn [PyStr.chars_from list_ascii_of_string map]. rewrite Hc, (IH Hr).
  reflexivity.
Qed.

Lemma ascii_encodable :
  forall s,
    PyStr.forallb_str (fun c => (nat_of_ascii c <? 128)%nat) s = true ->
    PyStr.encodable s = true.
Proof.
  intros s H. unfold PyStr.encodable. rewrite (chars_of_ascii s H).
  apply negb_true_iff.
  induction (list_ascii_of_string s) as [|c l IH]; [reflexivity|exact IH].
Qed.

Lemma always_safe_ascii :
  forall c, Url.always_safe c = true -> (nat_of_ascii c <? 128)%nat = true.
Proof.
  intros [[] [] [] [] [] [] [] []]; vm_compute; intros H;
    try discriminate H; reflexivity.
Qed.

(** X19.  A table row of the index is written exactly for a file whose
    path can be encoded as UTF-8 (a path of unreserved characters can);
    for another file the row raises the [UnicodeEncodeError] of
    [quote].  In every row written, the address of the link is made of
    unreserved characters, slashes and percent signs only (no quotation
    mark, space or angle bracket can end the attribute), and the name
    shown holds no vertical bar.  The name and the path shown beside it
    are otherwise written as they are. *)
Theorem index_links_are_quoted :
  forall f : Index.pdf,
    (PyStr.forallb_str Url.always_safe (Index.pdf_path f) = true ->
     PyStr.encodable (Index.pdf_path f) = true) /\
    (PyStr.encodable (Index.pdf_path f) = false ->
     Index.file_row f = Raise Url.unicode_encode_error) /\
    (PyStr.encodable (Index.pdf_path f) = true ->
     exists link name,
       Index.file_row f
       = Ok ("          <tr><td><a href=" +++ Index.quote_mark +++ link +++
             Index.quote_mark +++ " target=" +++ Index.quote_mark +++
             "_blank" +++ Index.quote_mark +++ ">" +++ name +++
             "</a></td><td><code>" +++ Index.pdf_path f +++
             "</code></td></tr>" +++ Index.newline) /\
       PyStr.forallb_str is_link_char link = true /\
       PyStr.forallb_str (fun c => negb (Ascii.eqb c "|"%char)) name = true /\
       (PyStr.forallb_str Url.always_safe (Index.pdf_path f) = true ->
        link = Index.pdf_path f) /\
       (PyStr.contains "|" (Index.pdf_name f) = false ->
        name = Index.pdf_name f)).
Proof.
  intros f. split; [|split].
  - intros H. apply ascii_encodable. revert H. apply forallb_str_impl.
    exact always_safe_ascii.
  - intros H. unfold Index.file_row, Url.quote. rewrite H. reflexivity.
  - intros Henc.
    exists (Url.quote_from_bytes (Index.pdf_path f)),
           (PyStr.replace "|" "Vertical Bar" (Index.pdf_name f)).
    split; [unfold Index.file_row, Url.quote; rewrite Henc; reflexivity|].
    split; [apply quote_chars|]. split.
    + apply replace_char_forall; [reflexivity|].
      generalize (Index.pdf_name f). intros s.
      induction s as [|c r IH]; [reflexivity|].
      simpl. rewrite IH. destruct (Ascii.eqb c "|"); reflexivity.
    + split.
      * generalize (Index.pdf_path f). intros s.
        induction s as [|c r IH]; intros H; [reflexivity|].
        simpl in H. apply andb_true_iff in H. destruct H as [Hc Hr].
        cbn [Url.quote_from_bytes]. rewrite Hc. simpl. rewrite (IH Hr).
        reflexivity.
      * apply replace_absent.
Qed.

(* ================================================================== *)
(** * The query of the fallback address                                *)
(* ================================================================== *)

Lemma split_join :
  forall c parts,
    parts <> [] ->
    Forall (fun p => PyStr.forallb_str (fun a => negb (Ascii.eqb a c)) p = true)
           parts ->
    PyStr.split c (PyStr.join (String c EmptyString) parts) = parts.
Proof.
  intros c parts Hne H. induction H as [|p rest Hp Hrest IH]; [congruence|].
  destruct rest as [|q rest].
  - simpl. apply split_absent. exact Hp.
  - change (PyStr.join (String c EmptyString) (p :: q :: rest))
      with (p +++ String c (PyStr.join (String c EmptyString) (q :: rest))).
    rewrite split_at_separator by exact Hp.
    rewrite IH by discriminate. reflexivity.
Qed.

Lemma safe_avoids :
  forall c s,
    Url.always_safe c = false ->
    PyStr.forallb_str Url.always_safe s = true ->
    PyStr.forallb_str (fun a => negb (Ascii.eqb a c)) s = true.
Proof.
  intros c s Hc. apply forallb_str_impl. intros a Ha.
  destruct (Ascii.eqb a c) eqn:E; [|reflexivity].
  apply Ascii.eqb_eq in E. congruence.
Qed.

Lemma plain_text_decodes :
  forall s,
    PyStr.forallb_str Url.always_safe s = true ->
    Url.unquote (Url.plus_to_space s) = s.
Proof.
  intros s H. unfold Url.plus_to_space.
  rewrite replace_absent.
  - apply unquote_plain. apply safe_avoids; [reflexivity|exact H].
  - apply (contains_char_absent "+"%char).
    apply safe_avoids; [reflexivity|exact H].
Qed.

Lemma add_value_new :
  forall name value d,
    ~ In name (map fst d) ->
    Url.add_value name value d = d ++ [(name, [value])].
Proof.
  intros name value d. induction d as [|[k vs] d IH]; intros H; [reflexivity|].
  simpl in *.
  assert (E : String.eqb k name = false).
  { apply String.eqb_neq. intros ->. apply H. left. reflexivity. }
  rewrite E, IH; [reflexivity|]. intro Hin. apply H. right. exact Hin.
Qed.

Lemma parse_fields :
  forall fields d,
    Forall plain_field fields ->
    NoDup (map fst d ++ map fst fields) ->
    fold_left
      (fun d field =>
         match PyStr.split_once "="%char field with
         | (name, Some value) =>
             if PyStr.truthy value
             then Url.add_value (Url.unquote (Url.plus_to_space name))
                                (Url.unquote (Url.plus_to_space value)) d
             else d
         | (_, None) => d
         end)
      (map field_text fields) d
    = d ++ map (fun nv => (fst nv, [snd nv])) fields.
Proof.
  induction fields as [|[n v] fields IH]; intros d Hp Hnd.
  - simpl. rewrite app_nil_r. reflexivity.
  - inversion Hp as [|? ? (Hn & Hv & Hne) Hrest]; subst. simpl in Hn, Hv, Hne.
    cbn [map fold_left].
    change (field_text (n, v)) with (n +++ String "=" v).
    assert (Es : PyStr.split_once "=" (n +++ String "=" v) = (n, Some v)).
    { rewrite split_once_skip by exact (safe_avoids "="%char n eq_refl Hn).
      simpl. rewrite append_nil_r. reflexivity. }
    rewrite Es.
    assert (Tv : PyStr.truthy v = true) by (destruct v; [congruence|reflexivity]).
    rewrite Tv, !plain_text_decodes by assumption.
    simpl in Hnd.
    rewrite add_value_new.
    + rewrite IH; [rewrite <- app_assoc; reflexivity|exact Hrest|].
      rewrite map_app, <- app_assoc. exact Hnd.
    + apply NoDup_remove_2 in Hnd. intro Hin. apply Hnd.
      apply in_or_app. left. exact Hin.
Qed.

Lemma field_text_avoids :
  forall nv,
    plain_field nv ->
    PyStr.forallb_str (fun a => negb (Ascii.eqb a "&"%char)) (field_text nv)
    = true.
Proof.
  intros [n v] (Hn & Hv & _). unfold field_text. simpl in *.
  rewrite forallb_str_app.
  rewrite (safe_avoids "&"%char n eq_refl Hn).
  cbn [String.append PyStr.forallb_str].
  rewrite (safe_avoids "&"%char v eq_refl Hv). reflexivity.
Qed.

Lemma plain_query_round_trip :
  forall fields : list (string * string),
    Forall plain_field fields ->
    NoDup (map fst fields) ->
    Url.parse_qs (query_of fields)
    = map (fun nv => (fst nv, [snd nv])) fields /\
    Url.urlencode (Url.parse_qs (query_of fields)) = query_of fields.
Proof.
  intros fields Hp Hnd.
  assert (Hparse : Url.parse_qs (query_of fields)
                   = map (fun nv => (fst nv, [snd nv])) fields).
  { destruct fields as [|f fields]; [reflexivity|].
    unfold Url.parse_qs.
    assert (Hq : query_of (f :: fields) <> "").
    { unfold query_of. destruct f as [n v].
      inversion Hp as [|? ? (_ & _ & Hne) _]; subst. simpl in Hne.
      destruct fields; cbn [map PyStr.join]; unfold field_text; simpl;
        destruct n; simpl; try discriminate; destruct v; simpl; congruence. }
    destruct (query_of (f :: fields)) eqn:E; [congruence|].
    rewrite <- E. unfold query_of.
    rewrite (split_join "&"%char); [|discriminate|].
    - apply (@parse_fields (f :: fields) [] Hp). exact Hnd.
    - rewrite Forall_forall in *. intros t Ht.
      apply in_map_iff in Ht. destruct Ht as (nv & <- & Hnv).
      apply field_text_avoids. apply Hp. exact Hnv. }
  split; [exact Hparse|].
  rewrite Hparse. unfold Url.urlencode, query_of. f_equal.
  clear Hparse Hnd. induction Hp as [|[n v] fields (Hn & Hv & _) Hrest IH];
    [reflexivity|].
  simpl in *. rewrite IH. unfold field_text. simpl.
  rewrite !quote_plus_safe by assumption. reflexivity.
Qed.

(** The characters of a plain query: unreserved characters, equals
    signs and ampersands. *)
Lemma plain_query_chars :
  forall fields,
    Forall plain_field fields ->
    PyStr.forallb_str
      (fun c => Url.always_safe c || Ascii.eqb c "="%char || Ascii.eqb c "&"%char)
      (query_of fields) = true.
Proof.
  intros fields H. unfold query_of.
  assert (Hf : forall nv,
            plain_field nv ->
            PyStr.forallb_str
              (fun c => Url.always_safe c || Ascii.eqb c "="%char
                        || Ascii.eqb c "&"%char) (field_text nv) = true).
  { intros [n v] (Hn & Hv & _). unfold field_text. simpl in *.
    rewrite forallb_str_app. cbn [String.append PyStr.forallb_str].
    rewrite (forallb_str_impl Url.always_safe _ n) by
      (try exact Hn; intros c Hc; rewrite Hc; reflexivity).
    rewrite (forallb_str_impl Url.always_safe _ v) by
      (try exact Hv; intros c Hc; rewrite Hc; reflexivity).
    reflexivity. }
  induction H as [|nv rest Hnv Hrest IH]; [reflexivity|].
  destruct rest as [|nv' rest].
  - simpl. apply Hf. exact Hnv.
  - change (PyStr.join "&" (map field_text (nv :: nv' :: rest)))
      with (field_text nv +++ "&" +++ PyStr.join "&" (map field_text (nv' :: rest))).
    rewrite forallb_str_app. rewrite (Hf nv Hnv).
    cbn [String.append PyStr.forallb_str]. rewrite IH. reflexivity.
Qed.

Lemma plain_query_avoids :
  forall c fields,
    Url.always_safe c = false -> Ascii.eqb c "="%char = false ->
    Ascii.eqb c "&"%char = false ->
    Forall plain_field fields ->
    PyStr.forallb_str (fun a => negb (Ascii.eqb a c)) (query_of fields) = true.
Proof.
  intros c fields H1 H2 H3 H.
  eapply forallb_str_impl; [|apply plain_query_chars; exact H].
  intros a Ha. destruct (Ascii.eqb a c) eqn:E; [|reflexivity].
  apply Ascii.eqb_eq in E. subst a. rewrite H1, H2, H3 in Ha. discriminate.
Qed.

Lemma urlparse_search_url :
  forall page qry,
    PyStr.forallb_str (fun a => negb (Ascii.eqb a "#"%char)) qry = true ->
    Url.urlparse (search_url +++ "/page/" +++ PyStr.of_Z page +++ "?" +++ qry
                  +++ "#listings")
    = Url.mkParsed "https" "www.aclu.org"
        ("/foia-collections/nsa-documents-search/page/" +++ PyStr.of_Z page)
        "" qry "listings".
Proof.
  intros page qry Hq. unfold Url.urlparse.
  set (pth := "/foia-collections/nsa-documents-search/page/" +++ PyStr.of_Z page).
  change (Url.split_scheme
            (search_url +++ "/page/" +++ PyStr.of_Z page +++ "?" +++ qry
             +++ "#listings"))
    with ("https",
          "//www.aclu.org" +++ pth +++ "?" +++ qry +++ "#listings").
  cbv beta iota.
  change (String.prefix "//" ("//www.aclu.org" +++ pth +++ "?" +++ qry
                              +++ "#listings")) with true.
  cbv beta iota.
  change (Url.break_at Url.is_netloc_end
            (PyStr.drop 2 ("//www.aclu.org" +++ pth +++ "?" +++ qry
                           +++ "#listings")))
    with ("www.aclu.org", pth +++ "?" +++ qry +++ "#listings").
  cbv beta iota.
  replace (pth +++ "?" +++ qry +++ "#listings")
    with ((pth +++ "?" +++ qry) +++ String "#" "listings")
    by (rewrite !append_assoc; reflexivity).
  rewrite cut_at.
  - change (pth +++ "?" +++ qry) with (pth +++ String "?" qry).
    rewrite cut_at by (subst pth; avoids "?"%char).
    rewrite (contains_char_absent ";"%char pth) by (subst pth; avoids ";"%char).
    rewrite andb_false_r. reflexivity.
  - rewrite forallb_str_app.
    replace (PyStr.forallb_str (fun x => negb (Ascii.eqb x "#"%char)) pth)
      with true by (symmetry; subst pth; avoids "#"%char).
    cbn [String.append PyStr.forallb_str]. rewrite Hq. reflexivity.
Qed.

(** X20.  The query of the address the pagination fallback builds is the
    query of the current address passed through [parse_qs] and
    [urlencode].  A query made of fields [name=value] with distinct
    names, written with unreserved characters only and with values that
    are not empty, comes out character for character as it went in: on
    a listing address with such a query the fallback returns the address
    with the page segment appended to the path and the same query and
    fragment. *)
Theorem fallback_keeps_a_plain_query :
  forall (fields : list (string * string)) (page current_page : Z),
    Forall plain_field fields ->
    NoDup (map fst fields) ->
    fields <> [] ->
    Url.urlencode (Url.parse_qs (query_of fields)) = query_of fields /\
    Crawl.fallback_url current_page
      (search_url +++ "/page/" +++ PyStr.of_Z page +++ "?" +++ query_of fields
       +++ "#listings")
    = search_url +++ "/page/" +++ PyStr.of_Z page
      +++ "/page/" +++ PyStr.of_Z (current_page + 1)
      +++ "?" +++ query_of fields +++ "#listings".
Proof.
  intros fields page current_page Hp Hnd Hne.
  destruct (plain_query_round_trip Hp Hnd) as [Hparse Hround].
  split; [exact Hround|].
  unfold Crawl.fallback_url.
  rewrite urlparse_search_url
    by (apply plain_query_avoids; [reflexivity..|exact Hp]).
  cbn [Url.scheme Url.netloc Url.path Url.query Url.fragment].
  rewrite Hround. rewrite Hparse.
  unfold PyStr.rstrip_char.
  rewrite rstrip_by_app
    by (try apply of_Z_truthy;
        apply (of_Z_avoids (Ascii.eqb "/"%char)); by_sign_or_digit).
  destruct fields as [|f fields]; [congruence|].
  cbn [map]. change (PyStr.truthy "listings") with true. cbv beta iota.
  unfold search_url. rewrite !append_assoc. reflexivity.
Qed.

Lemma fallback_keeps_a_plain_query_example :
  Crawl.fallback_url 1
    "https://www.aclu.org/foia-collections/nsa-documents-search/page/1?document_date=2013&sort=title#listings"
  = "https://www.aclu.org/foia-collections/nsa-documents-search/page/1/page/2?document_date=2013&sort=title#listings".
Proof.
  refine (proj2 (@fallback_keeps_a_plain_query
                   [("document_date", "2013"); ("sort", "title")] 1 1 _ _ _)).
  - repeat constructor; simpl; discriminate.
  - repeat constructor; simpl; intuition discriminate.
  - discriminate.
Defined.

(** Fields of the same name are brought together, and a field without a
    value is dropped. *)
Example fallback_regroups_repeated_fields :
  Url.urlencode (Url.parse_qs "a=1&b=2&a=3&c=") = "a=1&a=3&b=2".
Proof. reflexivity. Qed.
